(** * EcoTrack carbon-footprint tracker: validator and emission calculators

    A shallow embedding of the input validator ([validate_kwh_input] of
    [app.py] and of [app1.py]), of the emission calculators
    ([calculate_co2_emission] of [app.py]; the [EmissionCalculator] class
    hierarchy of [app1.py]) and of the two request handlers that call them
    ([calculator], [api_calculate]), with the properties the specification
    states about them.

    Python values are modelled as follows.
    - [str]: a list of Unicode code points ([N]).
    - [float]: IEEE 754 binary64, as [spec_float] with precision 53 and
      [emax] 1024; arithmetic and comparisons are the ones of [SpecFloat].
    - [int]: [Z].
    - an exception: a value of [exn] in the left summand of a result.
    - the objects a calculator instance creates (its history list, the
      record dictionaries): a heap [gmap loc obj], so that aliasing between
      a list and its copy is visible. *)

From Stdlib Require Import ZArith NArith List String Ascii Bool Lia.
From Stdlib Require Import SpecFloat.
From stdpp Require Import base option gmap pretty.
Import ListNotations.

Local Open Scope Z_scope.

(** ** Binary64 floating point *)

Module Float64.

Definition prec : Z := 53.
Definition emax : Z := 1024.

Definition float64 : Type := spec_float.

Definition mul : float64 -> float64 -> float64 := SFmul prec emax.
Definition leb : float64 -> float64 -> bool := SFleb.
Definition ltb : float64 -> float64 -> bool := SFltb.
Definition eqb : float64 -> float64 -> bool := SFeqb.

Definition is_nan (x : float64) : bool :=
  match x with S754_nan => true | _ => false end.

Definition is_infinite (x : float64) : bool :=
  match x with S754_infinity _ => true | _ => false end.

(** The binary64 number nearest to [(-1)^neg * mant * 10^exp10], ties to
    even: what a correctly rounded decimal-to-binary conversion returns
    (CPython's [float(str)] and its parser of float literals).  The decimal
    is an exact quotient of two integers, and [SFdiv] rounds that quotient
    once. A quotient too large for binary64 gives an infinity, one too
    small gives a zero. *)
Definition of_decimal (neg : bool) (mant : N) (exp10 : Z) : float64 :=
  match (mant * 10 ^ Z.to_N exp10)%N, (10 ^ Z.to_N (- exp10))%N with
  | Npos num, Npos den =>
      SFdiv prec emax (S754_finite neg num 0) (S754_finite false den 0)
  | _, _ => S754_zero neg
  end.

(** The least magnitude that rounds to an infinity: the largest finite
    binary64 number plus half a unit in its last place. *)
Definition overflow_threshold : Z := 2 ^ 1024 - 2 ^ 970.

(** [float(n)] for a Python [int]: correctly rounded, and an
    [OverflowError] ([None]) when the result does not fit. *)
Definition of_Z (z : Z) : option float64 :=
  if Z.abs z <? overflow_threshold
  then Some (of_decimal (z <? 0) (Z.abs_N z) 0)
  else None.

(** A small integer constant of the source, as a float (used where the
    source compares a float with an [int] literal; the conversion is exact
    for the literals that occur). *)
Definition of_lit (z : Z) : float64 := of_decimal (z <? 0) (Z.abs_N z) 0.

Definition zero : float64 := S754_zero false.

End Float64.

Export Float64.

(** ** Python strings *)

Module PyStr.

(** A character is its Unicode code point. *)
Definition char : Type := N.
Definition str : Type := list char.

(** A string literal of the source that holds ASCII characters only. *)
Definition of_ascii (s : string) : str :=
  List.map N_of_ascii (list_ascii_of_string s).

(** [str.isspace] on one character, the test [str.strip()] applies:
    CPython's [_PyUnicode_IsWhitespace]. *)
Definition isspace (c : char) : bool :=
  ((9 <=? c) && (c <=? 13) || (28 <=? c) && (c <=? 32)
   || (c =? 133) || (c =? 160) || (c =? 5760)
   || (8192 <=? c) && (c <=? 8202)
   || (c =? 8232) || (c =? 8233) || (c =? 8239) || (c =? 8287)
   || (c =? 12288))%N.

Fixpoint lstrip (s : str) : str :=
  match s with
  | c :: t => if isspace c then lstrip t else s
  | [] => []
  end.

Definition rstrip (s : str) : str := rev (lstrip (rev s)).

(** [s.strip()] *)
Definition strip (s : str) : str := rstrip (lstrip s).

(** [c.lower()] for an ASCII character. *)
Definition ascii_lower (c : char) : char :=
  if ((65 <=? c) && (c <=? 90))%N then (c + 32)%N else c.

Definition is_ascii (c : char) : bool := (c <? 128)%N.

End PyStr.

Export PyStr.

(** ** The part of the Unicode character database the code depends on

    Python's [\d], [float()] and [re.IGNORECASE] consult the Unicode
    database for characters outside ASCII. The database is not part of the
    repository; its two relevant tables are taken as parameters, and every
    definition fixes the ASCII part, which does not depend on the Unicode
    version. *)

Record UnicodeData : Type := {
  (** the decimal value of a non-ASCII character of category Nd
      ([unicodedata.decimal]), [None] for other characters *)
  uni_decimal : char -> option N;
  (** [uni_caseless x c]: under [re.IGNORECASE], the non-ASCII subject
      character [x] matches the ASCII pattern letter [c] (as U+017F for
      [s], U+212A for [k]) *)
  uni_caseless : char -> char -> bool
}.

(** A database with no non-ASCII entries, for evaluating the definitions on
    ASCII inputs, where the tables are never consulted with effect. *)
Definition ascii_only : UnicodeData :=
  {| uni_decimal := fun _ => None; uni_caseless := fun _ _ => false |}.

(** ** Regular expressions, as the [re] module matches them *)

Module Re.

Inductive regex : Type :=
| Void                          (* matches nothing *)
| Eps                           (* the empty pattern *)
| Sym (p : char -> bool)        (* one character of a class *)
| Cat (r1 r2 : regex)           (* r1 r2 *)
| Alt (r1 r2 : regex)           (* r1|r2 *)
| Star (r : regex).             (* r* *)

Definition Opt (r : regex) : regex := Alt r Eps.       (* r? *)
Definition Plus (r : regex) : regex := Cat r (Star r). (* r+ *)
Definition Lit (c : char) : regex := Sym (N.eqb c).    (* a literal *)
Definition Any : regex := Sym (fun _ => true).

(** A literal string. *)
Fixpoint Str (s : str) : regex :=
  match s with
  | [] => Eps
  | [c] => Lit c
  | c :: t => Cat (Lit c) (Str t)
  end.

Fixpoint nullable (r : regex) : bool :=
  match r with
  | Void => false
  | Eps => true
  | Sym _ => false
  | Cat r1 r2 => nullable r1 && nullable r2
  | Alt r1 r2 => nullable r1 || nullable r2
  | Star _ => true
  end.

(** The Brzozowski derivative: what remains to be matched once [c] has
    been read. *)
Fixpoint deriv (c : char) (r : regex) : regex :=
  match r with
  | Void => Void
  | Eps => Void
  | Sym p => if p c then Eps else Void
  | Cat r1 r2 =>
      if nullable r1
      then Alt (Cat (deriv c r1) r2) (deriv c r2)
      else Cat (deriv c r1) r2
  | Alt r1 r2 => Alt (deriv c r1) (deriv c r2)
  | Star r1 => Cat (deriv c r1) (Star r1)
  end.

(** [re.fullmatch(r, s)] is not [None]. *)
Fixpoint fullmatch (r : regex) (s : str) : bool :=
  match s with
  | [] => nullable r
  | c :: t => fullmatch (deriv c r) t
  end.

(** [re.search(r, s)] is not [None]: some substring of [s] matches. *)
Definition search (r : regex) (s : str) : bool :=
  fullmatch (Cat (Star Any) (Cat r (Star Any))) s.

(** The language of a pattern. *)
Inductive matches : regex -> str -> Prop :=
| MEps : matches Eps []
| MSym p c : p c = true -> matches (Sym p) [c]
| MCat r1 r2 s1 s2 :
    matches r1 s1 -> matches r2 s2 -> matches (Cat r1 r2) (s1 ++ s2)
| MAltL r1 r2 s : matches r1 s -> matches (Alt r1 r2) s
| MAltR r1 r2 s : matches r2 s -> matches (Alt r1 r2) s
| MStar0 r : matches (Star r) []
| MStarS r s1 s2 :
    matches r s1 -> matches (Star r) s2 -> matches (Star r) (s1 ++ s2).

End Re.

Export Re.

(** ** The builtins [float()] and the character classes of [re] *)

Section Builtins.

Context (ucd : UnicodeData).

(** The decimal value of a character that Python counts as a decimal
    digit ([Py_UNICODE_TODECIMAL]): the test behind [\d] in a [str]
    pattern and the digits [float()] accepts. *)
Definition decimal (c : char) : option N :=
  if is_ascii c
  then if ((48 <=? c) && (c <=? 57))%N then Some (c - 48)%N else None
  else uni_decimal ucd c.

Definition isdecimal (c : char) : bool :=
  match decimal c with Some _ => true | None => false end.

(** The pattern atom [\d]. *)
Definition Digit : regex := Sym isdecimal.

Definition is_ascii_letter (c : char) : bool :=
  ((65 <=? c) && (c <=? 90) || (97 <=? c) && (c <=? 122))%N.

(** Whether subject character [x] matches pattern letter [c] under
    [re.IGNORECASE]. *)
Definition caseless (c x : char) : bool :=
  if is_ascii x
  then (ascii_lower x =? ascii_lower c)%N
  else uni_caseless ucd x c.

(** A literal character of a pattern compiled with [re.IGNORECASE]: a
    cased character matches caselessly, any other one exactly. *)
Definition LitI (c : char) : regex :=
  if is_ascii_letter c then Sym (caseless c) else Lit c.

Fixpoint StrI (s : str) : regex :=
  match s with
  | [] => Eps
  | [c] => LitI c
  | c :: t => Cat (LitI c) (StrI t)
  end.

(** A run of digits of a float literal, [digit (["_"] digit)*]: the
    values of the digits and the rest of the string. *)
Fixpoint digitpart (s : str) : list N * str :=
  match s with
  | [] => ([], [])
  | c :: t =>
      match decimal c with
      | None => ([], s)
      | Some d =>
          match t with
          | 95%N :: t' =>
              match t' with
              | c' :: _ =>
                  if isdecimal c'
                  then let (ds, r) := digitpart t' in (d :: ds, r)
                  else ([d], t)
              | [] => ([d], t)
              end
          | _ => let (ds, r) := digitpart t in (d :: ds, r)
          end
      end
  end.

(** The number a list of decimal digits writes. *)
Definition number (ds : list N) : N :=
  fold_left (fun a d => (a * 10 + d)%N) ds 0%N.

(** An optional sign. *)
Definition split_sign (s : str) : bool * str :=
  match s with
  | 45%N :: t => (true, t)
  | 43%N :: t => (false, t)
  | _ => (false, s)
  end.

(** The exponent after [e] or [E]: [[+-]? digitpart]. *)
Definition parse_exponent (s : str) : option Z :=
  let (neg, s1) := split_sign s in
  match digitpart s1 with
  | ((_ :: _) as ds, []) =>
      Some (if neg then - Z.of_N (number ds) else Z.of_N (number ds))
  | _ => None
  end.

Definition str_eqb (a b : str) : bool :=
  if decide (a = b) then true else false.

(** [float()] on a string without surrounding whitespace; [None] stands
    for [ValueError]. The grammar is the one of the language reference:
    [[sign] (infinity | nan | floatnumber)]. *)
Definition parse_float (s : str) : option float64 :=
  let (neg, s1) := split_sign s in
  let low := List.map ascii_lower s1 in
  if str_eqb low (of_ascii "inf") || str_eqb low (of_ascii "infinity")
  then Some (S754_infinity neg)
  else if str_eqb low (of_ascii "nan") then Some S754_nan
  else
    let (ip, s2) := digitpart s1 in
    let (fp, s3) :=
      match s2 with
      | 46%N :: t => digitpart t
      | _ => ([], s2)
      end in
    match ip ++ fp with
    | [] => None
    | ds =>
        let frac := Z.of_nat (length fp) in
        match s3 with
        | [] => Some (of_decimal neg (number ds) (- frac))
        | c :: t =>
            if ((c =? 101) || (c =? 69))%N
            then match parse_exponent t with
                 | Some e => Some (of_decimal neg (number ds) (e - frac))
                 | None => None
                 end
            else None
        end
    end.

(** [float(s)] for a [str]: surrounding whitespace is ignored. *)
Definition py_float (s : str) : option float64 := parse_float (strip s).

End Builtins.

(** ** Python values, exceptions and the object store *)

Module Py.

(** The exceptions the code can raise or meet. [OtherError] stands for any
    exception that is neither a [ValueError] nor a [TypeError] nor an
    [OverflowError] (a [sqlite3.Error] of the database layer, an
    [AttributeError]). *)
Inductive exn : Type :=
| TypeError (msg : string)
| ValueError (msg : string)
| OverflowError (msg : string)
| OtherError (msg : string).

(** [str(e)] *)
Definition exn_message (e : exn) : string :=
  match e with
  | TypeError m | ValueError m | OverflowError m | OtherError m => m
  end.

(** The outcome of a call: an exception raised, or a value returned. *)
Definition result (A : Type) : Type := (exn + A)%type.

(** A value decoded from JSON or passed between the functions. The items
    of a list and of a dictionary are left out: no code of the model
    inspects them. *)
Inductive pyval : Type :=
| PyNone
| PyBool (b : bool)
| PyInt (z : Z)
| PyFloat (f : float64)
| PyStr (s : str)
| PyList
| PyDict.

(** [isinstance(v, (int, float))]; [bool] is a subclass of [int]. *)
Definition is_numeric (v : pyval) : bool :=
  match v with
  | PyBool _ | PyInt _ | PyFloat _ => true
  | _ => false
  end.

(** [v is None] *)
Definition is_none (v : pyval) : bool :=
  match v with PyNone => true | _ => false end.

(** [v == s] for a string literal [s]. *)
Definition eq_str (v : pyval) (s : string) : bool :=
  match v with
  | PyStr t => if decide (t = of_ascii s) then true else false
  | _ => false
  end.

(** Comparisons of a numeric value with an [int] literal of the source:
    exact on integers, the binary64 comparison on floats (false whenever the
    float is a NaN). On a value that is not numeric Python raises; the code
    compares only after the [isinstance] test, and the model answers
    [false] there. *)
Definition lt_int (v : pyval) (k : Z) : bool :=      (* v < k *)
  match v with
  | PyBool b => Z.b2z b <? k
  | PyInt z => z <? k
  | PyFloat f => ltb f (of_lit k)
  | _ => false
  end.

Definition le_int (v : pyval) (k : Z) : bool :=      (* v <= k *)
  match v with
  | PyBool b => Z.b2z b <=? k
  | PyInt z => z <=? k
  | PyFloat f => leb f (of_lit k)
  | _ => false
  end.

Definition gt_int (v : pyval) (k : Z) : bool :=      (* v > k *)
  match v with
  | PyBool b => k <? Z.b2z b
  | PyInt z => k <? z
  | PyFloat f => ltb (of_lit k) f
  | _ => false
  end.

(** [float(v)] for a numeric value, as the multiplication by a float
    converts its [int] operand. *)
Definition to_float (v : pyval) : result float64 :=
  match v with
  | PyBool b => inr (of_lit (Z.b2z b))
  | PyInt z =>
      match of_Z z with
      | Some f => inr f
      | None => inl (OverflowError "int too large to convert to float")
      end
  | PyFloat f => inr f
  | _ => inl (TypeError "unsupported operand type(s) for *")
  end.

(** [v * factor] for a float [factor]. *)
Definition times (v : pyval) (factor : float64) : result float64 :=
  match to_float v with
  | inr f => inr (mul f factor)
  | inl e => inl e
  end.

(** [round(x, ndigits)] for a float: the decimal with [ndigits] places
    nearest to the exact value of [x], ties to even, converted back to
    binary64. *)
Definition round (x : float64) (ndigits : N) : float64 :=
  match x with
  | S754_finite s m e =>
      let n := (Z.pos m * 10 ^ Z.of_N ndigits)%Z in
      let q :=
        match e with
        | Zneg p =>
            let d := (2 ^ Z.pos p)%Z in
            let q0 := (n / d)%Z in
            let r := (n mod d)%Z in
            match (2 * r ?= d)%Z with
            | Lt => q0
            | Gt => (q0 + 1)%Z
            | Eq => if Z.even q0 then q0 else (q0 + 1)%Z
            end
        | _ => (n * 2 ^ e)%Z
        end in
      of_decimal s (Z.to_N q) (- Z.of_N ndigits)
  | _ => x
  end.

(** A reading of the clock ([datetime.now()], [time.time()]). *)
Definition datetime : Type := Z.

(** A reference to an object of the store. *)
Definition loc : Type := positive.

End Py.

Export Py.

(** ** The validator's result

    [validate_kwh_input] returns the tuple [(is_valid, error_message,
    kwh_value)]; [None] is Python's [None]. *)

Definition validation : Type := bool * option string * option float64.

Definition is_empty (s : str) : bool :=
  match s with [] => true | _ => false end.

(** ** [app.py] *)

Module App.

Section WithUnicode.

Context (ucd : UnicodeData).

(** [EMISSION_FACTOR_KWH = 0.37] *)
Definition EMISSION_FACTOR_KWH : float64 := of_decimal false 37 (-2).

(** The pattern [r"-?\d+(?:\.\d+)?"]. *)
Definition number_pattern : regex :=
  Cat (Opt (Lit 45%N))
      (Cat (Plus (Digit ucd))
           (Opt (Cat (Lit 46%N) (Plus (Digit ucd))))).

(** [validate_kwh_input(kwh_input_str)]; the calls to the logger are
    left out. *)
Definition validate_kwh_input (kwh_input_str : str) : validation :=
  if is_empty kwh_input_str || is_empty (strip kwh_input_str)
  then (false, Some "Please enter a value."%string, None)
  else
    let trimmed := strip kwh_input_str in
    if negb (fullmatch number_pattern trimmed)
    then (false, Some "Please enter a valid number."%string, None)
    else
      match py_float ucd trimmed with
      | Some kwh =>
          if leb kwh (of_lit 0)
          then (false, Some "Value must be greater than 0."%string, None)
          else if ltb (of_lit 99999) kwh
          then (false, Some "Value cannot exceed 99,999."%string, None)
          else (true, None, Some kwh)
      | None =>
          (* except (ValueError, TypeError) *)
          (false, Some "Please enter a valid number."%string, None)
      end.

(** [calculate_co2_emission(kwh)] *)
Definition calculate_co2_emission (kwh : float64) : float64 :=
  mul kwh EMISSION_FACTOR_KWH.

(** A row of the table [calculations], as [save_calculation] inserts it;
    the database assigns the key and the time. *)
Record row : Type := {
  row_user_id : Z;
  row_kwh_input : float64;
  row_co2_result : float64
}.

(** [save_calculation(user_id, kwh_input, co2_result)]. [db_ok] says
    whether the statements of the [try] block go through; when one raises,
    the function logs the error and returns [False]. *)
Definition save_calculation (db_ok : bool) (user_id : Z)
    (kwh_input co2_result : float64) (store : list row) : bool * list row :=
  if db_ok
  then (true, store ++ [ {| row_user_id := user_id;
                            row_kwh_input := kwh_input;
                            row_co2_result := co2_result |} ])
  else (false, store).

Inductive http_method : Type := GET | POST.

(** What the view returns: a redirection, the calculator page with the
    three values the template shows, or the error page of the framework
    when the view raises. *)
Inductive page : Type :=
| Redirect (endpoint : string)
| Calculator_html (error : option string) (result : option float64)
    (kwh_input : str)
| ServerError.

(** A message passed to [flash], with its category. *)
Definition flash : Type := (string * string)%type.

(** The route [/calculator]: the page, the messages flashed and the
    history store afterwards. *)
Definition calculator (session_user_id : option Z) (method : http_method)
    (form_kwh : option str) (db_ok : bool) (store : list row)
  : page * list flash * list row :=
  match session_user_id with
  | None => (Redirect "login", [], store)
  | Some user_id =>
      match method with
      | GET => (Calculator_html None None [], [], store)
      | POST =>
          let kwh_input := strip (default [] form_kwh) in
          let '(is_valid, error_message, kwh_value) :=
            validate_kwh_input kwh_input in
          if negb is_valid
          then (Calculator_html error_message None kwh_input, [], store)
          else
            match kwh_value with
            | Some kwh_value =>
                let result := calculate_co2_emission kwh_value in
                let '(saved, store') :=
                  save_calculation db_ok user_id kwh_value result store in
                (Calculator_html None (Some result) kwh_input,
                 if saved
                 then [("Calculation saved to your history!", "success")]
                 else [("Calculation completed but could not be saved to history.",
                        "warning")],
                 store')
            | None =>
                (* None * 0.37 raises a TypeError *)
                (ServerError, [], store)
            end
      end
  end%string.

End WithUnicode.

End App.

(** ** [app1.py] *)

Module App1.

(** *** The emission calculators *)

(** The attributes a subclass adds to those of [EmissionCalculator]. *)
Inductive subclass : Type :=
| Electricity (max_kwh min_kwh : Z)
| Transport (vehicle_type : pyval)
| Water.

(** An instance of a calculator class: its attributes. The history is a
    reference to a list object of the store. *)
Record instance : Type := {
  _emission_factor : float64;
  _calculation_history : loc;
  own : subclass
}.

(** [self.__class__.__name__] *)
Definition class_name (i : instance) : string :=
  match own i with
  | Electricity _ _ => "ElectricityEmissionCalculator"
  | Transport _ => "TransportEmissionCalculator"
  | Water => "WaterEmissionCalculator"
  end.

(** The dictionary [_record_calculation] builds. *)
Record calc_record : Type := {
  input : pyval;
  output : float64;
  timestamp : datetime;
  calculator_type : string
}.

(** The objects of the store: lists of references, record dictionaries and
    calculator instances. *)
Inductive obj : Type :=
| OList (items : list loc)
| ODict (r : calc_record)
| OInstance (i : instance).

Abbreviation heap := (gmap loc obj).

(** Computations that read and write the store and may raise. *)
Definition M (A : Type) : Type := heap -> result A * heap.

Definition ret {A : Type} (a : A) : M A := fun h => (inr a, h).

Definition raise {A : Type} (e : exn) : M A := fun h => (inl e, h).

Definition bind {A B : Type} (m : M A) (k : A -> M B) : M B :=
  fun h =>
    match m h with
    | (inr a, h') => k a h'
    | (inl e, h') => (inl e, h')
    end.

Notation "'let*' x ':=' m 'in' k" := (bind m (fun x => k))
  (at level 10, x name, k at level 200).

(** A step that does not touch the store. *)
Definition lift {A : Type} (r : result A) : M A := fun h => (r, h).

(** A new object, at a reference that is not in use. *)
Definition alloc (o : obj) : M loc :=
  fun h => let l := fresh (dom h) in (inr l, <[l := o]> h).

Definition get_instance (self : loc) : M instance :=
  fun h =>
    match h !! self with
    | Some (OInstance i) => (inr i, h)
    | _ => (inl (OtherError "not a calculator"), h)
    end.

Definition get_list (l : loc) : M (list loc) :=
  fun h =>
    match h !! l with
    | Some (OList items) => (inr items, h)
    | _ => (inl (OtherError "not a list"), h)
    end.

(** [l.append(x)] *)
Definition list_append (l : loc) (x : loc) : M unit :=
  fun h =>
    match h !! l with
    | Some (OList items) => (inr tt, <[l := OList (items ++ [x])]> h)
    | _ => (inl (OtherError "not a list"), h)
    end.

(** Any change a caller makes in place to the list object [l] ([append],
    [pop], [clear], [sort], an item assignment, ...): its items become
    [f items]. *)
Definition list_mutate (l : loc) (f : list loc -> list loc) : M unit :=
  fun h =>
    match h !! l with
    | Some (OList items) => (inr tt, <[l := OList (f items)]> h)
    | _ => (inl (OtherError "not a list"), h)
    end.

(** [EmissionCalculator._validate_factor(factor)] *)
Definition _validate_factor (factor : float64) : M unit :=
  if ltb factor (of_lit 0)
  then raise (ValueError "Emission factor must be non-negative")
  else ret tt.

(** [EmissionCalculator.__init__(emission_factor)]: the two attributes it
    sets. *)
Definition EmissionCalculator_init (emission_factor : float64)
  : M (float64 * loc) :=
  let* history := alloc (OList []) in
  let* _ := _validate_factor emission_factor in
  ret (emission_factor, history).

(** [EmissionCalculator.get_history()]: a copy of the list. *)
Definition get_history (self : loc) : M loc :=
  let* i := get_instance self in
  let* items := get_list (_calculation_history i) in
  alloc (OList items).

(** [EmissionCalculator._record_calculation(value, result)]; [now] is what
    [datetime.now()] returns. *)
Definition _record_calculation (self : loc) (value : pyval)
    (result : float64) (now : datetime) : M unit :=
  let* i := get_instance self in
  let* r := alloc (ODict {| input := value; output := result;
                            timestamp := now;
                            calculator_type := class_name i |}) in
  list_append (_calculation_history i) r.

(** [ElectricityEmissionCalculator()] *)
Definition ElectricityEmissionCalculator : M loc :=
  let* base :=
    EmissionCalculator_init (of_decimal false 37 (-2)) in
  alloc (OInstance {| _emission_factor := fst base;
                      _calculation_history := snd base;
                      own := Electricity 99999 0 |}).

(** [TransportEmissionCalculator.VEHICLE_FACTORS] *)
Definition VEHICLE_FACTORS : gmap str float64 :=
  list_to_map
    [ (of_ascii "car", of_decimal false 21 (-2));
      (of_ascii "bus", of_decimal false 89 (-3));
      (of_ascii "train", of_decimal false 41 (-3));
      (of_ascii "bike", of_decimal false 0 (-1));
      (of_ascii "electric_car", of_decimal false 5 (-2)) ].

(** [VEHICLE_FACTORS.get(vehicle_type, 0.21)]: a key that is not a string
    is not in the dictionary, and a list or a dictionary cannot be hashed. *)
Definition vehicle_factor (vehicle_type : pyval) : result float64 :=
  match vehicle_type with
  | PyStr s => inr (default (of_decimal false 21 (-2)) (VEHICLE_FACTORS !! s))
  | PyList => inl (TypeError "unhashable type: 'list'")
  | PyDict => inl (TypeError "unhashable type: 'dict'")
  | _ => inr (of_decimal false 21 (-2))
  end.

(** [TransportEmissionCalculator(vehicle_type)] *)
Definition TransportEmissionCalculator (vehicle_type : pyval) : M loc :=
  match vehicle_factor vehicle_type with
  | inl e => raise e
  | inr factor =>
      let* base := EmissionCalculator_init factor in
      alloc (OInstance {| _emission_factor := fst base;
                          _calculation_history := snd base;
                          own := Transport vehicle_type |})
  end.

(** [WaterEmissionCalculator()] *)
Definition WaterEmissionCalculator : M loc :=
  let* base :=
    EmissionCalculator_init (of_decimal false 15 (-4)) in
  alloc (OInstance {| _emission_factor := fst base;
                      _calculation_history := snd base;
                      own := Water |}).

(** [ElectricityEmissionCalculator.validate_input(value)] *)
Definition Electricity_validate_input (max_kwh min_kwh : Z) (value : pyval)
  : result bool :=
  if negb (is_numeric value) then inl (TypeError "Input must be numeric")
  else if le_int value min_kwh
  then inl (ValueError "Value must be greater than 0")
  else if gt_int value max_kwh
  then inl (ValueError ("Value cannot exceed " +:+ pretty max_kwh))
  else inr true.

(** [TransportEmissionCalculator.validate_input(value)] *)
Definition Transport_validate_input (value : pyval) : result bool :=
  if negb (is_numeric value) then inl (TypeError "Distance must be numeric")
  else if lt_int value 0
  then inl (ValueError "Distance cannot be negative")
  else if gt_int value 10000
  then inl (ValueError "Distance too large")
  else inr true.

(** [WaterEmissionCalculator.validate_input(value)] *)
Definition Water_validate_input (value : pyval) : result bool :=
  if negb (is_numeric value) then inl (TypeError "Input must be numeric")
  else if le_int value 0
  then inl (ValueError "Value must be positive")
  else if gt_int value 100000
  then inl (ValueError "Value too large")
  else inr true.

(** [validate_input(value)] of the class of the instance [i]. *)
Definition validate_input_of (i : instance) (value : pyval) : result bool :=
  match own i with
  | Electricity max_kwh min_kwh =>
      Electricity_validate_input max_kwh min_kwh value
  | Transport _ => Transport_validate_input value
  | Water => Water_validate_input value
  end.

(** [self.validate_input(value)], dispatched on the class of [self]. *)
Definition validate_input (self : loc) (value : pyval) : M bool :=
  let* i := get_instance self in
  lift (validate_input_of i value).

(** [self.calculate(value)]: the three classes override the abstract method
    with the same body. *)
Definition calculate (self : loc) (value : pyval) (now : datetime)
  : M float64 :=
  let* _ := validate_input self value in
  let* i := get_instance self in
  let* result := lift (times value (_emission_factor i)) in
  let* _ := _record_calculation self value result now in
  ret result.

(** [ElectricityEmissionCalculator.get_annual_estimate(monthly_kwh)]; the
    other classes do not have the method, and the call raises an
    [AttributeError] on their instances. *)
Definition get_annual_estimate (self : loc) (monthly_kwh : pyval)
    (now : datetime) : M float64 :=
  let* i := get_instance self in
  match own i with
  | Electricity _ _ =>
      let* monthly := calculate self monthly_kwh now in
      ret (mul monthly (of_lit 12))
  | _ => raise (OtherError "AttributeError: get_annual_estimate")
  end.

(** [QualityMetrics.log_response_time(duration)], on the list
    [metrics['response_times']]: the decorator [monitor_performance] calls
    it once per request. *)
Definition log_response_time (duration : float64)
    (response_times : list float64) : list float64 :=
  let times := response_times ++ [duration] in
  if 1000 <? Z.of_nat (length times) then tail times else times.

(** *** The input validator *)

Section WithUnicode.

Context (ucd : UnicodeData).

(** The first pattern of the source, compiled with [re.IGNORECASE]: a
    character class of [<], [>], the double quote (34) and the single
    quote (39), or one of the words [script], [alert], [onerror]. *)
Definition xss_pattern : regex :=
  Alt (Sym (fun c => (c =? 60) || (c =? 62) || (c =? 34) || (c =? 39))%N)
      (Alt (StrI ucd (of_ascii "script"))
           (Alt (StrI ucd (of_ascii "alert"))
                (StrI ucd (of_ascii "onerror")))).

(** The second pattern of the source, compiled with [re.IGNORECASE]:
    one of two dashes, a semicolon, the two comment brackets of SQL
    (slash star, star slash), [xp_], [sp_], [DROP], [INSERT], [DELETE],
    [UPDATE]. *)
Definition sql_pattern : regex :=
  Alt (StrI ucd (of_ascii "--"))
 (Alt (StrI ucd (of_ascii ";"))
 (Alt (StrI ucd (of_ascii "/*"))
 (Alt (StrI ucd (of_ascii "*/"))
 (Alt (StrI ucd (of_ascii "xp_"))
 (Alt (StrI ucd (of_ascii "sp_"))
 (Alt (StrI ucd (of_ascii "DROP"))
 (Alt (StrI ucd (of_ascii "INSERT"))
 (Alt (StrI ucd (of_ascii "DELETE"))
      (StrI ucd (of_ascii "UPDATE")))))))))).

(** The pattern [r"-?\d+(?:\.\d+)?"]. *)
Definition number_pattern : regex :=
  Cat (Opt (Lit 45%N))
      (Cat (Plus (Digit ucd))
           (Opt (Cat (Lit 46%N) (Plus (Digit ucd))))).

(** [validate_kwh_input(kwh_input_str)]; the calls to the logger are
    left out. *)
Definition validate_kwh_input (kwh_input_str : str) : validation :=
  if is_empty kwh_input_str || is_empty (strip kwh_input_str)
  then (false, Some "Please enter a value."%string, None)
  else
    let trimmed := strip kwh_input_str in
    if search xss_pattern trimmed
    then (false, Some "Invalid input detected."%string, None)
    else if search sql_pattern trimmed
    then (false, Some "Invalid input detected."%string, None)
    else if negb (fullmatch number_pattern trimmed)
    then (false, Some "Please enter a valid number."%string, None)
    else
      match py_float ucd trimmed with
      | Some kwh =>
          if leb kwh (of_lit 0)
          then (false, Some "Value must be greater than 0."%string, None)
          else if ltb (of_lit 99999) kwh
          then (false, Some "Value cannot exceed 99,999."%string, None)
          else (true, None, Some kwh)
      | None =>
          (* except (ValueError, TypeError) *)
          (false, Some "Please enter a valid number."%string, None)
      end.

End WithUnicode.

(** *** The history store and the requests *)

(** A row of the table [calculations], as [save_calculation] inserts it;
    the database assigns the key and the time. *)
Record row : Type := {
  row_user_id : Z;
  row_category : string;
  row_kwh_input : float64;
  row_co2_result : float64
}.

(** [save_calculation(user_id, category, input_value, co2_result)].
    [db_ok] says whether the statements of the [try] block go through;
    when one raises, the function logs the error and returns [False]. The
    update of the quality metrics that follows the insertion is left
    out. *)
Definition save_calculation (db_ok : bool) (user_id : Z) (category : string)
    (input_value co2_result : float64) (store : list row)
  : bool * list row :=
  if db_ok
  then (true, store ++ [ {| row_user_id := user_id;
                            row_category := category;
                            row_kwh_input := input_value;
                            row_co2_result := co2_result |} ])
  else (false, store).

Inductive http_method : Type := GET | POST.

(** What a view returns: a redirection, or the calculator page with the
    three values the template shows. *)
Inductive page : Type :=
| Redirect (endpoint : string)
| Calculator_html (error : option string) (result : option float64)
    (kwh_input : str).

(** A message passed to [flash], with its category. *)
Definition flash : Type := (string * string)%type.

(** The decorator [monitor_performance]: after the view has returned, the
    response time is written to the table [quality_metrics]; an exception
    of the view or of that write is raised again. *)
Definition monitor_performance {A : Type} (metrics_ok : bool)
    (r : result A) : result A :=
  match r with
  | inr a => if metrics_ok then inr a else inl (OtherError "sqlite3.Error")
  | inl e => inl e
  end.

Section Routes.

Context (ucd : UnicodeData).

(** The body of the view [calculator], for a logged-in user. The
    calculator object lives in a store of its own for the time of the
    request. *)
Definition calculator_view (user_id : Z) (method : http_method)
    (form_kwh : option str) (db_ok : bool) (now : datetime)
    (store : list row) : result (page * list flash * list row) :=
  match method with
  | GET => inr (Calculator_html None None [], [], store)
  | POST =>
      let kwh_input := strip (default [] form_kwh) in
      let '(is_valid, error_message, kwh_value) :=
        validate_kwh_input ucd kwh_input in
      if negb is_valid
      then inr (Calculator_html error_message None kwh_input, [], store)
      else
        match kwh_value with
        | None =>
            (* validate_input(None) raises a TypeError *)
            inr (Calculator_html (Some "Input must be numeric") None
                   kwh_input, [], store)
        | Some kwh_value =>
            let attempt :=
              let* calc := ElectricityEmissionCalculator in
              let* _ := validate_input calc (PyFloat kwh_value) in
              calculate calc (PyFloat kwh_value) now in
            match fst (attempt ∅) with
            | inr result =>
                let '(saved, store') :=
                  save_calculation db_ok user_id "electricity"
                    kwh_value result store in
                inr (Calculator_html None (Some result) kwh_input,
                     if saved
                     then [("Calculation saved successfully!", "success")]
                     else [],
                     store')
            | inl (ValueError m) | inl (TypeError m) =>
                inr (Calculator_html (Some m) None kwh_input, [], store)
            | inl e => inl e
            end
        end
  end%string.

(** The route [/calculator]: [require_login], then [monitor_performance],
    then the view. *)
Definition calculator (session_user_id : option Z) (method : http_method)
    (form_kwh : option str) (db_ok metrics_ok : bool) (now : datetime)
    (store : list row) : result (page * list flash * list row) :=
  match session_user_id with
  | None =>
      inr (Redirect "login",
           [("Please login to access this page.", "error")], store)
  | Some user_id =>
      monitor_performance metrics_ok
        (calculator_view user_id method form_kwh db_ok now store)
  end%string.

End Routes.

(** The JSON bodies [api_calculate] answers with. *)
Inductive body : Type :=
| ErrorBody (error : string)
    (* {'error': ...} *)
| FailureBody (error : string)
    (* {'success': False, 'error': ...} *)
| SuccessBody (category input_value : pyval) (co2_emission : float64)
    (unit : string) (response_time : float64).
    (* {'success': True, 'category': ..., ...} *)

(** The calculator [api_calculate] selects for a category; [None] when the
    category is none of the three. *)
Definition select_calculator (data : gmap string pyval) (category : pyval)
  : option (M loc) :=
  if eq_str category "electricity" then Some ElectricityEmissionCalculator
  else if eq_str category "transport"
  then Some (TransportEmissionCalculator
               (default (PyStr (of_ascii "car")) (data !! "vehicle_type"%string)))
  else if eq_str category "water" then Some WaterEmissionCalculator
  else None.

(** The body of the view [api_calculate], for a request whose JSON body is
    the object [data]; [api_log_ok] says whether the insertion into
    [api_logs] goes through, [elapsed] is the difference of the two
    readings of [time.time()]. The result is the body and the status code;
    the view catches every exception of its own. *)
Definition api_calculate_view (data : gmap string pyval) (api_log_ok : bool)
    (now : datetime) (elapsed : float64) : body * Z :=
  let category :=
    default (PyStr (of_ascii "electricity")) (data !! "category"%string) in
  let value := default PyNone (data !! "value"%string) in
  if is_none value then (ErrorBody "Value is required", 400)
  else
    match select_calculator data category with
    | None => (ErrorBody "Invalid category", 400)
    | Some new_calculator =>
        let attempt :=
          let* calc := new_calculator in
          let* _ := validate_input calc value in
          calculate calc value now in
        match fst (attempt ∅) with
        | inr result =>
            if api_log_ok
            then (SuccessBody category value (round result 2) "kg CO2e"
                    (round elapsed 4), 200)
            else (FailureBody "Internal server error", 500)
        | inl (ValueError m) | inl (TypeError m) => (FailureBody m, 400)
        | inl _ => (FailureBody "Internal server error", 500)
        end
    end.

(** The route [/api/calculate]: [monitor_performance], then the view. When
    the write of the decorator fails, the route raises although the view
    has returned its answer. *)
Definition api_calculate (data : gmap string pyval)
    (api_log_ok metrics_ok : bool) (now : datetime) (elapsed : float64)
  : result (body * Z) :=
  monitor_performance metrics_ok
    (inr (api_calculate_view data api_log_ok now elapsed)).

End App1.

(** ** The accounts: [register] and [login]

    The table [users] is the list of its rows in the order of insertion.
    [generate_password_hash] and [check_password_hash] are the two
    functions of [werkzeug.security]; the first draws a salt, which is an
    argument here. *)

Record user : Type := {
  user_id : Z;
  username : str;
  email : str;
  password_hash : str
}.

(** A message passed to [flash]: a literal of the source, or the f-string
    that greets the user. *)
Inductive message : Type :=
| Text (s : string)
| Welcome_back (name : str).

(** The entries [user_id] and [username] of the session, when there. *)
Definition session : Type := option (Z * str).

(** [SELECT id FROM users WHERE username = ? OR email = ?], then
    [fetchone()]. *)
Definition select_by_username_or_email (name mail : str)
    (users : list user) : option user :=
  List.find (fun u => str_eqb (username u) name || str_eqb (email u) mail)
    users.

(** [SELECT id, username, password_hash FROM users WHERE username = ?],
    then [fetchone()]. *)
Definition select_by_username (name : str) (users : list user)
  : option user :=
  List.find (fun u => str_eqb (username u) name) users.

Module AppUsers.

Inductive page : Type :=
| Redirect (endpoint : string)
| Register_html
| Login_html.

Definition flash : Type := (message * string)%type.

Section Werkzeug.

Context (generate_password_hash : str -> str -> str)
        (check_password_hash : str -> str -> bool).

(** The route [/register] of [app.py]: the page, the messages flashed and
    the table [users] afterwards. [db_ok] says whether the statements of
    the [try] block go through, [new_id] is the id SQLite gives the new
    row, [salt] the salt drawn for the hash. *)
Definition register (method : App.http_method)
    (form_username form_email form_password form_confirm_password
       : option str)
    (db_ok : bool) (new_id : Z) (salt : str) (users : list user)
  : page * list flash * list user :=
  match method with
  | App.GET => (Register_html, [], users)
  | App.POST =>
      let name := strip (default [] form_username) in
      let mail := strip (default [] form_email) in
      let password := strip (default [] form_password) in
      let confirm_password := strip (default [] form_confirm_password) in
      if is_empty name || is_empty mail || is_empty password
      then (Register_html, [(Text "All fields are required.", "error")],
            users)
      else if negb (str_eqb password confirm_password)
      then (Register_html, [(Text "Passwords do not match.", "error")],
            users)
      else if (length password <? 6)%nat
      then (Register_html,
            [(Text "Password must be at least 6 characters long.", "error")],
            users)
      else if negb db_ok
      then (Register_html,
            [(Text "Registration failed. Please try again.", "error")],
            users)
      else
        match select_by_username_or_email name mail users with
        | Some _ =>
            (Redirect "login",
             [(Text "Username or email already exists. Please log in.",
               "error")],
             users)
        | None =>
            (Redirect "login",
             [(Text "Registration successful! Please log in.", "success")],
             (users ++ [ {| user_id := new_id; username := name;
                            email := mail;
                            password_hash :=
                              generate_password_hash salt password |} ])%list)
        end
  end%string.

(** The route [/login] of [app.py]: the page, the messages flashed and the
    session afterwards. *)
Definition login (method : App.http_method)
    (form_username form_password : option str) (db_ok : bool)
    (users : list user) (s : session) : page * list flash * session :=
  match method with
  | App.GET => (Login_html, [], s)
  | App.POST =>
      let name := strip (default [] form_username) in
      let password := strip (default [] form_password) in
      if is_empty name || is_empty password
      then (Login_html,
            [(Text "Please enter both username and password.", "error")], s)
      else if negb db_ok
      then (Login_html,
            [(Text "Login failed. Please try again.", "error")], s)
      else
        match select_by_username name users with
        | Some u =>
            if check_password_hash (password_hash u) password
            then (Redirect "calculator",
                  [(Welcome_back (username u), "success")],
                  Some (user_id u, username u))
            else (Login_html,
                  [(Text "Invalid username or password.", "error")], s)
        | None =>
            (Login_html,
             [(Text "Invalid username or password.", "error")], s)
        end
  end%string.

End Werkzeug.

End AppUsers.

Module App1Users.

Inductive page : Type :=
| Redirect (endpoint : string)
| Register_html
| Login_html.

Definition flash : Type := (message * string)%type.

Section Werkzeug.

Context (ucd : UnicodeData)
        (generate_password_hash : str -> str -> str)
        (check_password_hash : str -> str -> bool).

(** The pattern of the check of [register], compiled with
    [re.IGNORECASE]: one of [<], [>], the double quote (34) and the single
    quote (39), or the word [script]. *)
Definition register_pattern : regex :=
  Alt (Sym (fun c => (c =? 60) || (c =? 62) || (c =? 34) || (c =? 39))%N)
      (StrI ucd (of_ascii "script")).

(** The body of the view [register] of [app1.py]. *)
Definition register_view (method : App1.http_method)
    (form_username form_email form_password form_confirm_password
       : option str)
    (db_ok : bool) (new_id : Z) (salt : str) (users : list user)
  : page * list flash * list user :=
  match method with
  | App1.GET => (Register_html, [], users)
  | App1.POST =>
      let name := strip (default [] form_username) in
      let mail := strip (default [] form_email) in
      let password := strip (default [] form_password) in
      let confirm_password := strip (default [] form_confirm_password) in
      if is_empty name || is_empty mail || is_empty password
      then (Register_html, [(Text "All fields are required.", "error")],
            users)
      else if search register_pattern (name ++ mail)%list
      then (Register_html,
            [(Text "Invalid characters in input.", "error")], users)
      else if negb (str_eqb password confirm_password)
      then (Register_html, [(Text "Passwords do not match.", "error")],
            users)
      else if (length password <? 6)%nat
      then (Register_html,
            [(Text "Password must be at least 6 characters.", "error")],
            users)
      else if negb db_ok
      then (Register_html,
            [(Text "Registration failed. Please try again.", "error")],
            users)
      else
        match select_by_username_or_email name mail users with
        | Some _ =>
            (Register_html,
             [(Text "Username or email already exists.", "error")], users)
        | None =>
            (Redirect "login",
             [(Text "Registration successful! Please log in.", "success")],
             (users ++ [ {| user_id := new_id; username := name;
                            email := mail;
                            password_hash :=
                              generate_password_hash salt password |} ])%list)
        end
  end%string.

(** The route [/register]: [monitor_performance], then the view. What the
    view wrote to the table stays written when the decorator raises. *)
Definition register (method : App1.http_method)
    (form_username form_email form_password form_confirm_password
       : option str)
    (db_ok metrics_ok : bool) (new_id : Z) (salt : str)
    (users : list user) : result (page * list flash) * list user :=
  let '(pg, fl, users') :=
    register_view method form_username form_email form_password
      form_confirm_password db_ok new_id salt users in
  (App1.monitor_performance metrics_ok (inr (pg, fl)), users').

(** The body of the view [login] of [app1.py]. *)
Definition login_view (method : App1.http_method)
    (form_username form_password : option str) (db_ok : bool)
    (users : list user) (s : session) : page * list flash * session :=
  match method with
  | App1.GET => (Login_html, [], s)
  | App1.POST =>
      let name := strip (default [] form_username) in
      let password := strip (default [] form_password) in
      if is_empty name || is_empty password
      then (Login_html,
            [(Text "Please enter username and password.", "error")], s)
      else if negb db_ok
      then (Login_html,
            [(Text "Login failed. Please try again.", "error")], s)
      else
        match select_by_username name users with
        | Some u =>
            if check_password_hash (password_hash u) password
            then (Redirect "calculator",
                  [(Welcome_back (username u), "success")],
                  Some (user_id u, username u))
            else (Login_html,
                  [(Text "Invalid username or password.", "error")], s)
        | None =>
            (Login_html,
             [(Text "Invalid username or password.", "error")], s)
        end
  end%string.

(** The route [/login]: [monitor_performance], then the view. When the
    write of the decorator fails, the route raises although the view has
    returned its answer. *)
Definition login (method : App1.http_method)
    (form_username form_password : option str) (db_ok metrics_ok : bool)
    (users : list user) (s : session)
  : result (page * list flash * session) :=
  App1.monitor_performance metrics_ok
    (inr (login_view method form_username form_password db_ok users s)).

End Werkzeug.

End App1Users.

(** ** Trimmed strings *)

(** The first character, if any, is not whitespace. *)
Definition hd_ok (s : str) : Prop :=
  match s with [] => True | c :: _ => isspace c = false end.

(** ** Plain decimal numbers

    The specification's words for the pattern of step 2: an optional
    leading minus sign, one or more digits, and optionally a point followed
    by one or more digits. [plain_decimal t neg ip fp] says that [t] is
    written that way, with the digits [ip] before the point and the digits
    [fp] after it ([fp] is empty when there is no point). *)

Section PlainDecimal.

Context (ucd : UnicodeData).

Definition digits_of (s : str) (ds : list N) : Prop :=
  Forall2 (fun c d => decimal ucd c = Some d) s ds.

Definition plain_decimal (t : str) (neg : bool) (ip fp : list N) : Prop :=
  exists si sf : str,
    digits_of si ip /\ digits_of sf fp /\ ip <> [] /\
    t = (if neg then [45%N] else []) ++ si ++
        (match fp with [] => [] | _ :: _ => 46%N :: sf end).

Definition is_plain_decimal (t : str) : Prop :=
  exists neg ip fp, plain_decimal t neg ip fp.

(** The number a plain decimal writes, rounded to binary64. *)
Definition decimal_value (neg : bool) (ip fp : list N) : float64 :=
  of_decimal neg (number (ip ++ fp)) (- Z.of_nat (length fp)).

(** What may follow a run of digits in a plain decimal: nothing, or a
    character that is neither a digit nor an underscore. *)
Definition stops (rest : str) : Prop :=
  match rest with
  | [] => True
  | c :: _ => decimal ucd c = None /\ c <> 95%N
  end.

End PlainDecimal.

(** ** What the specification says of the validator *)

Definition reject (msg : string) : validation := (false, Some msg, None).
Definition accept (v : float64) : validation := (true, None, Some v).

(** The four contractual messages. *)
Definition contractual_messages : list string :=
  [ "Please enter a value."; "Please enter a valid number.";
    "Value must be greater than 0."; "Value cannot exceed 99,999." ]%string.

(** A rejection carries a message of [allowed]. *)
Definition rejects_within (allowed : list string) (r : validation) : Prop :=
  match r with
  | (false, Some m, _) => In m allowed
  | (false, None, _) => False
  | (true, _, _) => True
  end.

(** Accepted or rejected, never both, and an accepted value lies in
    (0, 99999]. *)
Definition well_formed_outcome (r : validation) : Prop :=
  let '(flag, msg, val) := r in
  (flag = true <-> msg = None) /\
  (msg = None <-> exists v, val = Some v) /\
  (forall v, val = Some v ->
     ltb zero v = true /\ leb v (of_lit 99999) = true).

Section ValidatorContract.

Context (ucd : UnicodeData).

(** Steps 4 to 6 of the specification on the parsed value [v]. *)
Definition range_outcome (v : float64) : validation :=
  if leb v zero then reject "Value must be greater than 0."
  else if ltb (of_lit 99999) v then reject "Value cannot exceed 99,999."
  else accept v.

(** The processing order of the specification, for a validator
    [validate], with [t] the trimmed input. *)
Definition validator_contract (validate : str -> validation) : Prop :=
  forall raw : str,
    let t := strip raw in
    (t = [] -> validate raw = reject "Please enter a value.") /\
    (t <> [] -> ~ is_plain_decimal ucd t ->
     validate raw = reject "Please enter a valid number.") /\
    (forall c, In c t -> isdecimal ucd c = false ->
               c <> 45%N -> c <> 46%N ->
     validate raw = reject "Please enter a valid number.") /\
    (forall neg ip fp, plain_decimal ucd t neg ip fp ->
       py_float ucd t = Some (decimal_value neg ip fp) /\
       validate raw = range_outcome (decimal_value neg ip fp)).

(** The trimmed input shows one of the two patterns [app1.py] looks for
    before the number pattern. *)
Definition suspicious (t : str) : bool :=
  search (App1.xss_pattern ucd) t || search (App1.sql_pattern ucd) t.

(** The processing order of [app1.py]: the one of the specification with
    one more step between steps 1 and 2. *)
Definition guarded_validator_contract
    (validate : str -> validation) : Prop :=
  forall raw : str,
    let t := strip raw in
    (t = [] -> validate raw = reject "Please enter a value.") /\
    (t <> [] -> suspicious t = true ->
     validate raw = reject "Invalid input detected.") /\
    (t <> [] -> suspicious t = false -> ~ is_plain_decimal ucd t ->
     validate raw = reject "Please enter a valid number.") /\
    (forall c, suspicious t = false -> In c t -> isdecimal ucd c = false ->
               c <> 45%N -> c <> 46%N ->
     validate raw = reject "Please enter a valid number.") /\
    (forall neg ip fp, suspicious t = false ->
       plain_decimal ucd t neg ip fp ->
       py_float ucd t = Some (decimal_value neg ip fp) /\
       validate raw = range_outcome (decimal_value neg ip fp)).

End ValidatorContract.

(** ** What the specification says of the calculators *)

(** The closed enumeration of categories. *)
Inductive vehicle : Type := Car | Bus | Train | Bike | Electric_car.

Inductive category : Type :=
| Cat_electricity
| Cat_transport (v : vehicle)
| Cat_water.

Definition vehicle_name (v : vehicle) : string :=
  match v with
  | Car => "car"
  | Bus => "bus"
  | Train => "train"
  | Bike => "bike"
  | Electric_car => "electric_car"
  end.

Definition vehicles : list vehicle := [Car; Bus; Train; Bike; Electric_car].

(** The table of factors of the specification (kg CO2e per unit). *)
Definition spec_factor (c : category) : float64 :=
  match c with
  | Cat_electricity => of_decimal false 37 (-2)            (* 0.37 *)
  | Cat_transport Car => of_decimal false 21 (-2)          (* 0.21 *)
  | Cat_transport Bus => of_decimal false 89 (-3)          (* 0.089 *)
  | Cat_transport Train => of_decimal false 41 (-3)        (* 0.041 *)
  | Cat_transport Bike => of_decimal false 0 (-1)          (* 0.0 *)
  | Cat_transport Electric_car => of_decimal false 5 (-2)  (* 0.05 *)
  | Cat_water => of_decimal false 15 (-4)                  (* 0.0015 *)
  end.

(** The calculator the code builds for a category. *)
Definition new_calculator (c : category) : App1.M loc :=
  match c with
  | Cat_electricity => App1.ElectricityEmissionCalculator
  | Cat_transport v =>
      App1.TransportEmissionCalculator (PyStr (of_ascii (vehicle_name v)))
  | Cat_water => App1.WaterEmissionCalculator
  end.

(** The category argument of a request names one of the three calculators. *)
Definition known_category (c : pyval) : bool :=
  eq_str c "electricity" || eq_str c "transport" || eq_str c "water".

(** The vehicle-type selector names one of the five vehicles. *)
Definition known_vehicle (vt : pyval) : bool :=
  existsb (fun v => eq_str vt (vehicle_name v)) vehicles.

(** A value that can be a key of a dictionary. *)
Definition hashable (v : pyval) : bool :=
  match v with PyList | PyDict => false | _ => true end.

(** [lo <= v <= hi], or [lo < v <= hi] when [lo] is excluded, for a numeric
    value: exact on integers, the binary64 comparisons on floats. *)
Definition within (lo_included : bool) (lo hi : Z) (v : pyval) : bool :=
  match v with
  | PyBool b =>
      (if lo_included then lo <=? Z.b2z b else lo <? Z.b2z b)
      && (Z.b2z b <=? hi)
  | PyInt z => (if lo_included then lo <=? z else lo <? z) && (z <=? hi)
  | PyFloat f =>
      (if lo_included then leb (of_lit lo) f else ltb (of_lit lo) f)
      && leb f (of_lit hi)
  | _ => false
  end.

(** A float that is a NaN. *)
Definition is_nan_value (v : pyval) : bool :=
  match v with PyFloat f => is_nan f | _ => false end.

(** The record [calculate] appends for an instance [i]. *)
Definition record_of (i : App1.instance) (value : pyval) (result : float64)
    (now : datetime) : App1.calc_record :=
  {| App1.input := value; App1.output := result; App1.timestamp := now;
     App1.calculator_type := App1.class_name i |}.

(** The instance at [self] and its history list are in the store. *)
Definition has_calculator (h : gmap loc App1.obj) (self : loc)
    (i : App1.instance) (items : list loc) : Prop :=
  h !! self = Some (App1.OInstance i) /\
  h !! App1._calculation_history i = Some (App1.OList items).

(** [calculate(category, value)] of the specification, on the code: build
    the calculator of the category and call its [calculate]. *)
Definition calculate_category (c : category) (value : pyval)
    (now : datetime) : App1.M float64 :=
  App1.bind (new_calculator c) (fun calc => App1.calculate calc value now).

(** [validate_input] of the calculator of a category. *)
Definition validate_for (c : category) (value : pyval) : result bool :=
  match c with
  | Cat_electricity => App1.Electricity_validate_input 99999 0 value
  | Cat_transport _ => App1.Transport_validate_input value
  | Cat_water => App1.Water_validate_input value
  end.

(** What [api_calculate] and the view [calculator] do with a calculator
    they have just built: validate, then calculate. *)
Definition attempt (new_calc : App1.M loc) (value : pyval) (now : datetime)
  : App1.M float64 :=
  App1.bind new_calc (fun calc =>
  App1.bind (App1.validate_input calc value) (fun _ =>
  App1.calculate calc value now)).

(** ** Definitions for the further properties *)

(** What a literal [c] of a pattern compiled with [re.IGNORECASE] asks of
    the character [x] it matches. *)
Definition head_matches (ucd : UnicodeData) (c x : char) : Prop :=
  if is_ascii_letter c then caseless ucd c x = true else x = c.

(** A character a plain decimal can hold. *)
Definition plain_char (ucd : UnicodeData) (x : char) : Prop :=
  isdecimal ucd x = true \/ x = 45%N \/ x = 46%N.

(** A pattern character that no plain decimal made of ASCII characters
    holds: a letter, a semicolon, a slash, a star. *)
Definition foreign_char (c : char) : bool :=
  is_ascii_letter c || (c =? 59)%N || (c =? 47)%N || (c =? 42)%N.

(** A caller that calls [calculate] once per item of [calls], in order, and
    goes on when a call raises: the outcomes and the store afterwards. *)
Fixpoint calculate_each (self : loc) (calls : list (pyval * datetime))
    (h : gmap loc App1.obj) : list (result float64) * gmap loc App1.obj :=
  match calls with
  | [] => ([], h)
  | (value, now) :: rest =>
      let (r, h1) := App1.calculate self value now h in
      let (rs, h2) := calculate_each self rest h1 in
      (r :: rs, h2)
  end.

(** The calls that returned, with what they returned. *)
Fixpoint successes (calls : list (pyval * datetime))
    (rs : list (result float64)) : list (pyval * datetime * float64) :=
  match calls, rs with
  | (value, now) :: calls', inr res :: rs' =>
      (value, now, res) :: successes calls' rs'
  | _ :: calls', inl _ :: rs' => successes calls' rs'
  | _, _ => []
  end.

(** What [app.py] writes to the table [calculations]: a consumption in
    (0, 99999] and its product with the factor. *)
Definition app_row_ok (r : App.row) : Prop :=
  ltb zero (App.row_kwh_input r) = true /\
  leb (App.row_kwh_input r) (of_lit 99999) = true /\
  App.row_co2_result r = mul (App.row_kwh_input r) App.EMISSION_FACTOR_KWH.

(** The same for [app1.py], whose rows name the category. *)
Definition app1_row_ok (r : App1.row) : Prop :=
  ltb zero (App1.row_kwh_input r) = true /\
  leb (App1.row_kwh_input r) (of_lit 99999) = true /\
  App1.row_category r = "electricity"%string /\
  App1.row_co2_result r
  = mul (App1.row_kwh_input r) (spec_factor Cat_electricity).

(** The JSON object of a request to [api_calculate] for a category of the
    enumeration. *)
Definition request_for (c : category) (value : pyval) : gmap string pyval :=
  match c with
  | Cat_electricity =>
      <["category"%string := PyStr (of_ascii "electricity")]>
        (<["value"%string := value]> ∅)
  | Cat_transport v =>
      <["category"%string := PyStr (of_ascii "transport")]>
        (<["vehicle_type"%string := PyStr (of_ascii (vehicle_name v))]>
           (<["value"%string := value]> ∅))
  | Cat_water =>
      <["category"%string := PyStr (of_ascii "water")]>
        (<["value"%string := value]> ∅)
  end.

(** The value of the key [category] in such an object. *)
Definition category_name (c : category) : pyval :=
  match c with
  | Cat_electricity => PyStr (of_ascii "electricity")
  | Cat_transport _ => PyStr (of_ascii "transport")
  | Cat_water => PyStr (of_ascii "water")
  end.

(** The last [n] items of a list. *)
Definition last_n {A : Type} (n : nat) (l : list A) : list A :=
  skipn (length l - n) l.

(** No two rows of the table [users] share a username, no two an email. *)
Definition unique_accounts (users : list user) : Prop :=
  NoDup (List.map username users) /\ NoDup (List.map email users).

(** The row [u] can be added to the table: its username and its email are
    not empty, and no row has either. *)
Definition new_account (users : list user) (u : user) : Prop :=
  username u <> [] /\ email u <> [] /\
  forall v, In v users -> username v <> username u /\ email v <> email u.

(** One of the four characters the check of [register] in [app1.py] looks
    for: [<], [>] and the two quotes. *)
Definition markup_char (c : char) : bool :=
  ((c =? 60) || (c =? 62) || (c =? 34) || (c =? 39))%N.

(** [w] is the word [script] in some mix of upper and lower case. *)
Definition spells_script (w : str) : Prop :=
  List.map ascii_lower w = of_ascii "script".

(** [w] occurs in [s]. *)
Definition occurs_in (w s : str) : Prop :=
  exists pre post, s = pre ++ w ++ post.

(** ** Rounding never produces a NaN *)

Section RoundingFacts.

Lemma shr_1_nonneg (mrs : shr_record) :
  0 <= shr_m mrs -> 0 <= shr_m (shr_1 mrs).
Proof.
  destruct mrs as [m r s]; simpl.
  destruct m as [|p|p]; simpl; [lia| |lia].
  destruct p; simpl; lia.
Qed.

Lemma iter_pos_shr_1_nonneg (p : positive) (mrs : shr_record) :
  0 <= shr_m mrs -> 0 <= shr_m (SpecFloat.iter_pos shr_1 p mrs).
Proof.
  revert mrs; induction p as [p IH|p IH|]; intros mrs H; simpl.
  - apply IH, IH, shr_1_nonneg, H.
  - apply IH, IH, H.
  - apply shr_1_nonneg, H.
Qed.

Lemma shr_record_of_loc_m (m : Z) (l : location) :
  shr_m (shr_record_of_loc m l) = m.
Proof. destruct l as [|[ | | ]]; reflexivity. Qed.

Lemma shr_fexp_nonneg (m e : Z) (l : location) :
  0 <= m -> 0 <= shr_m (fst (shr_fexp prec emax m e l)).
Proof.
  intros H. unfold shr_fexp, shr.
  destruct (fexp prec emax (Zdigits2 m + e) - e) as [|p|p]; simpl;
    rewrite ?shr_record_of_loc_m; try assumption.
  apply iter_pos_shr_1_nonneg. now rewrite shr_record_of_loc_m.
Qed.

Lemma round_nearest_even_nonneg (m : Z) (l : location) :
  0 <= m -> 0 <= round_nearest_even m l.
Proof.
  intros H. destruct l as [|[ | | ]]; simpl; try lia.
  destruct (Z.even m); lia.
Qed.

Lemma binary_round_aux_not_nan (s : bool) (m e : Z) (l : location) :
  0 <= m -> binary_round_aux prec emax s m e l <> S754_nan.
Proof.
  intros H. unfold binary_round_aux.
  pose proof (shr_fexp_nonneg m e l H) as H1.
  destruct (shr_fexp prec emax m e l) as [mrs' e'] eqn:E1. simpl in H1.
  pose proof (shr_fexp_nonneg _ e' loc_Exact
    (round_nearest_even_nonneg _ (loc_of_shr_record mrs') H1)) as H2.
  destruct (shr_fexp prec emax _ e' loc_Exact) as [mrs'' e''] eqn:E2.
  simpl in H2.
  destruct (shr_m mrs'') as [|p|p]; [discriminate| |lia].
  destruct (e'' <=? emax - prec); discriminate.
Qed.

Lemma SFdiv_finite_not_nan (s1 s2 : bool) (m1 m2 : positive) (e1 e2 : Z) :
  SFdiv prec emax (S754_finite s1 m1 e1) (S754_finite s2 m2 e2) <> S754_nan.
Proof.
  unfold SFdiv.
  destruct (SFdiv_core_binary prec emax (Z.pos m1) e1 (Z.pos m2) e2)
    as [[mz ez] lz] eqn:E.
  apply binary_round_aux_not_nan.
  unfold SFdiv_core_binary in E.
  set (s := (e1 - e2 - _)) in E.
  set (m' := match s with Z0 => _ | Zpos _ => _ | Zneg _ => _ end) in E.
  assert (Hm' : 0 <= m').
  { subst m'. destruct s; try lia. apply Z.shiftl_nonneg. lia. }
  pose proof (Z_div_mod m' (Z.pos m2) ltac:(lia)) as Hdiv.
  destruct (Z.div_eucl m' (Z.pos m2)) as [q r].
  injection E as <- _ _. nia.
Qed.

Lemma of_decimal_not_nan (neg : bool) (mant : N) (exp10 : Z) :
  is_nan (of_decimal neg mant exp10) = false.
Proof.
  unfold of_decimal.
  destruct (mant * 10 ^ Z.to_N exp10)%N as [|num]; [reflexivity|].
  destruct (10 ^ Z.to_N (- exp10))%N as [|den]; [reflexivity|].
  pose proof (SFdiv_finite_not_nan neg false num den 0 0) as H.
  destruct (SFdiv _ _ _ _); try reflexivity. now elim H.
Qed.

Lemma SFcompare_antisym (x y : float64) :
  SFcompare y x = option_map CompOpp (SFcompare x y).
Proof.
  destruct x as [sx|sx| |sx mx ex], y as [sy|sy| |sy my ey]; simpl;
    repeat match goal with b : bool |- _ => destruct b end;
    try reflexivity;
    rewrite (Z.compare_antisym ex ey);
    destruct (ex ?= ey); simpl; try reflexivity;
    rewrite (Pos.compare_cont_antisym mx my Eq); simpl;
    now rewrite ?CompOpp_involutive.
Qed.

Lemma SFcompare_not_nan (x y : float64) :
  is_nan x = false -> is_nan y = false ->
  exists c, SFcompare x y = Some c.
Proof.
  destruct x, y; simpl; try discriminate; intros _ _; eauto.
Qed.

(** For operands that are not NaN the two comparisons are complementary. *)
Lemma leb_false_ltb (x y : float64) :
  is_nan x = false -> is_nan y = false ->
  leb x y = false -> ltb y x = true.
Proof.
  intros Hx Hy. unfold leb, ltb, SFleb, SFltb.
  rewrite (SFcompare_antisym x y).
  destruct (SFcompare_not_nan x y Hx Hy) as [c ->].
  now destruct c.
Qed.

Lemma ltb_false_leb (x y : float64) :
  is_nan x = false -> is_nan y = false ->
  ltb x y = false -> leb y x = true.
Proof.
  intros Hx Hy. unfold leb, ltb, SFleb, SFltb.
  rewrite (SFcompare_antisym x y).
  destruct (SFcompare_not_nan x y Hx Hy) as [c ->].
  now destruct c.
Qed.

End RoundingFacts.

(** ** The matcher is correct *)

Create HintDb re.
#[local] Hint Constructors matches : re.

Section RegexFacts.

Lemma nullable_matches (r : regex) : nullable r = true <-> matches r [].
Proof.
  induction r as [| |p|r1 IH1 r2 IH2|r1 IH1 r2 IH2|r IH]; simpl.
  - split; [discriminate|inversion 1].
  - split; auto with re.
  - split; [discriminate|inversion 1].
  - rewrite andb_true_iff, IH1, IH2. split.
    + intros [H1 H2]. change (@nil char) with (@nil char ++ []).
      now constructor.
    + intros H. inversion H as [| |? ? s1 s2 H1 H2| | | |]; subst.
      match goal with E : _ ++ _ = [] |- _ =>
        apply app_eq_nil in E as [-> ->] end.
      now split.
  - rewrite orb_true_iff, IH1, IH2. split.
    + intros [H|H]; auto with re.
    + inversion 1; subst; auto.
  - split; auto with re.
Qed.

Lemma star_cons_inv (r : regex) (c : char) (s : str) :
  matches (Star r) (c :: s) ->
  exists s1 s2, s = s1 ++ s2 /\ matches r (c :: s1) /\ matches (Star r) s2.
Proof.
  intros H. remember (Star r) as r' eqn:Er. remember (c :: s) as w eqn:Ew.
  revert s Ew.
  induction H as [| | | | | |r0 s1 s2 H1 _ H2 IH2]; try discriminate.
  injection Er as ->. intros s Ew.
  destruct s1 as [|c1 s1]; simpl in Ew.
  - now apply IH2.
  - injection Ew as -> <-. eauto.
Qed.

Lemma deriv_matches (r : regex) (c : char) (s : str) :
  matches (deriv c r) s <-> matches r (c :: s).
Proof.
  revert s.
  induction r as [| |p|r1 IH1 r2 IH2|r1 IH1 r2 IH2|r IH]; intros s; simpl.
  - split; inversion 1.
  - split; inversion 1.
  - destruct (p c) eqn:Ep; split.
    + inversion 1; subst. now constructor.
    + inversion 1; subst. constructor.
    + inversion 1.
    + inversion 1; subst. congruence.
  - assert (Hcat : matches (Cat (deriv c r1) r2) s ->
                   matches (Cat r1 r2) (c :: s)).
    { inversion 1 as [| |? ? s1 s2 H1 H2| | | |]; subst.
      apply IH1 in H1. change (c :: s1 ++ s2) with ((c :: s1) ++ s2).
      now constructor. }
    assert (Hinv : matches (Cat r1 r2) (c :: s) ->
                   matches (Cat (deriv c r1) r2) s \/
                   (nullable r1 = true /\ matches (deriv c r2) s)).
    { intros H. inversion H as [| |? ? s1 s2 H1 H2| | | |]; subst.
      match goal with E : _ ++ _ = _ :: _ |- _ => rename E into Heq end.
      destruct s1 as [|c1 s1]; simpl in Heq.
      - right. subst s2. split; [now apply nullable_matches|now apply IH2].
      - injection Heq as -> <-. left. constructor; [now apply IH1|easy]. }
    destruct (nullable r1) eqn:En; split.
    + inversion 1; subst; [now apply Hcat|].
      change (c :: s) with ([] ++ c :: s). constructor.
      * now apply nullable_matches.
      * now apply IH2.
    + intros H. destruct (Hinv H) as [H'|[_ H']]; auto with re.
    + apply Hcat.
    + intros H. destruct (Hinv H) as [H'|[H' _]]; [easy|discriminate].
  - split.
    + inversion 1; subst; [apply MAltL, IH1|apply MAltR, IH2]; easy.
    + inversion 1; subst; [apply MAltL, IH1|apply MAltR, IH2]; easy.
  - split.
    + inversion 1 as [| |? ? s1 s2 H1 H2| | | |]; subst.
      change (c :: s1 ++ s2) with ((c :: s1) ++ s2).
      constructor; [now apply IH|easy].
    + intros H. apply star_cons_inv in H as (s1 & s2 & -> & H1 & H2).
      constructor; [now apply IH|easy].
Qed.

(** The matcher decides membership in the language of the pattern. *)
Lemma fullmatch_matches (r : regex) (s : str) :
  fullmatch r s = true <-> matches r s.
Proof.
  revert r. induction s as [|c s IH]; intros r; simpl.
  - apply nullable_matches.
  - rewrite IH. apply deriv_matches.
Qed.

Lemma star_any (s : str) : matches (Star Any) s.
Proof.
  induction s as [|c s IH]; [constructor|].
  change (c :: s) with ([c] ++ s). constructor; [now constructor|easy].
Qed.

(** [search] finds a match exactly when some substring is in the
    language. *)
Lemma search_matches (r : regex) (s : str) :
  search r s = true <->
  exists pre mid post, s = pre ++ mid ++ post /\ matches r mid.
Proof.
  unfold search. rewrite fullmatch_matches. split.
  - inversion 1 as [| |? ? pre s2 _ H2| | | |]; subst.
    inversion H2 as [| |? ? mid post Hm _| | | |]; subst. eauto.
  - intros (pre & mid & post & -> & Hm).
    constructor; [apply star_any|]. constructor; [easy|apply star_any].
Qed.

End RegexFacts.

(** ** [str.strip] is idempotent *)

Section StripFacts.

Lemma lstrip_hd_ok (s : str) : hd_ok (lstrip s).
Proof.
  induction s as [|c t IH]; simpl; [exact I|].
  destruct (isspace c) eqn:E; [exact IH|exact E].
Qed.

Lemma lstrip_id (s : str) : hd_ok s -> lstrip s = s.
Proof. destruct s as [|c t]; simpl; [easy|]. now intros ->. Qed.

Lemma lstrip_suffix (s : str) : exists pre, s = pre ++ lstrip s.
Proof.
  induction s as [|c t [pre IH]]; simpl; [now exists []|].
  destruct (isspace c).
  - exists (c :: pre). simpl. now f_equal.
  - now exists [].
Qed.

Lemma rstrip_prefix (s : str) : exists post, s = rstrip s ++ post.
Proof.
  unfold rstrip. destruct (lstrip_suffix (rev s)) as [pre H].
  exists (rev pre). rewrite <- rev_app_distr, <- H. now rewrite rev_involutive.
Qed.

Lemma rstrip_hd_ok (s : str) : hd_ok s -> hd_ok (rstrip s).
Proof.
  intros H. destruct (rstrip_prefix s) as [post E].
  destruct (rstrip s) as [|c t]; [exact I|].
  rewrite E in H. exact H.
Qed.

Lemma rstrip_id (s : str) : hd_ok (rev s) -> rstrip s = s.
Proof.
  intros H. unfold rstrip. rewrite lstrip_id by exact H.
  apply rev_involutive.
Qed.

Lemma rstrip_last_ok (s : str) : hd_ok (rev (rstrip s)).
Proof. unfold rstrip. rewrite rev_involutive. apply lstrip_hd_ok. Qed.

Lemma strip_idempotent (s : str) : strip (strip s) = strip s.
Proof.
  unfold strip.
  rewrite (lstrip_id (rstrip (lstrip s))).
  - apply rstrip_id, rstrip_last_ok.
  - apply rstrip_hd_ok, lstrip_hd_ok.
Qed.

Lemma strip_nil : strip [] = [].
Proof. reflexivity. Qed.

End StripFacts.

(** ** The language of the number pattern *)

Section PlainDecimalFacts.

Context (ucd : UnicodeData).

Lemma decimal_ascii (c : char) (d : N) :
  decimal ucd c = Some d ->
  ((48 <= c <= 57)%N \/ (128 <= c)%N).
Proof.
  unfold decimal, is_ascii.
  destruct (c <? 128)%N eqn:E1; [|apply N.ltb_ge in E1; auto].
  destruct ((48 <=? c) && (c <=? 57))%N eqn:E2; [|discriminate].
  apply andb_true_iff in E2 as [H1%N.leb_le H2%N.leb_le]. auto.
Qed.

Lemma isdecimal_decimal (c : char) :
  isdecimal ucd c = true <-> exists d, decimal ucd c = Some d.
Proof.
  unfold isdecimal. destruct (decimal ucd c) as [d|]; split; eauto.
  - discriminate.
  - intros [d H]; discriminate.
Qed.

Lemma digits_of_isdecimal (s : str) :
  Forall (fun c => isdecimal ucd c = true) s <-> exists ds, digits_of ucd s ds.
Proof.
  split.
  - induction 1 as [|c s Hc _ [ds IH]]; [exists []; constructor|].
    apply isdecimal_decimal in Hc as [d Hd].
    exists (d :: ds). now constructor.
  - intros [ds H]. induction H as [|c d s ds Hc _ IH]; constructor; auto.
    apply isdecimal_decimal; eauto.
Qed.

Lemma digits_of_nil_l (ds : list N) : digits_of ucd [] ds -> ds = [].
Proof. inversion 1; reflexivity. Qed.

Lemma digits_of_nonempty (s : str) (ds : list N) :
  digits_of ucd s ds -> (s <> [] <-> ds <> []).
Proof. inversion 1; subst; split; congruence. Qed.

(** *** The language of the pattern *)

Lemma matches_sym_inv (p : char -> bool) (s : str) :
  matches (Sym p) s <-> exists c, s = [c] /\ p c = true.
Proof.
  split.
  - inversion 1; subst; eauto.
  - intros (c & -> & H). now constructor.
Qed.

Lemma matches_star_sym (p : char -> bool) (s : str) :
  matches (Star (Sym p)) s <-> Forall (fun c => p c = true) s.
Proof.
  split.
  - intros H. remember (Star (Sym p)) as r eqn:Er.
    induction H as [| | | | | |r0 s1 s2 H1 _ _ IH]; try discriminate.
    + constructor.
    + injection Er as ->. apply matches_sym_inv in H1 as (c & -> & Hc).
      constructor; auto.
  - induction 1 as [|c s Hc _ IH]; [constructor|].
    change (c :: s) with ([c] ++ s). constructor; [now constructor|easy].
Qed.

Lemma matches_plus_sym (p : char -> bool) (s : str) :
  matches (Plus (Sym p)) s <-> s <> [] /\ Forall (fun c => p c = true) s.
Proof.
  unfold Plus. split.
  - inversion 1 as [| |? ? s1 s2 H1 H2| | | |]; subst.
    apply matches_sym_inv in H1 as (c & -> & Hc).
    apply matches_star_sym in H2. split; [discriminate|].
    constructor; auto.
  - intros [Hne H]. destruct H as [|c s Hc H]; [congruence|].
    change (c :: s) with ([c] ++ s).
    constructor; [now constructor|now apply matches_star_sym].
Qed.

Lemma matches_opt (r : regex) (s : str) :
  matches (Opt r) s <-> matches r s \/ s = [].
Proof.
  unfold Opt. split.
  - inversion 1 as [| | |? ? ? H1|? ? ? H1| |]; subst; auto.
    inversion H1; auto.
  - intros [H| ->]; [now apply MAltL|apply MAltR; constructor].
Qed.

Lemma matches_lit (c : char) (s : str) : matches (Lit c) s <-> s = [c].
Proof.
  unfold Lit. rewrite matches_sym_inv. split.
  - intros (c' & -> & H%N.eqb_eq). now subst.
  - intros ->. exists c. split; [easy|apply N.eqb_refl].
Qed.

Lemma matches_cat (r1 r2 : regex) (s : str) :
  matches (Cat r1 r2) s <->
  exists s1 s2, s = s1 ++ s2 /\ matches r1 s1 /\ matches r2 s2.
Proof.
  split.
  - inversion 1; subst; eauto.
  - intros (s1 & s2 & -> & H1 & H2). now constructor.
Qed.

(** The pattern of the source accepts exactly the plain decimals. *)
Lemma number_pattern_plain_decimal (t : str) :
  fullmatch (App.number_pattern ucd) t = true <-> is_plain_decimal ucd t.
Proof.
  rewrite fullmatch_matches. unfold App.number_pattern, Digit.
  split.
  - intros H.
    apply matches_cat in H as (sg & body & -> & Hsg & H).
    apply matches_cat in H as (si & tl & -> & Hsi & Htl).
    apply matches_plus_sym in Hsi as [Hne Hsi].
    apply digits_of_isdecimal in Hsi as [ip Hip].
    assert (Hipne : ip <> []) by now apply (digits_of_nonempty si ip).
    assert (Hneg : exists neg : bool, sg = if neg then [45%N] else []).
    { apply matches_opt in Hsg as [Hsg%matches_lit| ->];
        [now exists true|now exists false]. }
    destruct Hneg as [neg ->].
    apply matches_opt in Htl as [Htl| ->].
    + apply matches_cat in Htl as (pt & sf & -> & ->%matches_lit & Hsf).
      apply matches_plus_sym in Hsf as [Hsfne Hsf].
      apply digits_of_isdecimal in Hsf as [fp Hfp].
      exists neg, ip, fp, si, sf. repeat split; auto.
      destruct fp as [|d fp]; [|reflexivity].
      apply (digits_of_nonempty sf []) in Hsfne; [congruence|easy].
    + exists neg, ip, [], si, []. repeat split; auto. constructor.
  - intros (neg & ip & fp & si & sf & Hip & Hfp & Hne & ->).
    constructor.
    { apply matches_opt. destruct neg; [left; now apply matches_lit|now right]. }
    constructor.
    { apply matches_plus_sym. split.
      - now apply (digits_of_nonempty si ip).
      - apply digits_of_isdecimal. eauto. }
    apply matches_opt. destruct fp as [|d fp]; [now right|left].
    change (46%N :: sf) with ([46%N] ++ sf). constructor.
    + now apply matches_lit.
    + apply matches_plus_sym. split.
      * now apply (digits_of_nonempty sf (d :: fp)).
      * apply digits_of_isdecimal. eauto.
Qed.

End PlainDecimalFacts.

(** ** [float()] accepts every plain decimal *)

Section FloatOfPlainDecimal.

Context (ucd : UnicodeData).

Lemma decimal_not_ascii (c : char) (d : N) :
  decimal ucd c = Some d -> (c < 48)%N \/ (57 < c < 128)%N -> False.
Proof. intros H%decimal_ascii. lia. Qed.

Lemma split_sign_digit (c : char) (d : N) (t : str) :
  decimal ucd c = Some d -> split_sign (c :: t) = (false, c :: t).
Proof.
  intros H. destruct (N.eq_dec c 45%N) as [->|H45].
  { exfalso. apply (decimal_not_ascii _ _ H). lia. }
  destruct (N.eq_dec c 43%N) as [->|H43].
  { exfalso. apply (decimal_not_ascii _ _ H). lia. }
  unfold split_sign.
  destruct c as [|p]; [reflexivity|].
  do 6 (destruct p as [p|p|]; try reflexivity); congruence.
Qed.

(** After a digit that no underscore follows, [digitpart] goes on with
    the rest. *)
Lemma digitpart_cons (c : char) (d : N) (t : str) :
  decimal ucd c = Some d ->
  (forall t', t <> 95%N :: t') ->
  digitpart ucd (c :: t) =
  let (ds, r) := digitpart ucd t in (d :: ds, r).
Proof.
  intros H Ht. cbn [digitpart]. rewrite H.
  destruct t as [|c1 t1]; [reflexivity|].
  destruct c1 as [|p]; [reflexivity|].
  do 7 (destruct p as [p|p|]; try reflexivity).
  now elim (Ht t1).
Qed.


Lemma digitpart_stops (rest : str) :
  stops ucd rest -> digitpart ucd rest = ([], rest).
Proof.
  destruct rest as [|c t]; [reflexivity|]. intros [H _].
  cbn [digitpart]. now rewrite H.
Qed.

Lemma digitpart_digits (s : str) (ds : list N) (rest : str) :
  digits_of ucd s ds -> stops ucd rest ->
  digitpart ucd (s ++ rest) = (ds, rest).
Proof.
  intros H Hrest. induction H as [|c d s ds Hc Hs IH].
  - now apply digitpart_stops.
  - change ((c :: s) ++ rest) with (c :: (s ++ rest)).
    assert (Hnext : forall t', s ++ rest <> 95%N :: t').
    { intros t' E. destruct Hs as [|c1 d1 s1 ds1 Hc1 _]; simpl in E.
      - destruct rest as [|c0 r0]; [discriminate|].
        injection E as -> _. now destruct Hrest.
      - injection E as -> _. apply (decimal_not_ascii _ _ Hc1). lia. }
    rewrite (digitpart_cons c d _ Hc Hnext).
    now rewrite IH.
Qed.

Lemma lower_digit (c : char) (d : N) :
  decimal ucd c = Some d -> ascii_lower c = c.
Proof.
  intros H%decimal_ascii. unfold ascii_lower.
  destruct ((65 <=? c) && (c <=? 90))%N eqn:E; [|reflexivity].
  apply andb_true_iff in E as [H1%N.leb_le H2%N.leb_le]. lia.
Qed.

Lemma str_eqb_head (c c' : char) (a b : str) :
  c <> c' -> str_eqb (c :: a) (c' :: b) = false.
Proof. intros H. unfold str_eqb. case_decide; congruence. Qed.

(** A string that starts with a digit is parsed as a number. *)
Lemma parse_float_digits (neg : bool) (c : char) (d : N) (si tl : str)
    (ip : list N) :
  decimal ucd c = Some d -> digits_of ucd si ip -> stops ucd tl ->
  parse_float ucd ((if neg then [45%N] else []) ++ (c :: si) ++ tl)
  = let (fp, s3) :=
      match tl with
      | 46%N :: t => digitpart ucd t
      | _ => ([], tl)
      end in
    match s3 with
    | [] => Some (decimal_value neg (d :: ip) fp)
    | c0 :: t =>
        if ((c0 =? 101) || (c0 =? 69))%N
        then match parse_exponent ucd t with
             | Some e =>
                 Some (of_decimal neg (number ((d :: ip) ++ fp))
                         (e - Z.of_nat (length fp)))
             | None => None
             end
        else None
    end.
Proof.
  intros Hc Hsi Htl. unfold parse_float.
  assert (Hsign : split_sign ((if neg then [45%N] else []) ++
                              (c :: si) ++ tl)
                  = (neg, (c :: si) ++ tl)).
  { destruct neg; [reflexivity|]. simpl. apply (split_sign_digit c d), Hc. }
  rewrite Hsign. clear Hsign.
  assert (Hlow : ascii_lower c = c) by exact (lower_digit c d Hc).
  pose proof (decimal_ascii ucd c d Hc) as Hrange.
  cbn [List.map app]. rewrite Hlow.
  change (of_ascii "inf") with (105%N :: of_ascii "nf").
  change (of_ascii "infinity") with (105%N :: of_ascii "nfinity").
  change (of_ascii "nan") with (110%N :: of_ascii "an").
  rewrite !str_eqb_head by
    (intros ->; vm_compute in Hrange; destruct Hrange as [[? ?]|?];
     congruence).
  cbn [orb].
  change (c :: si ++ tl) with ((c :: si) ++ tl).
  rewrite (digitpart_digits (c :: si) (d :: ip) tl)
    by (try constructor; assumption).
  destruct (match tl with 46%N :: t => digitpart ucd t | _ => ([], tl) end)
    as [fp s3].
  reflexivity.
Qed.

Lemma parse_float_unsigned (neg : bool) (si sf : str) (ip fp : list N) :
  digits_of ucd si ip -> digits_of ucd sf fp -> ip <> [] ->
  parse_float ucd
    ((if neg then [45%N] else []) ++ si ++
     (match fp with [] => [] | _ :: _ => 46%N :: sf end))
  = Some (decimal_value neg ip fp).
Proof.
  intros Hip Hfp Hne.
  destruct Hip as [|c d si ip Hc Hsi]; [congruence|]. clear Hne.
  destruct fp as [|d' fp'].
  - rewrite (parse_float_digits neg c d si [] ip Hc Hsi I).
    reflexivity.
  - rewrite (parse_float_digits neg c d si (46%N :: sf) ip Hc Hsi)
      by (split; [reflexivity|discriminate]).
    replace (digitpart ucd sf) with (d' :: fp', @nil char).
    + reflexivity.
    + rewrite <- (app_nil_r sf) at 1.
      symmetry. apply digitpart_digits; [exact Hfp|exact I].
Qed.

Lemma parse_float_plain_decimal (t : str) (neg : bool) (ip fp : list N) :
  plain_decimal ucd t neg ip fp ->
  parse_float ucd t = Some (decimal_value neg ip fp).
Proof.
  intros (si & sf & Hip & Hfp & Hne & ->).
  now apply parse_float_unsigned.
Qed.

(** The call [float(trimmed)] of the validator never raises once the
    pattern has matched. *)
Lemma py_float_trimmed (raw : str) (neg : bool) (ip fp : list N) :
  plain_decimal ucd (strip raw) neg ip fp ->
  py_float ucd (strip raw) = Some (decimal_value neg ip fp).
Proof.
  intros H. unfold py_float. rewrite strip_idempotent.
  now apply parse_float_plain_decimal.
Qed.

Lemma decimal_value_not_nan (neg : bool) (ip fp : list N) :
  is_nan (decimal_value neg ip fp) = false.
Proof. apply of_decimal_not_nan. Qed.

End FloatOfPlainDecimal.

(** ** The validators meet their contracts *)

Section ValidatorFacts.

Context (ucd : UnicodeData).

Lemma plain_decimal_nonempty (t : str) (neg : bool) (ip fp : list N) :
  plain_decimal ucd t neg ip fp -> t <> [].
Proof.
  intros (si & sf & Hip & _ & Hne & ->).
  destruct Hip; [congruence|]. destruct neg; discriminate.
Qed.

Lemma digits_of_In (s : str) (ds : list N) (c : char) :
  digits_of ucd s ds -> In c s -> isdecimal ucd c = true.
Proof.
  intros H. induction H as [|c' d s ds Hc _ IH]; simpl; [easy|].
  intros [->|Hin]; [|auto]. apply isdecimal_decimal; eauto.
Qed.

(** A plain decimal holds digits, a minus sign and a point only. *)
Lemma plain_decimal_chars (t : str) (c : char) :
  is_plain_decimal ucd t -> In c t ->
  isdecimal ucd c = true \/ c = 45%N \/ c = 46%N.
Proof.
  intros (neg & ip & fp & si & sf & Hip & Hfp & _ & ->) Hin.
  apply in_app_or in Hin as [Hin|Hin].
  { destruct neg; simpl in Hin; [|easy]. destruct Hin as [<-|[]]; auto. }
  apply in_app_or in Hin as [Hin|Hin].
  { left. exact (digits_of_In si ip c Hip Hin). }
  destruct fp as [|d fp]; simpl in Hin; [easy|].
  destruct Hin as [<-|Hin]; auto.
  left. exact (digits_of_In sf (d :: fp) c Hfp Hin).
Qed.

Lemma is_empty_nil (s : str) : is_empty s = true <-> s = [].
Proof. destruct s; simpl; split; congruence. Qed.

Lemma is_empty_strip (raw : str) :
  is_empty raw || is_empty (strip raw) = is_empty (strip raw).
Proof. destruct raw; reflexivity. Qed.

Lemma app_validate_contract :
  validator_contract ucd (App.validate_kwh_input ucd).
Proof.
  intros raw t. unfold App.validate_kwh_input.
  rewrite is_empty_strip. fold t.
  assert (Hplain : forall neg ip fp, plain_decimal ucd t neg ip fp ->
    py_float ucd t = Some (decimal_value neg ip fp) /\
    (if is_empty t then reject "Please enter a value."
     else if negb (fullmatch (App.number_pattern ucd) t)
          then reject "Please enter a valid number."
          else match py_float ucd t with
               | Some kwh => range_outcome kwh
               | None => reject "Please enter a valid number."
               end) = range_outcome (decimal_value neg ip fp)).
  { intros neg ip fp H.
    pose proof (py_float_trimmed ucd raw neg ip fp H) as Hf. fold t in Hf.
    split; [exact Hf|].
    destruct (is_empty t) eqn:Ee.
    { apply is_empty_nil in Ee. apply plain_decimal_nonempty in H.
      congruence. }
    assert (Hm : fullmatch (App.number_pattern ucd) t = true).
    { apply number_pattern_plain_decimal. now exists neg, ip, fp. }
    now rewrite Hm, Hf. }
  assert (Hbad : t <> [] -> ~ is_plain_decimal ucd t ->
    (if is_empty t then reject "Please enter a value."
     else if negb (fullmatch (App.number_pattern ucd) t)
          then reject "Please enter a valid number."
          else match py_float ucd t with
               | Some kwh => range_outcome kwh
               | None => reject "Please enter a valid number."
               end) = reject "Please enter a valid number.").
  { intros Hne Hnp. destruct (is_empty t) eqn:Ee.
    { now apply is_empty_nil in Ee. }
    destruct (fullmatch (App.number_pattern ucd) t) eqn:Em; [|reflexivity].
    now apply number_pattern_plain_decimal in Em. }
  repeat split.
  - intros ->. reflexivity.
  - exact Hbad.
  - intros c Hin Hd H45 H46. apply Hbad.
    + intros E. now rewrite E in Hin.
    + intros Hp. destruct (plain_decimal_chars t c Hp Hin) as [H|[H|H]];
        congruence.
  - now apply Hplain.
  - now apply Hplain.
Qed.

Lemma app1_validate_contract :
  guarded_validator_contract ucd (App1.validate_kwh_input ucd).
Proof.
  intros raw t.
  pose proof (app_validate_contract raw) as (_ & H2 & H3 & H4).
  fold t in H2, H3, H4.
  assert (Hsame : suspicious ucd t = false ->
            App1.validate_kwh_input ucd raw = App.validate_kwh_input ucd raw).
  { unfold suspicious, App1.validate_kwh_input, App.validate_kwh_input.
    fold t. intros [-> ->]%orb_false_iff. reflexivity. }
  repeat split.
  - unfold App1.validate_kwh_input. rewrite is_empty_strip. fold t.
    now intros ->.
  - unfold App1.validate_kwh_input, suspicious.
    rewrite is_empty_strip. fold t. intros Hne Hs.
    destruct (is_empty t) eqn:Ee; [now apply is_empty_nil in Ee|].
    destruct (search (App1.xss_pattern ucd) t); [reflexivity|].
    simpl in Hs. now rewrite Hs.
  - intros Hne Hs Hp. rewrite (Hsame Hs). auto.
  - intros c Hs. rewrite (Hsame Hs). apply H3.
  - now apply H4.
  - intros. rewrite Hsame by assumption. now apply H4.
Qed.

End ValidatorFacts.

(** ** The outcomes of the validators *)

Section OutcomeFacts.

Context (ucd : UnicodeData).

(** Steps 4 to 6 end in one of three ways; an accepted value lies in
    (0, 99999]. *)
Lemma range_outcome_cases (v : float64) :
  is_nan v = false ->
  range_outcome v = reject "Value must be greater than 0." \/
  range_outcome v = reject "Value cannot exceed 99,999." \/
  (range_outcome v = accept v /\
   ltb zero v = true /\ leb v (of_lit 99999) = true).
Proof.
  intros Hv. unfold range_outcome.
  destruct (leb v zero) eqn:E1; [now left|].
  destruct (ltb (of_lit 99999) v) eqn:E2; [right; now left|].
  right; right. split; [reflexivity|]. split.
  - now apply leb_false_ltb.
  - now apply ltb_false_leb.
Qed.

(** Every run of the validator of [app.py] ends in one of three ways. *)
Lemma app_validate_cases (raw : str) :
  App.validate_kwh_input ucd raw = reject "Please enter a value." \/
  App.validate_kwh_input ucd raw = reject "Please enter a valid number." \/
  exists neg ip fp,
    plain_decimal ucd (strip raw) neg ip fp /\
    App.validate_kwh_input ucd raw = range_outcome (decimal_value neg ip fp).
Proof.
  destruct (app_validate_contract ucd raw) as (H1 & H2 & _ & H4).
  destruct (strip raw) as [|c t] eqn:Et; [left; now apply H1|].
  destruct (fullmatch (App.number_pattern ucd) (c :: t)) eqn:Em.
  - apply number_pattern_plain_decimal in Em as (neg & ip & fp & Hp).
    right; right. exists neg, ip, fp. split; [exact Hp|].
    now apply H4.
  - right; left. apply H2; [discriminate|].
    intros Hp%number_pattern_plain_decimal. congruence.
Qed.

Lemma app1_validate_cases (raw : str) :
  App1.validate_kwh_input ucd raw = reject "Please enter a value." \/
  App1.validate_kwh_input ucd raw = reject "Invalid input detected." \/
  App1.validate_kwh_input ucd raw = reject "Please enter a valid number." \/
  exists neg ip fp,
    plain_decimal ucd (strip raw) neg ip fp /\
    App1.validate_kwh_input ucd raw = range_outcome (decimal_value neg ip fp).
Proof.
  destruct (app1_validate_contract ucd raw) as (H1 & H2 & H3 & _ & H5).
  destruct (strip raw) as [|c t] eqn:Et; [left; now apply H1|].
  destruct (suspicious ucd (c :: t)) eqn:Es.
  { right; left. apply H2; [discriminate|reflexivity]. }
  destruct (fullmatch (App.number_pattern ucd) (c :: t)) eqn:Em.
  - apply number_pattern_plain_decimal in Em as (neg & ip & fp & Hp).
    right; right; right. exists neg, ip, fp. split; [exact Hp|].
    now apply H5.
  - right; right; left. apply H3; [discriminate|reflexivity|].
    intros Hp%number_pattern_plain_decimal. congruence.
Qed.

Lemma reject_well_formed (m : string) : well_formed_outcome (reject m).
Proof.
  unfold well_formed_outcome, reject. repeat split; try discriminate.
  intros [v Hv]. discriminate.
Qed.

Lemma range_outcome_well_formed (v : float64) :
  is_nan v = false -> well_formed_outcome (range_outcome v).
Proof.
  intros Hv.
  destruct (range_outcome_cases v Hv) as [-> | [-> | (-> & H1 & H2)]];
    try apply reject_well_formed.
  unfold well_formed_outcome, accept.
  split; [split; reflexivity|].
  split; [split; eauto|].
  intros v' [= <-]. now split.
Qed.

Lemma range_outcome_messages (v : float64) :
  is_nan v = false -> rejects_within contractual_messages (range_outcome v).
Proof.
  intros Hv.
  destruct (range_outcome_cases v Hv) as [-> | [-> | (-> & _)]];
    simpl; tauto.
Qed.

(** The outcome of either validator is well formed. *)
Lemma validators_well_formed (raw : str) :
  well_formed_outcome (App.validate_kwh_input ucd raw) /\
  well_formed_outcome (App1.validate_kwh_input ucd raw).
Proof.
  split.
  - destruct (app_validate_cases raw)
      as [-> | [-> | (neg & ip & fp & _ & ->)]];
      try apply reject_well_formed.
    apply range_outcome_well_formed, decimal_value_not_nan.
  - destruct (app1_validate_cases raw)
      as [-> | [-> | [-> | (neg & ip & fp & _ & ->)]]];
      try apply reject_well_formed.
    apply range_outcome_well_formed, decimal_value_not_nan.
Qed.

End OutcomeFacts.

(** ** The calculators *)

Section CalculatorFacts.

Import App1.

Lemma fresh_lookup (h : gmap loc obj) : h !! fresh (dom h) = None.
Proof. apply not_elem_of_dom, is_fresh. Qed.

Lemma fresh_ne (h : gmap loc obj) (l : loc) (o : obj) :
  h !! l = Some o -> l <> fresh (dom h).
Proof. intros H ->. rewrite fresh_lookup in H. discriminate. Qed.

(** Every factor of the table, and the default, passes
    [_validate_factor]. *)
Lemma vehicle_factor_cases (vt : pyval) (f : float64) :
  vehicle_factor vt = inr f ->
  In f [ of_decimal false 21 (-2); of_decimal false 89 (-3);
         of_decimal false 41 (-3); of_decimal false 0 (-1);
         of_decimal false 5 (-2) ].
Proof.
  destruct vt as [| | | |s| |]; simpl; try discriminate;
    try (intros [= <-]; now left).
  destruct (VEHICLE_FACTORS !! s) as [f'|] eqn:E; simpl;
    intros [= <-]; [|now left].
  apply elem_of_list_to_map_2 in E.
  repeat (apply elem_of_cons in E as [E|E];
          [injection E as _ ->; simpl; tauto|]).
  now apply elem_of_nil in E.
Qed.

Lemma vehicle_factor_nonneg (vt : pyval) (f : float64) :
  vehicle_factor vt = inr f -> ltb f (of_lit 0) = false.
Proof.
  intros H%vehicle_factor_cases. simpl in H.
  repeat (destruct H as [<-|H]; [reflexivity|]). easy.
Qed.

(** What a constructor leaves in the store: an empty history list and the
    instance, at two new references. *)
Lemma init_spec (factor : float64) (own_attrs : subclass) (h : gmap loc obj) :
  ltb factor (of_lit 0) = false ->
  let history := fresh (dom h) in
  let h1 := <[history := OList []]> h in
  let self := fresh (dom h1) in
  let i := {| _emission_factor := factor;
              _calculation_history := history;
              own := own_attrs |} in
  (let* base := EmissionCalculator_init factor in
   alloc (OInstance {| _emission_factor := fst base;
                       _calculation_history := snd base;
                       own := own_attrs |})) h
  = (inr self, <[self := OInstance i]> h1)
  /\ has_calculator (<[self := OInstance i]> h1) self i [].
Proof.
  intros Hf history h1 self i.
  unfold bind, EmissionCalculator_init, bind, alloc, _validate_factor.
  rewrite Hf. simpl. fold history h1 self i. split; [reflexivity|].
  split.
  - apply lookup_insert_eq.
  - simpl. rewrite lookup_insert_ne.
    + apply lookup_insert_eq.
    + apply not_eq_sym. eapply fresh_ne. apply lookup_insert_eq.
Qed.

(** Every category of the enumeration gets a calculator with the factor of
    the table. *)
Lemma new_calculator_spec (c : category) (h : gmap loc obj) :
  exists self i h',
    new_calculator c h = (inr self, h') /\
    has_calculator h' self i [] /\
    _emission_factor i = spec_factor c /\
    own i = match c with
            | Cat_electricity => Electricity 99999 0
            | Cat_transport v => Transport (PyStr (of_ascii (vehicle_name v)))
            | Cat_water => Water
            end.
Proof.
  destruct c as [|v|].
  - destruct (init_spec (of_decimal false 37 (-2)) (Electricity 99999 0) h
                eq_refl) as [E W].
    eexists _, _, _. split; [exact E|]. split; [exact W|]. now split.
  - assert (Hv : vehicle_factor (PyStr (of_ascii (vehicle_name v)))
                 = inr (spec_factor (Cat_transport v)))
      by (destruct v; vm_compute; reflexivity).
    destruct (init_spec (spec_factor (Cat_transport v))
                (Transport (PyStr (of_ascii (vehicle_name v)))) h
                (vehicle_factor_nonneg _ _ Hv)) as [E W].
    eexists _, _, _. split; [|split; [exact W|now split]].
    unfold new_calculator, TransportEmissionCalculator. rewrite Hv. exact E.
  - destruct (init_spec (of_decimal false 15 (-4)) Water h eq_refl) as [E W].
    eexists _, _, _. split; [exact E|]. split; [exact W|]. now split.
Qed.

(** [validate_input] reads the instance and leaves the store as it is. *)
Lemma validate_input_spec (h : gmap loc obj) (self : loc) (i : instance)
    (items : list loc) (value : pyval) :
  has_calculator h self i items ->
  validate_input self value h = (validate_input_of i value, h).
Proof.
  intros [Hs _]. unfold validate_input, bind, get_instance, lift.
  now rewrite Hs.
Qed.

(** [calculate] in one equation: it raises what [validate_input] or the
    multiplication raises and leaves the store as it is, or it returns the
    product and appends one new record to the history list. *)
Lemma calculate_spec (h : gmap loc obj) (self : loc) (i : instance)
    (items : list loc) (value : pyval) (now : datetime) :
  has_calculator h self i items ->
  calculate self value now h =
  match validate_input_of i value with
  | inl e => (inl e, h)
  | inr _ =>
      match times value (_emission_factor i) with
      | inl e => (inl e, h)
      | inr result =>
          let r := fresh (dom h) in
          (inr result,
           <[_calculation_history i := OList (items ++ [r])]>
             (<[r := ODict (record_of i value result now)]> h))
      end
  end.
Proof.
  intros [Hs Hl]. unfold calculate.
  unfold bind at 1. rewrite (validate_input_spec h self i items) by now split.
  destruct (validate_input_of i value) as [e|b]; [reflexivity|].
  unfold bind at 1. unfold get_instance at 1. rewrite Hs.
  unfold bind at 1. unfold lift.
  destruct (times value (_emission_factor i)) as [e|result]; [reflexivity|].
  unfold bind, _record_calculation, bind, get_instance, alloc, list_append,
    ret.
  rewrite Hs. simpl.
  rewrite lookup_insert_ne by (apply not_eq_sym; eapply fresh_ne; eauto).
  rewrite Hl. reflexivity.
Qed.

(** [get_history] allocates a new list with the items of the history. *)
Lemma get_history_spec (h : gmap loc obj) (self : loc) (i : instance)
    (items : list loc) :
  has_calculator h self i items ->
  get_history self h =
  (inr (fresh (dom h)), <[fresh (dom h) := OList items]> h).
Proof.
  intros [Hs Hl]. unfold get_history, bind, get_instance, get_list, alloc.
  now rewrite Hs, Hl.
Qed.

(** The threshold of [of_Z] is where rounding starts to overflow. *)
Lemma overflow_threshold_sharp :
  is_infinite (of_lit overflow_threshold) = true /\
  is_infinite (of_lit (overflow_threshold - 1)) = false.
Proof. split; vm_compute; reflexivity. Qed.

(** Integers of the ranges the calculators accept convert to a float. *)
Lemma of_Z_small (z : Z) :
  0 <= z <= 100000 -> of_Z z = Some (of_lit z).
Proof.
  intros Hz. unfold of_Z, of_lit.
  assert (H : 100000 < overflow_threshold) by (vm_compute; reflexivity).
  destruct (Z.ltb_spec (Z.abs z) overflow_threshold) as [_|Hge];
    [reflexivity|lia].
Qed.

End CalculatorFacts.

(** ** Floats that are not NaN are totally ordered *)

Section OrderFacts.

Lemma ltb_negb_leb (x y : float64) :
  is_nan x = false -> is_nan y = false -> ltb x y = negb (leb y x).
Proof.
  intros Hx Hy. unfold leb, ltb, SFleb, SFltb.
  rewrite (SFcompare_antisym x y).
  destruct (SFcompare_not_nan x y Hx Hy) as [c ->]. now destruct c.
Qed.

Lemma of_lit_not_nan (z : Z) : is_nan (of_lit z) = false.
Proof. apply of_decimal_not_nan. Qed.

End OrderFacts.

(** ** Validation and calculation by category *)

Section RequestFacts.

Import App1.

(** The bounds of the two calculators, for every numeric value that is not
    a NaN. *)
Ltac bounds_cases :=
  simpl;
  (split; [split; intros; try reflexivity; try discriminate; try lia
          |intros; try discriminate; try lia; eauto]).

Lemma transport_bounds (v : pyval) :
  is_numeric v = true -> is_nan_value v = false ->
  (Transport_validate_input v = inr true <-> within true 0 10000 v = true) /\
  (within true 0 10000 v = false ->
   exists m, Transport_validate_input v = inl (ValueError m)).
Proof.
  intros Hn Hv. unfold Transport_validate_input. rewrite Hn. simpl negb.
  cbv iota.
  destruct v as [|b|z|f| | |]; try discriminate; simpl in Hv |- *.
  - destruct b; vm_compute; bounds_cases.
  - destruct (Z.ltb_spec z 0); destruct (Z.ltb_spec 10000 z);
      destruct (Z.leb_spec 0 z); destruct (Z.leb_spec z 10000);
      try lia; bounds_cases.
  - rewrite (ltb_negb_leb f (of_lit 0)), (ltb_negb_leb (of_lit 10000) f)
      by (try exact Hv; apply of_lit_not_nan).
    destruct (leb (of_lit 0) f), (leb f (of_lit 10000)); bounds_cases.
Qed.

Lemma water_bounds (v : pyval) :
  is_numeric v = true -> is_nan_value v = false ->
  (Water_validate_input v = inr true <-> within false 0 100000 v = true) /\
  (within false 0 100000 v = false ->
   exists m, Water_validate_input v = inl (ValueError m)).
Proof.
  intros Hn Hv. unfold Water_validate_input. rewrite Hn. simpl negb.
  cbv iota.
  destruct v as [|b|z|f| | |]; try discriminate; simpl in Hv |- *.
  - destruct b; vm_compute; bounds_cases.
  - destruct (Z.leb_spec z 0); destruct (Z.ltb_spec 100000 z);
      destruct (Z.ltb_spec 0 z); destruct (Z.leb_spec z 100000);
      try lia; bounds_cases.
  - assert (E : leb f (of_lit 0) = negb (ltb (of_lit 0) f)).
    { rewrite (ltb_negb_leb (of_lit 0) f)
        by (try exact Hv; apply of_lit_not_nan).
      now rewrite negb_involutive. }
    rewrite E, (ltb_negb_leb (of_lit 100000) f)
      by (try exact Hv; apply of_lit_not_nan).
    destruct (ltb (of_lit 0) f), (leb f (of_lit 100000)); bounds_cases.
Qed.

(** A value that passed [validate_input] converts to a float. *)
Lemma validated_to_float (c : category) (value : pyval) :
  validate_for c value = inr true -> exists f, to_float value = inr f.
Proof.
  assert (Hint : forall z, 0 <= z <= 100000 ->
                 exists f, to_float (PyInt z) = inr f).
  { intros z Hz. simpl. rewrite (of_Z_small z Hz). eauto. }
  destruct value as [|b|z|f| | |];
    try (destruct c; discriminate); simpl; eauto.
  intros H. apply Hint.
  destruct c as [|v|]; simpl in H;
    unfold Electricity_validate_input, Transport_validate_input,
      Water_validate_input in H; simpl in H.
  - destruct (z <=? 0) eqn:E1; [discriminate|].
    destruct (99999 <? z) eqn:E2; [discriminate|]. lia.
  - destruct (z <? 0) eqn:E1; [discriminate|].
    destruct (10000 <? z) eqn:E2; [discriminate|]. lia.
  - destruct (z <=? 0) eqn:E1; [discriminate|].
    destruct (100000 <? z) eqn:E2; [discriminate|]. lia.
Qed.

(** Validation, then calculation, on a calculator that has just been
    built: the outcome, whatever the store. *)
Lemma attempt_spec (new_calc : M loc) (h h' : gmap loc obj) (self : loc)
    (i : instance) (value : pyval) (now : datetime) :
  new_calc h = (inr self, h') -> has_calculator h' self i [] ->
  fst (attempt new_calc value now h) =
  match validate_input_of i value with
  | inl e => inl e
  | inr _ => times value (_emission_factor i)
  end.
Proof.
  intros E W. unfold attempt. unfold bind at 1. rewrite E.
  unfold bind at 1. rewrite (validate_input_spec h' self i [] value W).
  destruct (validate_input_of i value) as [e|b] eqn:Ev; [reflexivity|].
  rewrite (calculate_spec h' self i [] value now W), Ev.
  now destruct (times value (_emission_factor i)).
Qed.

Lemma calculate_category_spec (c : category) (value : pyval)
    (now : datetime) (h : gmap loc obj) :
  fst (calculate_category c value now h) =
  match validate_for c value with
  | inl e => inl e
  | inr _ => times value (spec_factor c)
  end.
Proof.
  destruct (new_calculator_spec c h) as (self & i & h' & E & W & Hf & Ho).
  unfold calculate_category, bind. rewrite E.
  rewrite (calculate_spec h' self i [] value now W).
  assert (Hv : validate_input_of i value = validate_for c value).
  { unfold validate_input_of. rewrite Ho. now destruct c. }
  rewrite Hv, Hf.
  destruct (validate_for c value); [reflexivity|].
  now destruct (times value (spec_factor c)).
Qed.

Lemma eq_str_false (s : str) (name : string) :
  eq_str (PyStr s) name = false -> s <> of_ascii name.
Proof. unfold eq_str. now case_decide. Qed.

Lemma eq_str_true (v : pyval) (name : string) :
  eq_str v name = true -> v = PyStr (of_ascii name).
Proof.
  destruct v; try discriminate. unfold eq_str.
  case_decide; [now subst|discriminate].
Qed.

(** A vehicle type that is no key of the table gets the factor of a car. *)
Lemma vehicle_factor_default (vt : pyval) :
  hashable vt = true -> known_vehicle vt = false ->
  vehicle_factor vt = inr (spec_factor (Cat_transport Car)).
Proof.
  destruct vt as [| | | |s| |]; try discriminate; try reflexivity.
  intros _ Hk. unfold vehicle_factor.
  assert (Hnone : VEHICLE_FACTORS !! s = None); [|now rewrite Hnone].
  apply not_elem_of_list_to_map_1.
  unfold known_vehicle in Hk. simpl in Hk.
  repeat (apply orb_false_iff in Hk as [?%eq_str_false Hk]).
  simpl. rewrite !not_elem_of_cons. repeat split; try assumption.
  apply not_elem_of_nil.
Qed.

Lemma transport_calculator_spec (vt : pyval) (f : float64)
    (h : gmap loc obj) :
  vehicle_factor vt = inr f ->
  exists self i h',
    TransportEmissionCalculator vt h = (inr self, h') /\
    has_calculator h' self i [] /\
    _emission_factor i = f /\ own i = Transport vt.
Proof.
  intros Hv.
  destruct (init_spec f (Transport vt) h (vehicle_factor_nonneg vt f Hv))
    as [E W].
  eexists _, _, _. split; [|split; [exact W|now split]].
  unfold TransportEmissionCalculator. rewrite Hv. exact E.
Qed.

End RequestFacts.

(** ** The view [calculator] of the two applications *)

Section RouteFacts.

Context (ucd : UnicodeData).

Lemma ltb_true_leb_false (x y : float64) :
  ltb x y = true -> leb y x = false.
Proof.
  unfold leb, ltb, SFleb, SFltb. rewrite (SFcompare_antisym x y).
  destruct (SFcompare x y) as [[| |]|]; simpl; congruence.
Qed.

Lemma leb_true_ltb_false (x y : float64) :
  leb x y = true -> ltb y x = false.
Proof.
  unfold leb, ltb, SFleb, SFltb. rewrite (SFcompare_antisym x y).
  destruct (SFcompare x y) as [[| |]|]; simpl; congruence.
Qed.

(** A value the validator accepted passes [validate_input] of the
    electricity calculator. *)
Lemma accepted_passes_validation (v : float64) :
  ltb zero v = true -> leb v (of_lit 99999) = true ->
  App1.Electricity_validate_input 99999 0 (PyFloat v) = inr true.
Proof.
  intros H1%ltb_true_leb_false H2%leb_true_ltb_false.
  unfold App1.Electricity_validate_input. simpl.
  change (of_lit 0) with zero. now rewrite H1, H2.
Qed.

(** [app.py]: when the history write fails, the page still shows the
    result, a warning is flashed, and the store is as before. *)
Lemma app_calculator_store_failure (user_id : Z) (form_kwh : option str)
    (store : list App.row) (kwh : float64) :
  App.validate_kwh_input ucd (strip (default [] form_kwh)) = accept kwh ->
  App.calculator ucd (Some user_id) App.POST form_kwh false store
  = (App.Calculator_html None (Some (App.calculate_co2_emission kwh))
       (strip (default [] form_kwh)),
     [("Calculation completed but could not be saved to history."%string,
       "warning"%string)],
     store).
Proof.
  intros H. unfold App.calculator. rewrite H. reflexivity.
Qed.

(** [app1.py]: when the history write fails, the page still shows the
    result and the store is as before, but nothing is flashed. *)
Lemma app1_calculator_store_failure (user_id : Z) (form_kwh : option str)
    (store : list App1.row) (kwh : float64) (now : datetime) :
  App1.validate_kwh_input ucd (strip (default [] form_kwh)) = accept kwh ->
  App1.calculator ucd (Some user_id) App1.POST form_kwh false true now store
  = inr (App1.Calculator_html None
           (Some (mul kwh (spec_factor Cat_electricity)))
           (strip (default [] form_kwh)),
         [], store).
Proof.
  intros H.
  pose proof (proj2 (validators_well_formed ucd (strip (default [] form_kwh)))) as Hwf.
  rewrite H in Hwf. destruct Hwf as (_ & _ & Hr).
  destruct (Hr kwh eq_refl) as [H1 H2].
  unfold App1.calculator, App1.monitor_performance, App1.calculator_view.
  rewrite H. simpl negb. cbv iota. unfold accept.
  destruct (new_calculator_spec Cat_electricity ∅)
    as (self & i & h' & E & W & Hf & Ho).
  pose proof (attempt_spec App1.ElectricityEmissionCalculator ∅ h' self i
                (PyFloat kwh) now E W) as Ha.
  unfold attempt in Ha. rewrite Ha.
  unfold App1.validate_input_of. rewrite Ho.
  rewrite (accepted_passes_validation kwh H1 H2), Hf. reflexivity.
Qed.

End RouteFacts.

(** ** The history of a calculator *)

Section HistoryFacts.

Import App1.

Lemma calculator_not_history (h : gmap loc obj) (self : loc) (i : instance)
    (items : list loc) :
  has_calculator h self i items -> self <> _calculation_history i.
Proof. intros [Hs Hl] E. rewrite <- E, Hs in Hl. discriminate. Qed.

(** A successful [calculate] appends one new record and touches nothing
    else. *)
Lemma calculate_appends (h h' : gmap loc obj) (self : loc) (i : instance)
    (items : list loc) (value : pyval) (now : datetime) (result : float64) :
  has_calculator h self i items ->
  calculate self value now h = (inr result, h') ->
  exists r,
    h !! r = None /\
    h' !! r = Some (ODict (record_of i value result now)) /\
    has_calculator h' self i (items ++ [r]) /\
    (forall l, l <> r -> l <> _calculation_history i -> h' !! l = h !! l).
Proof.
  intros W H. pose proof (calculator_not_history h self i items W) as Hne.
  rewrite (calculate_spec h self i items value now W) in H.
  destruct (validate_input_of i value) as [e|b]; [discriminate|].
  destruct (times value (_emission_factor i)) as [e|res]; [discriminate|].
  cbv zeta in H. injection H as -> <-.
  destruct W as [Hs Hl].
  assert (Hr : fresh (dom h) <> _calculation_history i)
    by (apply not_eq_sym; eapply fresh_ne; eauto).
  assert (Hr' : fresh (dom h) <> self)
    by (apply not_eq_sym; eapply fresh_ne; eauto).
  exists (fresh (dom h)). split; [apply fresh_lookup|]. split; [|split].
  - rewrite lookup_insert_ne by congruence. apply lookup_insert_eq.
  - split.
    + rewrite !lookup_insert_ne by congruence. exact Hs.
    + apply lookup_insert_eq.
  - intros l H1 H2. now rewrite !lookup_insert_ne by congruence.
Qed.

(** A failed [calculate] leaves the store as it is. *)
Lemma calculate_raises (h h' : gmap loc obj) (self : loc) (i : instance)
    (items : list loc) (value : pyval) (now : datetime) (e : exn) :
  has_calculator h self i items ->
  calculate self value now h = (inl e, h') -> h' = h.
Proof.
  intros W H. rewrite (calculate_spec h self i items value now W) in H.
  destruct (validate_input_of i value) as [e1|b]; [congruence|].
  destruct (times value (_emission_factor i)) as [e2|res];
    [congruence|discriminate].
Qed.

(** [get_history] returns a new list; whatever is done to that list, the
    history of the instance and a later [get_history] are as before. *)
Lemma get_history_is_copy (h : gmap loc obj) (self : loc) (i : instance)
    (items : list loc) (f : list loc -> list loc) :
  has_calculator h self i items ->
  exists copy h1 h2 copy' h3,
    get_history self h = (inr copy, h1) /\
    h !! copy = None /\
    h1 !! copy = Some (OList items) /\
    list_mutate copy f h1 = (inr tt, h2) /\
    h2 !! copy = Some (OList (f items)) /\
    has_calculator h2 self i items /\
    (forall l, l <> copy -> h2 !! l = h !! l) /\
    get_history self h2 = (inr copy', h3) /\
    h3 !! copy' = Some (OList items).
Proof.
  intros W. pose proof W as [Hs Hl].
  set (copy := fresh (dom h)).
  set (h1 := <[copy := OList items]> h).
  set (h2 := <[copy := OList (f items)]> h1).
  assert (Hc1 : copy <> self) by (apply not_eq_sym; eapply fresh_ne; eauto).
  assert (Hc2 : copy <> _calculation_history i)
    by (apply not_eq_sym; eapply fresh_ne; eauto).
  assert (W2 : has_calculator h2 self i items).
  { split; unfold h2, h1; now rewrite !lookup_insert_ne by congruence. }
  exists copy, h1, h2, (fresh (dom h2)),
    (<[fresh (dom h2) := OList items]> h2).
  split; [exact (get_history_spec h self i items W)|].
  split; [apply fresh_lookup|].
  split; [apply lookup_insert_eq|].
  split.
  { unfold list_mutate, h1. now rewrite lookup_insert_eq. }
  split; [apply lookup_insert_eq|].
  split; [exact W2|].
  split.
  { intros l Hl'. unfold h2, h1. now rewrite !lookup_insert_ne by congruence. }
  split; [exact (get_history_spec h2 self i items W2)|apply lookup_insert_eq].
Qed.

End HistoryFacts.

(** * Further properties of the code *)

(** ** The validators and surrounding whitespace *)

Section WhitespaceFacts.

Lemma lstrip_spaces (ws s : str) :
  Forall (fun c => isspace c = true) ws -> lstrip (ws ++ s) = lstrip s.
Proof.
  induction 1 as [|c ws Hc _ IH]; [reflexivity|].
  simpl. now rewrite Hc.
Qed.

Lemma lstrip_all_spaces (ws : str) :
  Forall (fun c => isspace c = true) ws -> lstrip ws = [].
Proof.
  intros H. rewrite <- (app_nil_r ws). now rewrite lstrip_spaces.
Qed.

Lemma rstrip_spaces (s ws : str) :
  Forall (fun c => isspace c = true) ws -> rstrip (s ++ ws) = rstrip s.
Proof.
  intros H. unfold rstrip. rewrite rev_app_distr.
  rewrite lstrip_spaces; [reflexivity|]. now apply List.Forall_rev.
Qed.

Lemma strip_trailing_spaces (s ws : str) :
  Forall (fun c => isspace c = true) ws -> strip (s ++ ws) = strip s.
Proof.
  intros H. unfold strip. induction s as [|c t IH].
  - simpl. now rewrite (lstrip_all_spaces ws H).
  - simpl. destruct (isspace c); [exact IH|].
    change (c :: t ++ ws) with ((c :: t) ++ ws). now apply rstrip_spaces.
Qed.

Lemma strip_spaces (ws1 s ws2 : str) :
  Forall (fun c => isspace c = true) ws1 ->
  Forall (fun c => isspace c = true) ws2 ->
  strip (ws1 ++ s ++ ws2) = strip s.
Proof.
  intros H1 H2. rewrite <- (strip_trailing_spaces s ws2 H2).
  unfold strip. now rewrite lstrip_spaces.
Qed.

(** Each validator looks at its argument through [strip] only. *)
Lemma app_validate_strip (ucd : UnicodeData) (a b : str) :
  strip a = strip b ->
  App.validate_kwh_input ucd a = App.validate_kwh_input ucd b.
Proof.
  intros E. unfold App.validate_kwh_input.
  now rewrite !is_empty_strip, E.
Qed.

Lemma app1_validate_strip (ucd : UnicodeData) (a b : str) :
  strip a = strip b ->
  App1.validate_kwh_input ucd a = App1.validate_kwh_input ucd b.
Proof.
  intros E. unfold App1.validate_kwh_input.
  now rewrite !is_empty_strip, E.
Qed.

End WhitespaceFacts.

(** X1: whitespace around an input never changes what either validator
    answers: the outcome on [ws1 ++ s ++ ws2], with [ws1] and [ws2] made of
    whitespace, is the outcome on [s]. In particular the view may strip the
    field before it validates it. *)
Theorem X1_whitespace_is_ignored (ucd : UnicodeData) (ws1 s ws2 : str) :
  Forall (fun c => isspace c = true) ws1 ->
  Forall (fun c => isspace c = true) ws2 ->
  App.validate_kwh_input ucd (ws1 ++ s ++ ws2)
  = App.validate_kwh_input ucd s /\
  App1.validate_kwh_input ucd (ws1 ++ s ++ ws2)
  = App1.validate_kwh_input ucd s /\
  App.validate_kwh_input ucd (strip s) = App.validate_kwh_input ucd s /\
  App1.validate_kwh_input ucd (strip s) = App1.validate_kwh_input ucd s.
Proof.
  intros H1 H2.
  pose proof (strip_spaces ws1 s ws2 H1 H2) as E.
  repeat split.
  - now apply app_validate_strip.
  - now apply app1_validate_strip.
  - apply app_validate_strip, strip_idempotent.
  - apply app1_validate_strip, strip_idempotent.
Qed.

(** X1 at a tab and two blanks before [42] and a line feed after it. *)
Lemma X1_witness :
  App.validate_kwh_input ascii_only
    ([9%N; 32%N; 32%N] ++ of_ascii "42" ++ [10%N])
  = App.validate_kwh_input ascii_only (of_ascii "42").
Proof.
  apply (X1_whitespace_is_ignored ascii_only [9%N; 32%N; 32%N]
           (of_ascii "42") [10%N]);
    repeat constructor.
Defined.

(** ** The guards of [app1.py] and the numbers *)

Section GuardFacts.

Context (ucd : UnicodeData).

(** Where neither pattern is found, the two validators answer alike. *)
Lemma validators_agree (raw : str) :
  suspicious ucd (strip raw) = false ->
  App1.validate_kwh_input ucd raw = App.validate_kwh_input ucd raw.
Proof.
  unfold suspicious, App1.validate_kwh_input, App.validate_kwh_input.
  intros [-> ->]%orb_false_iff. reflexivity.
Qed.

Lemma matches_alt (r1 r2 : regex) (s : str) :
  matches (Alt r1 r2) s <-> matches r1 s \/ matches r2 s.
Proof.
  split.
  - inversion 1; subst; auto.
  - intros [H|H]; [now apply MAltL|now apply MAltR].
Qed.

Lemma matches_LitI (c : char) (mid : str) :
  matches (LitI ucd c) mid -> exists x, mid = [x] /\ head_matches ucd c x.
Proof.
  unfold LitI, head_matches. destruct (is_ascii_letter c).
  - intros (x & -> & Hx)%matches_sym_inv. eauto.
  - intros ->%matches_lit. eauto.
Qed.

Lemma matches_StrI_head (s mid : str) (c : char) :
  hd_error s = Some c -> matches (StrI ucd s) mid ->
  exists x rest, mid = x :: rest /\ head_matches ucd c x.
Proof.
  destruct s as [|c' s]; [discriminate|]. intros [= ->].
  destruct s as [|c2 s]; simpl.
  - intros (x & -> & Hx)%matches_LitI. eauto.
  - intros (s1 & s2 & -> & (x & -> & Hx)%matches_LitI & _)%matches_cat.
    eauto.
Qed.

Lemma matches_two_dashes (mid : str) :
  matches (StrI ucd [45%N; 45%N]) mid -> mid = [45%N; 45%N].
Proof.
  simpl. unfold LitI. simpl.
  now intros (s1 & s2 & -> & ->%matches_lit & ->%matches_lit)%matches_cat.
Qed.

Lemma is_ascii_letter_spec (c : char) :
  is_ascii_letter c = true <-> (65 <= c <= 90 \/ 97 <= c <= 122)%N.
Proof.
  unfold is_ascii_letter.
  rewrite orb_true_iff, !andb_true_iff, !N.leb_le. tauto.
Qed.

Lemma ascii_lower_spec (c : char) :
  ((65 <= c <= 90)%N /\ ascii_lower c = (c + 32)%N) \/
  (~ (65 <= c <= 90)%N /\ ascii_lower c = c).
Proof.
  unfold ascii_lower.
  destruct ((65 <=? c) && (c <=? 90))%N eqn:E.
  - apply andb_true_iff in E as [H1%N.leb_le H2%N.leb_le]. left. now split.
  - right. split; [|reflexivity]. intros [H1%N.leb_le H2%N.leb_le].
    now rewrite H1, H2 in E.
Qed.

Lemma plain_char_ascii (x : char) :
  plain_char ucd x -> ((48 <= x <= 57)%N \/ (128 <= x)%N) \/ x = 45%N \/ x = 46%N.
Proof.
  intros [H|H]; [left|now right].
  apply isdecimal_decimal in H as [d H]. exact (decimal_ascii ucd x d H).
Qed.

(** An ASCII character that a foreign pattern character matches is not a
    character of a plain decimal. *)
Lemma foreign_not_plain (c x : char) :
  is_ascii x = true -> foreign_char c = true -> head_matches ucd c x ->
  ~ plain_char ucd x.
Proof.
  intros Hx Hc Hm Hp%plain_char_ascii.
  unfold is_ascii in Hx. apply N.ltb_lt in Hx.
  unfold head_matches in Hm. unfold foreign_char in Hc.
  destruct (is_ascii_letter c) eqn:El.
  - apply is_ascii_letter_spec in El.
    unfold caseless, is_ascii in Hm.
    destruct (N.ltb_spec x 128); [|lia]. apply N.eqb_eq in Hm.
    destruct (ascii_lower_spec x) as [[? Ex]|[? Ex]];
      destruct (ascii_lower_spec c) as [[? Ec]|[? Ec]];
      rewrite Ex, Ec in Hm; lia.
  - subst x. simpl in Hc.
    rewrite !orb_true_iff, !N.eqb_eq in Hc. lia.
Qed.

(** After its first character a plain decimal holds no minus sign. *)
Lemma plain_decimal_tail (t : str) (c0 : char) (rest : str) :
  is_plain_decimal ucd t -> t = c0 :: rest -> ~ In 45%N rest.
Proof.
  intros (neg & ip & fp & si & sf & Hip & Hfp & Hne & ->) E Hin.
  assert (Hbody : ~ In 45%N
            (si ++ match fp with [] => [] | _ :: _ => 46%N :: sf end)).
  { intros [H|H]%in_app_or.
    - apply (digits_of_In ucd si ip _ Hip) in H.
      apply isdecimal_decimal in H as [d H].
      apply (decimal_not_ascii ucd _ _ H). lia.
    - destruct fp as [|d fp]; [easy|]. destruct H as [H|H]; [discriminate|].
      apply (digits_of_In ucd sf _ _ Hfp) in H.
      apply isdecimal_decimal in H as [d' H].
      apply (decimal_not_ascii ucd _ _ H). lia. }
  destruct neg; simpl in E.
  - injection E as _ <-. contradiction.
  - apply Hbody. rewrite E. now right.
Qed.

Lemma in_middle (x : char) (pre rest post : str) :
  In x (pre ++ (x :: rest) ++ post).
Proof. apply in_or_app. right. now left. Qed.

(** The first character of a match of a literal word. *)
Ltac word_head H :=
  let H' := fresh "H" in
  pose proof (fun c e => matches_StrI_head _ _ c e H) as H';
  specialize (H' _ eq_refl); clear H;
  destruct H' as (? & ? & -> & H).

(** Neither pattern of [app1.py] is found in a plain decimal made of ASCII
    characters. *)
Lemma ascii_plain_not_suspicious (t : str) :
  Forall (fun c => is_ascii c = true) t ->
  is_plain_decimal ucd t -> suspicious ucd t = false.
Proof.
  intros Hascii Hplain.
  assert (Hhead : forall c pre x rest post,
            t = pre ++ (x :: rest) ++ post ->
            foreign_char c = true -> head_matches ucd c x -> False).
  { intros c pre x rest post -> Hc Hm.
    rewrite Forall_forall in Hascii.
    apply (foreign_not_plain c x); auto.
    - apply Hascii, list_elem_of_In, in_middle.
    - destruct (plain_decimal_chars ucd _ x Hplain (in_middle x pre rest post))
        as [H|[H|H]]; unfold plain_char; auto. }
  assert (Hdash : forall pre post,
            t = pre ++ [45%N; 45%N] ++ post -> False).
  { intros pre post E. destruct pre as [|c0 pre]; simpl in E.
    - apply (plain_decimal_tail t _ _ Hplain E). now left.
    - apply (plain_decimal_tail t _ _ Hplain E).
      apply in_or_app. right. now left. }
  destruct (suspicious ucd t) eqn:Es; [exfalso|reflexivity].
  unfold suspicious in Es. apply orb_true_iff in Es as [Es|Es];
    apply search_matches in Es as (pre & mid & post & E & Hm).
  - unfold App1.xss_pattern in Hm.
    apply matches_alt in Hm as [H|Hm].
    { apply matches_sym_inv in H as (x & -> & Hx).
      rewrite Forall_forall in Hascii.
      assert (Hin : In x t) by (rewrite E; apply in_middle).
      destruct (plain_decimal_chars ucd _ x Hplain Hin)
        as [Hd|[->| ->]]; try discriminate.
      apply isdecimal_decimal in Hd as [d Hd].
      apply decimal_ascii in Hd.
      assert (Hxa : is_ascii x = true)
        by (apply Hascii, list_elem_of_In, Hin).
      unfold is_ascii in Hxa. apply N.ltb_lt in Hxa.
      repeat (apply orb_true_iff in Hx as [Hx|Hx]);
        apply N.eqb_eq in Hx; lia. }
    repeat (apply matches_alt in Hm as [H|Hm];
            [word_head H; refine (Hhead _ pre _ _ post E _ H); reflexivity|]).
    word_head Hm. refine (Hhead _ pre _ _ post E _ Hm); reflexivity.
  - unfold App1.sql_pattern in Hm.
    apply matches_alt in Hm as [H|Hm].
    { apply matches_two_dashes in H as ->. exact (Hdash pre post E). }
    repeat (apply matches_alt in Hm as [H|Hm];
            [word_head H; refine (Hhead _ pre _ _ post E _ H); reflexivity|]).
    word_head Hm. refine (Hhead _ pre _ _ post E _ Hm); reflexivity.
Qed.

End GuardFacts.

(** X2: the two guards of [app1.py] never cost a number: whatever the
    validator of [app1.py] accepts, the validator of [app.py] accepts with
    the same value, and on an input whose trimmed form is made of ASCII
    characters the converse holds as well. *)
Theorem X2_guards_spare_numbers (ucd : UnicodeData) (raw : str)
    (v : float64) :
  (App1.validate_kwh_input ucd raw = accept v ->
   App.validate_kwh_input ucd raw = accept v) /\
  (Forall (fun c => is_ascii c = true) (strip raw) ->
   App.validate_kwh_input ucd raw = accept v ->
   App1.validate_kwh_input ucd raw = accept v).
Proof.
  split.
  - intros H. destruct (suspicious ucd (strip raw)) eqn:Es.
    + destruct (app1_validate_contract ucd raw) as (H1 & H2 & _).
      destruct (strip raw) as [|c t] eqn:Et.
      * rewrite H1 in H by reflexivity. discriminate.
      * rewrite H2 in H by (try discriminate; exact Es). discriminate.
    + now rewrite <- (validators_agree ucd raw Es).
  - intros Hascii H.
    rewrite (validators_agree ucd raw); [exact H|].
    apply ascii_plain_not_suspicious; [exact Hascii|].
    destruct (app_validate_cases ucd raw)
      as [E | [E | (neg & ip & fp & Hp & _)]];
      try (rewrite E in H; discriminate).
    now exists neg, ip, fp.
Qed.

(** X2 at the input [12.5]. *)
Lemma X2_witness :
  App1.validate_kwh_input ascii_only (of_ascii "12.5")
  = accept (of_decimal false 125 (-1)).
Proof.
  apply (proj2 (X2_guards_spare_numbers ascii_only (of_ascii "12.5")
                  (of_decimal false 125 (-1)))).
  - vm_compute. repeat constructor.
  - vm_compute. reflexivity.
Defined.

(** ** The sign of a parsed number *)

Section SignFacts.

(** Rounding keeps the sign it is given. *)
Lemma binary_round_aux_sign (s : bool) (m e : Z) (l : location) :
  0 <= m ->
  binary_round_aux prec emax s m e l = S754_zero s \/
  binary_round_aux prec emax s m e l = S754_infinity s \/
  exists m' e', binary_round_aux prec emax s m e l = S754_finite s m' e'.
Proof.
  intros H. unfold binary_round_aux.
  pose proof (shr_fexp_nonneg m e l H) as H1.
  destruct (shr_fexp prec emax m e l) as [mrs' e'] eqn:E1. simpl in H1.
  pose proof (shr_fexp_nonneg _ e' loc_Exact
    (round_nearest_even_nonneg _ (loc_of_shr_record mrs') H1)) as H2.
  destruct (shr_fexp prec emax _ e' loc_Exact) as [mrs'' e''] eqn:E2.
  simpl in H2.
  destruct (shr_m mrs'') as [|p|p]; [now left| |lia].
  destruct (e'' <=? emax - prec); [right; right; eauto|right; now left].
Qed.

Lemma of_decimal_sign (neg : bool) (mant : N) (exp10 : Z) :
  of_decimal neg mant exp10 = S754_zero neg \/
  of_decimal neg mant exp10 = S754_infinity neg \/
  exists m e, of_decimal neg mant exp10 = S754_finite neg m e.
Proof.
  unfold of_decimal.
  destruct (mant * 10 ^ Z.to_N exp10)%N as [|num]; [now left|].
  destruct (10 ^ Z.to_N (- exp10))%N as [|den]; [now left|].
  unfold SFdiv.
  destruct (SFdiv_core_binary prec emax (Z.pos num) 0 (Z.pos den) 0)
    as [[mz ez] lz] eqn:E.
  rewrite xorb_false_r. apply binary_round_aux_sign.
  unfold SFdiv_core_binary in E.
  set (s := (0 - 0 - _)) in E.
  set (m' := match s with Z0 => _ | Zpos _ => _ | Zneg _ => _ end) in E.
  assert (Hm' : 0 <= m').
  { subst m'. destruct s; try lia. apply Z.shiftl_nonneg. lia. }
  pose proof (Z_div_mod m' (Z.pos den) ltac:(lia)) as Hdiv.
  destruct (Z.div_eucl m' (Z.pos den)) as [q r].
  injection E as <- _ _. nia.
Qed.

(** A decimal written with a minus sign is at most zero, one written
    without is at least zero. *)
Lemma of_decimal_negative (mant : N) (exp10 : Z) :
  leb (of_decimal true mant exp10) zero = true.
Proof.
  destruct (of_decimal_sign true mant exp10) as [-> | [-> | (m & e & ->)]];
    reflexivity.
Qed.

Lemma of_decimal_nonnegative (mant : N) (exp10 : Z) :
  leb zero (of_decimal false mant exp10) = true.
Proof.
  destruct (of_decimal_sign false mant exp10) as [-> | [-> | (m & e & ->)]];
    reflexivity.
Qed.

End SignFacts.

(** X3: a trimmed input that is a plain decimal with a leading minus sign
    is always rejected with [Value must be greater than 0.], whatever its
    digits (minus zero and numbers below -99999 included): by the validator
    of [app.py], and by the validator of [app1.py] unless one of its two
    guards answers first. *)
Theorem X3_minus_sign_rejected (ucd : UnicodeData) (raw : str)
    (ip fp : list N) :
  plain_decimal ucd (strip raw) true ip fp ->
  App.validate_kwh_input ucd raw = reject "Value must be greater than 0." /\
  (suspicious ucd (strip raw) = false ->
   App1.validate_kwh_input ucd raw = reject "Value must be greater than 0.").
Proof.
  intros Hp.
  assert (H : App.validate_kwh_input ucd raw
              = reject "Value must be greater than 0.").
  { destruct (app_validate_contract ucd raw) as (_ & _ & _ & H4).
    destruct (H4 true ip fp Hp) as [_ ->].
    unfold range_outcome, decimal_value.
    now rewrite of_decimal_negative. }
  split; [exact H|].
  intros Hs. now rewrite (validators_agree ucd raw Hs).
Qed.

(** X3 at the input [-0.0]. *)
Lemma X3_witness :
  App.validate_kwh_input ascii_only (of_ascii "-0.0")
  = reject "Value must be greater than 0.".
Proof.
  refine (proj1 (X3_minus_sign_rejected ascii_only (of_ascii "-0.0")
                   [0%N] [0%N] _)).
  exists [48%N], [48%N].
  assert (H : digits_of ascii_only [48%N] [0%N])
    by (constructor; [reflexivity|constructor]).
  split; [exact H|]. split; [exact H|].
  split; [discriminate|reflexivity].
Defined.

(** ** The history of a calculator over several calls *)

(** X4: a [calculate] that raises (a value that is not numeric or lies
    outside the bounds of the calculator) leaves the store as it was: no
    record is appended, and [get_history] afterwards returns a list with the
    items the history had before. *)
Theorem X4_failed_calculate_leaves_no_trace (h h' : gmap loc App1.obj)
    (self : loc) (i : App1.instance) (items : list loc) (value : pyval)
    (now : datetime) (e : exn) :
  has_calculator h self i items ->
  App1.calculate self value now h = (inl e, h') ->
  h' = h /\
  exists copy h1,
    App1.get_history self h' = (inr copy, h1) /\
    h1 !! copy = Some (App1.OList items).
Proof.
  intros W H.
  assert (E : h' = h) by exact (calculate_raises _ _ _ _ _ _ _ _ W H).
  subst h'. split; [reflexivity|].
  eexists _, _. split; [exact (get_history_spec h self i items W)|].
  apply lookup_insert_eq.
Qed.

(** X4 at a new water calculator and the value 0, which it refuses. *)
Lemma X4_witness :
  let h := snd (App1.WaterEmissionCalculator ∅) in
  snd (App1.calculate 2%positive (PyInt 0) 0 h) = h.
Proof.
  intros h.
  refine (proj1 (X4_failed_calculate_leaves_no_trace h
            (snd (App1.calculate 2%positive (PyInt 0) 0 h)) 2%positive
            {| App1._emission_factor := of_decimal false 15 (-4);
               App1._calculation_history := 1%positive;
               App1.own := App1.Water |}
            [] (PyInt 0) 0 (ValueError "Value must be positive") _ _)).
  - split; vm_compute; reflexivity.
  - vm_compute; reflexivity.
Defined.

Section CallSequences.

Import App1.

Lemma calculate_each_length (self : loc) (calls : list (pyval * datetime))
    (h : gmap loc obj) :
  length (fst (calculate_each self calls h)) = length calls.
Proof.
  revert h. induction calls as [|[value now] rest IH]; intros h; simpl.
  - reflexivity.
  - destruct (calculate self value now h) as [r h1].
    specialize (IH h1).
    destruct (calculate_each self rest h1) as [rs h2]. simpl in *.
    now rewrite IH.
Qed.

(** The history after a sequence of calls: the one before, followed by one
    record per call that returned, in the order of the calls. *)
Lemma calculate_each_spec (self : loc) (i : instance)
    (calls : list (pyval * datetime)) (h : gmap loc obj)
    (items : list loc) :
  has_calculator h self i items ->
  exists news,
    has_calculator (snd (calculate_each self calls h)) self i
      (items ++ news) /\
    Forall2
      (fun r s =>
         snd (calculate_each self calls h) !! r
         = Some (ODict (record_of i s.1.1 s.2 s.1.2)))
      news (successes calls (fst (calculate_each self calls h))) /\
    (forall l o, h !! l = Some o -> l <> _calculation_history i ->
                 snd (calculate_each self calls h) !! l = Some o).
Proof.
  revert h items.
  induction calls as [|[value now] rest IH]; intros h items W; simpl.
  - exists []. rewrite app_nil_r. split; [exact W|]. split; [constructor|].
    auto.
  - destruct (calculate self value now h) as [[e|res] h1] eqn:Ec.
    + assert (h1 = h) by exact (calculate_raises _ _ _ _ _ _ _ _ W Ec).
      subst h1. destruct (IH h items W) as (news & W' & Hrec & Hframe).
      destruct (calculate_each self rest h) as [rs h2]. simpl in *.
      exists news. auto.
    + destruct (calculate_appends h h1 self i items value now res W Ec)
        as (r & Hr & Hdict & W1 & Hframe1).
      destruct (IH h1 (items ++ [r]) W1) as (news & W' & Hrec & Hframe).
      destruct (calculate_each self rest h1) as [rs h2]. simpl in *.
      assert (Hrh : r <> _calculation_history i).
      { intros ->. destruct W as [_ Hl]. congruence. }
      exists (r :: news). rewrite <- app_assoc in W'. simpl in W'.
      split; [exact W'|]. split.
      * constructor; [|exact Hrec]. simpl. now apply Hframe.
      * intros l o Hl Hne. apply Hframe; [|exact Hne].
        rewrite Hframe1; auto. intros ->. congruence.
Qed.

End CallSequences.

(** X5: over any sequence of calls of [calculate] on one calculator, the
    history is append-only and logs exactly the calls that returned: after
    the calls it is the history before, followed by one new record per
    call that returned, in call order, each holding the input, the output
    and the time of its call; every object that was in the store before,
    the earlier records included, is unchanged. *)
Theorem X5_history_logs_successful_calls (self : loc) (i : App1.instance)
    (calls : list (pyval * datetime)) (h : gmap loc App1.obj)
    (items : list loc) :
  has_calculator h self i items ->
  let rs := fst (calculate_each self calls h) in
  let h' := snd (calculate_each self calls h) in
  length rs = length calls /\
  exists news,
    has_calculator h' self i (items ++ news) /\
    Forall2
      (fun r s => h' !! r = Some (App1.ODict (record_of i s.1.1 s.2 s.1.2)))
      news (successes calls rs) /\
    (forall l o, h !! l = Some o -> l <> App1._calculation_history i ->
                 h' !! l = Some o).
Proof.
  intros W. split; [apply calculate_each_length|].
  now apply calculate_each_spec.
Qed.

(** X5 at a new electricity calculator and the calls with 100, with -1
    (which raises) and with 2.5. *)
Lemma X5_witness :
  let h := snd (App1.ElectricityEmissionCalculator ∅) in
  let calls := [(PyInt 100, 1); (PyInt (-1), 2);
                (PyFloat (of_decimal false 25 (-1)), 3)] in
  length (fst (calculate_each 2%positive calls h)) = 3%nat.
Proof.
  intros h calls.
  refine (proj1 (X5_history_logs_successful_calls 2%positive
            {| App1._emission_factor := of_decimal false 37 (-2);
               App1._calculation_history := 1%positive;
               App1.own := App1.Electricity 99999 0 |}
            calls h [] _)).
  split; vm_compute; reflexivity.
Defined.

(** X6: [get_annual_estimate] on an electricity calculator returns twelve
    times the monthly emission, and what it appends to the history is the
    record of the monthly calculation (the input and the monthly output),
    not of the annual figure; when the monthly calculation raises, nothing
    is appended. *)
Theorem X6_annual_estimate (h h' : gmap loc App1.obj) (self : loc)
    (i : App1.instance) (items : list loc) (max_kwh min_kwh : Z)
    (monthly_kwh : pyval) (now : datetime) (out : result float64) :
  has_calculator h self i items ->
  App1.own i = App1.Electricity max_kwh min_kwh ->
  App1.get_annual_estimate self monthly_kwh now h = (out, h') ->
  match out with
  | inr annual =>
      exists monthly r,
        times monthly_kwh (App1._emission_factor i) = inr monthly /\
        annual = mul monthly (of_lit 12) /\
        h !! r = None /\
        h' !! r = Some (App1.ODict (record_of i monthly_kwh monthly now)) /\
        has_calculator h' self i (items ++ [r])
  | inl e => h' = h
  end.
Proof.
  intros W Ho H. pose proof W as [Hs Hl].
  unfold App1.get_annual_estimate in H.
  unfold App1.bind at 1 in H. unfold App1.get_instance in H.
  rewrite Hs, Ho in H. unfold App1.bind in H.
  destruct (App1.calculate self monthly_kwh now h) as [[e|monthly] h1] eqn:Ec.
  - injection H as <- <-. exact (calculate_raises _ _ _ _ _ _ _ _ W Ec).
  - unfold App1.ret in H. injection H as <- <-.
    destruct (calculate_appends h h1 self i items monthly_kwh now monthly
                W Ec) as (r & Hr & Hdict & W1 & _).
    exists monthly, r. repeat split; try assumption; try apply W1.
    rewrite (calculate_spec h self i items monthly_kwh now W) in Ec.
    destruct (App1.validate_input_of i monthly_kwh); [discriminate|].
    destruct (times monthly_kwh (App1._emission_factor i));
      [discriminate|]. now injection Ec as -> _.
Qed.

(** X6 at a new electricity calculator and 100 kWh a month: 444.0. *)
Lemma X6_witness :
  let h := snd (App1.ElectricityEmissionCalculator ∅) in
  let h' := snd (App1.get_annual_estimate 2%positive (PyInt 100) 0 h) in
  let i := {| App1._emission_factor := of_decimal false 37 (-2);
              App1._calculation_history := 1%positive;
              App1.own := App1.Electricity 99999 0 |} in
  exists monthly r,
    times (PyInt 100) (App1._emission_factor i) = inr monthly /\
    of_lit 444 = mul monthly (of_lit 12) /\
    h !! r = None /\
    h' !! r = Some (App1.ODict (record_of i (PyInt 100) monthly 0)) /\
    has_calculator h' 2%positive i ([] ++ [r]).
Proof.
  intros h h' i.
  refine (X6_annual_estimate h h' 2%positive i [] 99999 0 (PyInt 100) 0
            (inr (of_lit 444)) _ _ _).
  - split; vm_compute; reflexivity.
  - reflexivity.
  - vm_compute; reflexivity.
Defined.

(** ** The views and the rows they write *)

Section ViewFacts.

Context (ucd : UnicodeData).

(** What an outcome with a true flag holds. *)
Lemma accepted_outcome (flag : bool) (msg : option string)
    (val : option float64) :
  well_formed_outcome (flag, msg, val) ->
  if flag
  then msg = None /\
       exists v, val = Some v /\
                 ltb zero v = true /\ leb v (of_lit 99999) = true
  else val = None.
Proof.
  intros (H1 & H2 & H3). destruct flag.
  - assert (Hm : msg = None) by now apply H1.
    split; [exact Hm|].
    destruct (proj1 H2 Hm) as [v ->]. exists v. split; [reflexivity|].
    now apply H3.
  - destruct val as [v|]; [|reflexivity].
    assert (Hm : msg = None) by (apply H2; eauto).
    apply H1 in Hm. discriminate.
Qed.

(** The electricity calculator of the view accepts what the validator
    accepted. *)
Lemma electricity_attempt_accepted (kwh : float64) (now : datetime) :
  ltb zero kwh = true -> leb kwh (of_lit 99999) = true ->
  fst (attempt App1.ElectricityEmissionCalculator (PyFloat kwh) now ∅)
  = inr (mul kwh (spec_factor Cat_electricity)).
Proof.
  intros H1 H2.
  destruct (new_calculator_spec Cat_electricity ∅)
    as (self & i & h' & E & W & Hf & Ho).
  rewrite (attempt_spec App1.ElectricityEmissionCalculator ∅ h' self i
             (PyFloat kwh) now E W).
  unfold App1.validate_input_of. rewrite Ho.
  now rewrite (accepted_passes_validation kwh H1 H2), Hf.
Qed.

End ViewFacts.

(** X7: the view [calculator] of [app.py] never fails on its own
    arithmetic, and it writes to the history store only by appending at
    most one row: a row is appended only on a POST by a logged-in user
    whose input the validator accepted, it belongs to that user, its
    consumption lies in (0, 99999], its result is the consumption times
    0.37, and it is the result the page shows. Hence every row the view
    ever writes keeps these bounds. *)
Theorem X7_app_rows (ucd : UnicodeData) (session_user_id : option Z)
    (method : App.http_method) (form_kwh : option str) (db_ok : bool)
    (store : list App.row) :
  let '(pg, _, store') :=
    App.calculator ucd session_user_id method form_kwh db_ok store in
  pg <> App.ServerError /\
  (store' = store \/
   exists r,
     store' = store ++ [r] /\
     session_user_id = Some (App.row_user_id r) /\
     app_row_ok r /\
     pg = App.Calculator_html None (Some (App.row_co2_result r))
            (strip (default [] form_kwh)) /\
     db_ok = true /\ method = App.POST) /\
  (Forall app_row_ok store -> Forall app_row_ok store').
Proof.
  unfold App.calculator.
  destruct session_user_id as [uid|]; [|now repeat split; auto].
  destruct method; [now repeat split; auto|].
  pose proof (proj1 (validators_well_formed ucd (strip (default [] form_kwh))))
    as Hwf.
  destruct (App.validate_kwh_input ucd (strip (default [] form_kwh)))
    as [[flag msg] val].
  apply accepted_outcome in Hwf.
  destruct flag; simpl.
  - destruct Hwf as (-> & v & -> & H1 & H2).
    unfold App.save_calculation. destruct db_ok.
    + assert (Hrow : app_row_ok
                {| App.row_user_id := uid; App.row_kwh_input := v;
                   App.row_co2_result := App.calculate_co2_emission v |})
        by (repeat split; assumption).
      split; [discriminate|]. split.
      * right. eexists. split; [reflexivity|]. repeat split; assumption.
      * intros Hs. apply Forall_app. split; [exact Hs|].
        constructor; [exact Hrow|constructor].
    + split; [discriminate|]. split; auto.
  - split; [discriminate|]. split; auto.
Qed.

(** X8: the view [calculator] of [app1.py], when the write of the response
    time goes through, always returns a page; and whenever it returns, the
    history store is as before or has one more row, which belongs to the
    logged-in user, names the category [electricity], has a consumption in
    (0, 99999] and its product with 0.37 as result, the result the page
    shows. *)
Theorem X8_app1_rows (ucd : UnicodeData) (session_user_id : option Z)
    (method : App1.http_method) (form_kwh : option str)
    (db_ok metrics_ok : bool) (now : datetime) (store : list App1.row) :
  (metrics_ok = true ->
   exists out,
     App1.calculator ucd session_user_id method form_kwh db_ok metrics_ok
       now store = inr out) /\
  (forall pg fl store',
     App1.calculator ucd session_user_id method form_kwh db_ok metrics_ok
       now store = inr (pg, fl, store') ->
     (store' = store \/
      exists r,
        store' = store ++ [r] /\
        session_user_id = Some (App1.row_user_id r) /\
        app1_row_ok r /\
        pg = App1.Calculator_html None (Some (App1.row_co2_result r))
               (strip (default [] form_kwh)) /\
        db_ok = true /\ method = App1.POST) /\
     (Forall app1_row_ok store -> Forall app1_row_ok store')).
Proof.
  unfold App1.calculator.
  destruct session_user_id as [uid|];
    [|split; [eauto|intros pg fl store' [= <- <- <-]; auto]].
  unfold App1.calculator_view.
  destruct method.
  { unfold App1.monitor_performance. split.
    - intros ->. eauto.
    - destruct metrics_ok; [|discriminate].
      intros pg fl store' [= <- <- <-]. auto. }
  pose proof (proj2 (validators_well_formed ucd (strip (default [] form_kwh))))
    as Hwf.
  destruct (App1.validate_kwh_input ucd (strip (default [] form_kwh)))
    as [[flag msg] val].
  apply accepted_outcome in Hwf.
  destruct flag; simpl negb; cbv iota.
  - destruct Hwf as (-> & v & -> & H1 & H2).
    pose proof (electricity_attempt_accepted v now H1 H2) as Ha.
    unfold attempt in Ha. rewrite Ha.
    unfold App1.save_calculation, App1.monitor_performance.
    split.
    + intros ->. destruct db_ok; eauto.
    + destruct metrics_ok; [|destruct db_ok; discriminate].
      destruct db_ok; intros pg fl store' [= <- <- <-].
      * assert (Hrow : app1_row_ok
                  {| App1.row_user_id := uid;
                     App1.row_category := "electricity";
                     App1.row_kwh_input := v;
                     App1.row_co2_result :=
                       mul v (spec_factor Cat_electricity) |})
          by (repeat split; assumption).
        split.
        -- right. eexists. split; [reflexivity|].
           repeat split; assumption.
        -- intros Hs. apply Forall_app. split; [exact Hs|].
           constructor; [exact Hrow|constructor].
      * auto.
  - unfold App1.monitor_performance. split.
    + intros ->. eauto.
    + destruct metrics_ok; [|discriminate].
      intros pg fl store' [= <- <- <-]. auto.
Qed.

(** X8 at the input 500 of user 1, with both writes going through. *)
Lemma X8_witness :
  exists out,
    App1.calculator ascii_only (Some 1) App1.POST (Some (of_ascii "500"))
      true true 0 [] = inr out.
Proof.
  exact (proj1 (X8_app1_rows ascii_only (Some 1) App1.POST
                  (Some (of_ascii "500")) true true 0 []) eq_refl).
Defined.

(** ** The endpoint [/api/calculate] *)

Section ApiFacts.

Import App1.

(** What the request of a category holds under the three keys. *)
Lemma request_for_lookup (c : category) (value : pyval) :
  request_for c value !! "category"%string = Some (category_name c) /\
  request_for c value !! "value"%string = Some value /\
  request_for c value !! "vehicle_type"%string
  = match c with
    | Cat_transport v => Some (PyStr (of_ascii (vehicle_name v)))
    | _ => None
    end.
Proof.
  destruct c; unfold request_for; repeat split;
    repeat first
      [ rewrite lookup_insert_eq
      | rewrite lookup_insert_ne by discriminate
      | rewrite lookup_empty ];
    reflexivity.
Qed.

(** [validate_input] raises a [TypeError] or a [ValueError], nothing
    else. *)
Lemma validate_input_errors (i : instance) (value : pyval) (e : exn) :
  validate_input_of i value = inl e ->
  exists m, e = TypeError m \/ e = ValueError m.
Proof.
  unfold validate_input_of.
  destruct (own i) as [max_kwh min_kwh|vt|];
    unfold Electricity_validate_input, Transport_validate_input,
      Water_validate_input;
    repeat match goal with
           | |- context [if ?b then _ else _] => destruct b
           end;
    intros [= <-]; eauto.
Qed.

(** The answer of the view once the calculator is built. *)
Lemma api_calculate_built (data : gmap string pyval) (api_log_ok : bool)
    (now : datetime) (elapsed : float64) (new_calc : M loc)
    (self : loc) (i : instance) (h' : gmap loc obj) :
  let category :=
    default (PyStr (of_ascii "electricity")) (data !! "category"%string) in
  let value := default PyNone (data !! "value"%string) in
  is_none value = false ->
  select_calculator data category = Some new_calc ->
  new_calc ∅ = (inr self, h') -> has_calculator h' self i [] ->
  api_calculate_view data api_log_ok now elapsed =
  match validate_input_of i value with
  | inl e => (FailureBody (exn_message e), 400)
  | inr _ =>
      match to_float value with
      | inr f =>
          if api_log_ok
          then (SuccessBody category value
                  (round (mul f (_emission_factor i)) 2) "kg CO2e"
                  (round elapsed 4), 200)
          else (FailureBody "Internal server error", 500)
      | inl (ValueError m) | inl (TypeError m) => (FailureBody m, 400)
      | inl _ => (FailureBody "Internal server error", 500)
      end
  end.
Proof.
  intros category value Hn Hs E W. unfold api_calculate_view.
  fold category value. rewrite Hn, Hs.
  pose proof (attempt_spec new_calc ∅ h' self i value now E W) as Ha.
  unfold attempt in Ha. rewrite Ha.
  destruct (validate_input_of i value) as [e|b] eqn:Ev.
  - destruct (validate_input_errors i value e Ev) as [m [-> | ->]];
      reflexivity.
  - unfold times. now destruct (to_float value) as [e|f].
Qed.

(** The calculator the endpoint selects for the request of a category. *)
Lemma select_for (c : category) (value : pyval) :
  select_calculator (request_for c value) (category_name c)
  = Some (new_calculator c).
Proof.
  unfold select_calculator.
  rewrite (proj2 (proj2 (request_for_lookup c value))).
  now destruct c.
Qed.

(** The answer of the view to the request of a category. *)
Lemma api_calculate_request (c : category) (value : pyval)
    (api_log_ok : bool) (now : datetime) (elapsed : float64) :
  is_none value = false ->
  api_calculate_view (request_for c value) api_log_ok now elapsed =
  match validate_for c value with
  | inl e => (FailureBody (exn_message e), 400)
  | inr _ =>
      match to_float value with
      | inr f =>
          if api_log_ok
          then (SuccessBody (category_name c) value
                  (round (mul f (spec_factor c)) 2) "kg CO2e"
                  (round elapsed 4), 200)
          else (FailureBody "Internal server error", 500)
      | inl (ValueError m) | inl (TypeError m) => (FailureBody m, 400)
      | inl _ => (FailureBody "Internal server error", 500)
      end
  end.
Proof.
  intros Hn.
  destruct (new_calculator_spec c ∅) as (self & i & h' & E & W & Hf & Ho).
  destruct (request_for_lookup c value) as (Lc & Lv & _).
  rewrite (api_calculate_built (request_for c value) api_log_ok now elapsed
             (new_calculator c) self i h').
  - rewrite Lc, Lv. simpl default.
    assert (Hv : validate_input_of i value = validate_for c value).
    { unfold validate_input_of. rewrite Ho. now destruct c. }
    now rewrite Hv, Hf.
  - now rewrite Lv.
  - rewrite Lc. apply select_for.
  - exact E.
  - exact W.
Qed.

End ApiFacts.

(** X9: a request to [/api/calculate] for a category of the enumeration
    whose value passes the [validate_input] of that category is answered,
    when the write to [api_logs] and the write of the decorator
    [monitor_performance] both go through, with the status 200 and the
    emission rounded to two decimals, the emission being the product of the
    value as a float and the factor of the category. When the write to
    [api_logs] fails and the one of the decorator goes through, the
    computed result is dropped and the answer is the status 500 with the
    message [Internal server error]. When the write of the decorator
    fails, the route raises, whatever the view had answered. *)
Theorem X9_api_success (c : category) (value : pyval) (now : datetime)
    (elapsed : float64) :
  validate_for c value = inr true ->
  exists f,
    to_float value = inr f /\
    App1.api_calculate (request_for c value) true true now elapsed
    = inr (App1.SuccessBody (category_name c) value
             (round (mul f (spec_factor c)) 2) "kg CO2e" (round elapsed 4),
           200) /\
    App1.api_calculate (request_for c value) false true now elapsed
    = inr (App1.FailureBody "Internal server error", 500) /\
    (forall api_log_ok,
       exists e,
         App1.api_calculate (request_for c value) api_log_ok false now
           elapsed = inl e).
Proof.
  intros Hv.
  destruct (validated_to_float c value Hv) as [f Hf].
  assert (Hn : is_none value = false).
  { destruct value; try reflexivity. destruct c; discriminate. }
  exists f. split; [exact Hf|].
  unfold App1.api_calculate, App1.monitor_performance.
  rewrite !(api_calculate_request c value _ now elapsed Hn), Hv, Hf.
  split; [reflexivity|]. split; [reflexivity|].
  intros api_log_ok. eauto.
Qed.

(** X9 at 250 km by bus: 250 * 0.089 = 22.25. *)
Lemma X9_witness :
  exists f,
    to_float (PyInt 250) = inr f /\
    App1.api_calculate (request_for (Cat_transport Bus) (PyInt 250)) true
      true 0 zero
    = inr (App1.SuccessBody (PyStr (of_ascii "transport")) (PyInt 250)
             (round (mul f (spec_factor (Cat_transport Bus))) 2) "kg CO2e"
             (round zero 4), 200) /\
    App1.api_calculate (request_for (Cat_transport Bus) (PyInt 250)) false
      true 0 zero
    = inr (App1.FailureBody "Internal server error", 500) /\
    (forall api_log_ok,
       exists e,
         App1.api_calculate (request_for (Cat_transport Bus) (PyInt 250))
           api_log_ok false 0 zero = inl e).
Proof.
  exact (X9_api_success (Cat_transport Bus) (PyInt 250) 0 zero eq_refl).
Defined.

(** X10: a request to [/api/calculate] for a category of the enumeration
    whose value is present and fails the [validate_input] of that category
    is answered, when the write of the decorator [monitor_performance] goes
    through, with the status 400 and the message of the exception that
    [validate_input] raised, whether or not the write to [api_logs] would
    go through; when the write of the decorator fails, the route raises. *)
Theorem X10_api_rejection (c : category) (value : pyval) (e : exn)
    (api_log_ok : bool) (now : datetime) (elapsed : float64) :
  is_none value = false ->
  validate_for c value = inl e ->
  App1.api_calculate (request_for c value) api_log_ok true now elapsed
  = inr (App1.FailureBody (exn_message e), 400) /\
  exists e',
    App1.api_calculate (request_for c value) api_log_ok false now elapsed
    = inl e'.
Proof.
  intros Hn Hv.
  unfold App1.api_calculate, App1.monitor_performance.
  rewrite (api_calculate_request c value api_log_ok now elapsed Hn), Hv.
  split; [reflexivity|]. eauto.
Qed.

(** X10 at a volume of water given as a string. *)
Lemma X10_witness :
  App1.api_calculate (request_for Cat_water (PyStr (of_ascii "12"))) true
    true 0 zero
  = inr (App1.FailureBody "Input must be numeric", 400).
Proof.
  exact (proj1 (X10_api_rejection Cat_water (PyStr (of_ascii "12"))
                  (TypeError "Input must be numeric") true 0 zero eq_refl
                  eq_refl)).
Defined.


(** ** The window of response times *)

Section MetricsFacts.

Context {A : Type}.

Lemma last_n_length (n : nat) (l : list A) :
  length (last_n n l) = Nat.min n (length l).
Proof. unfold last_n. rewrite length_skipn. lia. Qed.

Lemma last_n_short (n : nat) (l : list A) :
  (length l <= n)%nat -> last_n n l = l.
Proof.
  intros H. unfold last_n.
  now replace (length l - n)%nat with 0%nat by lia.
Qed.

(** The last items of a list are those of any of its suffixes that is long
    enough. *)
Lemma last_n_app (n : nat) (a b : list A) :
  last_n n (last_n n a ++ b) = last_n n (a ++ b).
Proof.
  destruct (Nat.le_gt_cases (length a) n) as [H|H].
  - now rewrite (last_n_short n a H).
  - unfold last_n at 1 3.
    rewrite !length_app, (last_n_length n a).
    replace (Nat.min n (length a) + length b - n)%nat with (length b) by lia.
    replace (length a + length b - n)%nat
      with (length b + (length a - n))%nat by lia.
    unfold last_n.
    rewrite <- (skipn_skipn (length b) (length a - n) (a ++ b)).
    rewrite (skipn_app (length a - n) a b).
    replace (length a - n - length a)%nat with 0%nat by lia.
    reflexivity.
Qed.

End MetricsFacts.

(** One call of [log_response_time] on a list of at most 1000 items. *)
Lemma log_response_time_last (d : float64) (times : list float64) :
  (length times <= 1000)%nat ->
  App1.log_response_time d times = last_n 1000 (times ++ [d]).
Proof.
  intros H. unfold App1.log_response_time, last_n.
  rewrite length_app. simpl length.
  destruct (Z.ltb_spec 1000 (Z.of_nat (length times + 1))) as [H1|H1].
  - replace (length times + 1 - 1000)%nat with 1%nat by lia. reflexivity.
  - replace (length times + 1 - 1000)%nat with 0%nat by lia. reflexivity.
Qed.

(** X12: [log_response_time] keeps a sliding window. Starting from a list
    of at most 1000 response times (the empty list of [__init__] is one),
    after any sequence of calls the list [metrics['response_times']] holds
    the last 1000 of the times it held or was given, in the order they came,
    so it never has more than 1000 items and an item is dropped only when
    1000 later ones came. *)
Theorem X12_response_window (times ds : list float64) :
  (length times <= 1000)%nat ->
  let logged :=
    fold_left (fun acc d => App1.log_response_time d acc) ds times in
  logged = last_n 1000 (times ++ ds) /\
  length logged = Nat.min 1000 (length times + length ds).
Proof.
  intros H logged.
  assert (E : logged = last_n 1000 (times ++ ds)).
  { subst logged. revert times H.
    induction ds as [|d ds IH]; intros times H; simpl fold_left.
    - rewrite app_nil_r. symmetry. now apply last_n_short.
    - rewrite IH.
      + rewrite (log_response_time_last d times H), last_n_app.
        now rewrite <- app_assoc.
      + rewrite (log_response_time_last d times H), last_n_length. lia. }
  split; [exact E|].
  now rewrite E, last_n_length, length_app.
Qed.

(** X12 at three calls on the empty list. *)
Lemma X12_witness :
  fold_left (fun acc d => App1.log_response_time d acc)
    [of_lit 1; of_lit 2; of_lit 3] []
  = last_n 1000 ([] ++ [of_lit 1; of_lit 2; of_lit 3]).
Proof.
  refine (proj1 (X12_response_window [] [of_lit 1; of_lit 2; of_lit 3] _)).
  simpl. lia.
Defined.

(** ** The accounts *)

Section AccountFacts.

Lemma str_eqb_eq (a b : str) : str_eqb a b = true <-> a = b.
Proof. unfold str_eqb. case_decide; [tauto|]. split; [discriminate|tauto]. Qed.

Lemma str_eqb_refl (a : str) : str_eqb a a = true.
Proof. now apply str_eqb_eq. Qed.

Lemma str_eqb_neq (a b : str) : str_eqb a b = false <-> a <> b.
Proof.
  unfold str_eqb. case_decide; [|tauto]. split; [discriminate|tauto].
Qed.

(** What the two queries return. *)
Lemma select_none (name mail : str) (users : list user) :
  select_by_username_or_email name mail users = None ->
  forall v, In v users -> username v <> name /\ email v <> mail.
Proof.
  intros H v Hv. apply (find_none _ _ H) in Hv.
  apply orb_false_iff in Hv as [H1 H2].
  now rewrite !str_eqb_neq in *.
Qed.

Lemma select_by_username_app (name : str) (users : list user) (u : user) :
  (forall v, In v users -> username v <> name) ->
  username u = name ->
  select_by_username name (users ++ [u]) = Some u.
Proof.
  intros Hnone Hu. unfold select_by_username.
  induction users as [|v users IH]; simpl.
  - now rewrite Hu, str_eqb_refl.
  - assert (Hv : str_eqb (username v) name = false).
    { apply str_eqb_neq, Hnone. now left. }
    rewrite Hv. apply IH. intros w Hw. apply Hnone. now right.
Qed.

Lemma select_by_username_some (name : str) (users : list user) (u : user) :
  select_by_username name users = Some u ->
  In u users /\ username u = name.
Proof.
  intros H. apply find_some in H as [H1 H2].
  now rewrite str_eqb_eq in H2.
Qed.

(** With unique usernames the query has one answer at most. *)
Lemma select_by_username_unique (name : str) (users : list user)
    (u : user) :
  NoDup (List.map username users) -> In u users -> username u = name ->
  select_by_username name users = Some u.
Proof.
  intros Hnd Hin Hu. unfold select_by_username.
  induction users as [|v users IH]; [easy|].
  simpl in Hnd |- *. apply NoDup_cons in Hnd as [Hv Hnd].
  destruct Hin as [->|Hin].
  - now rewrite Hu, str_eqb_refl.
  - destruct (str_eqb (username v) name) eqn:E.
    + apply str_eqb_eq in E. exfalso. apply Hv, list_elem_of_In.
      rewrite E, <- Hu. now apply in_map.
    + now apply IH.
Qed.

Lemma unique_accounts_add (users : list user) (u : user) :
  new_account users u -> unique_accounts users ->
  unique_accounts (users ++ [u]).
Proof.
  intros (_ & _ & Hnew) [H1 H2].
  assert (Hadd : forall (f : user -> str),
            (forall v, In v users -> f v <> f u) ->
            NoDup (List.map f users) ->
            NoDup (List.map f (users ++ [u]))).
  { intros f Hf Hnd. rewrite map_app. simpl.
    apply NoDup_app. split; [exact Hnd|]. split.
    - intros x Hx%list_elem_of_In Hx'%list_elem_of_In.
      destruct Hx' as [<-|[]].
      apply in_map_iff in Hx as (v & Hv & Hin).
      now apply (Hf v Hin).
    - apply NoDup_singleton. }
  split; apply Hadd; try assumption; intros v Hv; now apply Hnew.
Qed.

Lemma is_empty_false (s : str) : is_empty s = false <-> s <> [].
Proof. now destruct s. Qed.

End AccountFacts.

(** X13: the route [/register] of [app.py] leaves the table [users] as it
    is or adds one row to it; a row is added only on a POST whose answer is
    the message [Registration successful! Please log in.], it holds the
    trimmed username and email of the form and the hash of the trimmed
    password, which has six characters at least, the username and the
    email are not empty, and no row of the table had that username or that
    email. So usernames and emails stay unique in the table. *)
Theorem X13_register_keeps_accounts_unique
    (generate_password_hash : str -> str -> str)
    (method : App.http_method)
    (form_username form_email form_password form_confirm_password
       : option str)
    (db_ok : bool) (new_id : Z) (salt : str) (users : list user) :
  let '(_, fl, users') :=
    AppUsers.register generate_password_hash method form_username
      form_email form_password form_confirm_password db_ok new_id salt
      users in
  (users' = users \/
   exists u,
     users' = users ++ [u] /\ new_account users u /\
     user_id u = new_id /\
     username u = strip (default [] form_username) /\
     email u = strip (default [] form_email) /\
     password_hash u
     = generate_password_hash salt (strip (default [] form_password)) /\
     (6 <= length (strip (default [] form_password)))%nat /\
     method = App.POST /\
     fl = [(Text "Registration successful! Please log in.",
            "success"%string)]) /\
  (unique_accounts users -> unique_accounts users').
Proof.
  unfold AppUsers.register.
  destruct method; [now split; auto|].
  set (name := strip (default [] form_username)).
  set (mail := strip (default [] form_email)).
  set (password := strip (default [] form_password)).
  destruct (is_empty name) eqn:E1; [now split; auto|].
  destruct (is_empty mail) eqn:E2; [now split; auto|].
  destruct (is_empty password) eqn:E3; [now split; auto|].
  simpl orb. cbv iota.
  destruct (negb _); [now split; auto|].
  destruct (Nat.ltb_spec (length password) 6) as [|Hlen];
    [now split; auto|].
  destruct db_ok; simpl negb; cbv iota; [|now split; auto].
  destruct (select_by_username_or_email name mail users) as [v|] eqn:Es;
    [now split; auto|].
  set (u := {| user_id := new_id; username := name; email := mail;
               password_hash := generate_password_hash salt password |}).
  assert (Hnew : new_account users u).
  { split; [now apply is_empty_false|]. split; [now apply is_empty_false|].
    exact (select_none name mail users Es). }
  split.
  - right. exists u. split; [reflexivity|]. split; [exact Hnew|].
    repeat (split; [reflexivity|]). split; [exact Hlen|].
    split; reflexivity.
  - now apply unique_accounts_add.
Qed.

(** X14: a registration that [app.py] answers with [Registration
    successful! Please log in.] can be used at once: provided
    [check_password_hash] accepts every hash that [generate_password_hash]
    makes of the same password, a login with the same username and
    password, whitespace around them aside, is answered with the
    redirection to the calculator, and the session then holds the id and
    the username of the new row. *)
Theorem X14_register_then_login
    (generate_password_hash : str -> str -> str)
    (check_password_hash : str -> str -> bool)
    (method : App.http_method)
    (form_username form_email form_password form_confirm_password
       : option str)
    (db_ok : bool) (new_id : Z) (salt : str) (users users' : list user)
    (pg : AppUsers.page) (login_username login_password : str)
    (s : session) :
  (forall salt' p,
     check_password_hash (generate_password_hash salt' p) p = true) ->
  AppUsers.register generate_password_hash method form_username
    form_email form_password form_confirm_password db_ok new_id salt users
  = (pg, [(Text "Registration successful! Please log in.",
           "success"%string)], users') ->
  strip login_username = strip (default [] form_username) ->
  strip login_password = strip (default [] form_password) ->
  AppUsers.login check_password_hash App.POST (Some login_username)
    (Some login_password) true users' s
  = (AppUsers.Redirect "calculator",
     [(Welcome_back (strip login_username), "success"%string)],
     Some (new_id, strip login_username)).
Proof.
  intros Hcheck Hreg Hu Hp.
  unfold AppUsers.register in Hreg.
  destruct method; [discriminate|].
  set (name := strip (default [] form_username)) in *.
  set (mail := strip (default [] form_email)) in *.
  set (password := strip (default [] form_password)) in *.
  destruct (is_empty name) eqn:E1; [discriminate|].
  destruct (is_empty mail) eqn:E2; [discriminate|].
  destruct (is_empty password) eqn:E3; [discriminate|].
  simpl orb in Hreg. cbv iota in Hreg.
  destruct (negb _); [discriminate|].
  destruct (length password <? 6)%nat; [discriminate|].
  destruct db_ok; simpl negb in Hreg; cbv iota in Hreg; [|discriminate].
  destruct (select_by_username_or_email name mail users) as [v|] eqn:Es;
    [discriminate|].
  injection Hreg as _ <-.
  unfold AppUsers.login. simpl default. rewrite Hu, Hp.
  fold name password. rewrite E1, E3. simpl.
  rewrite (select_by_username_app name users _); [|
    intros w Hw; exact (proj1 (select_none name mail users Es w Hw))|
    reflexivity].
  simpl. now rewrite Hcheck.
Qed.

(** X14 with a hash that is the password itself, on the empty table. *)
Lemma X14_witness :
  AppUsers.login str_eqb App.POST (Some (of_ascii " ada "))
    (Some (of_ascii "secret1")) true
    [ {| user_id := 1; username := of_ascii "ada";
         email := of_ascii "ada@example.org";
         password_hash := of_ascii "secret1" |} ] None
  = (AppUsers.Redirect "calculator",
     [(Welcome_back (strip (of_ascii " ada ")), "success"%string)],
     Some (1, strip (of_ascii " ada "))).
Proof.
  refine (X14_register_then_login (fun _ p => p) str_eqb App.POST
            (Some (of_ascii "ada")) (Some (of_ascii "ada@example.org"))
            (Some (of_ascii "secret1")) (Some (of_ascii "secret1"))
            true 1 [] [] _ (AppUsers.Redirect "login")
            (of_ascii " ada ") (of_ascii "secret1") None _ _ _ _).
  - intros _ p. apply str_eqb_refl.
  - reflexivity.
  - reflexivity.
  - reflexivity.
Defined.

(** X15: the route [/login] of [app.py] writes to the session only when it
    found a row of the table [users] with the trimmed username of the form
    whose stored hash [check_password_hash] accepts for the trimmed
    password; it then stores the id and the username of that row and
    redirects to the calculator. In every other case the page is the login
    page and the session is as before. When usernames are unique in the
    table, a password that the hash of the account of that name does not
    accept never opens a session. *)
Theorem X15_login_needs_credentials
    (check_password_hash : str -> str -> bool)
    (method : App.http_method) (form_username form_password : option str)
    (db_ok : bool) (users : list user) (s : session) :
  let name := strip (default [] form_username) in
  let password := strip (default [] form_password) in
  let '(pg, _, s') :=
    AppUsers.login check_password_hash method form_username form_password
      db_ok users s in
  ((pg = AppUsers.Login_html /\ s' = s) \/
   (pg = AppUsers.Redirect "calculator" /\
    exists u,
      In u users /\ username u = name /\ name <> [] /\
      check_password_hash (password_hash u) password = true /\
      s' = Some (user_id u, username u))) /\
  (NoDup (List.map username users) ->
   forall u, In u users -> username u = name ->
             check_password_hash (password_hash u) password = false ->
             pg = AppUsers.Login_html /\ s' = s).
Proof.
  intros name password. unfold AppUsers.login. fold name password.
  destruct method; [now split; auto|].
  destruct (is_empty name) eqn:E1; [now split; auto|].
  destruct (is_empty password) eqn:E3; [now split; auto|].
  simpl orb. cbv iota.
  destruct db_ok; simpl negb; cbv iota; [|now split; auto].
  destruct (select_by_username name users) as [u|] eqn:Es;
    [|now split; auto].
  destruct (select_by_username_some name users u Es) as [Hin Hu].
  destruct (check_password_hash (password_hash u) password) eqn:Ec.
  - split.
    + right. split; [reflexivity|]. exists u.
      repeat split; try assumption. now apply is_empty_false.
    + intros Hnd v Hv Hvn Hvc.
      rewrite (select_by_username_unique name users v Hnd Hv Hvn) in Es.
      injection Es as ->. congruence.
  - split; auto.
Qed.

(** ** The check of [register] in [app1.py] *)

Section RegisterFacts.

Context (ucd : UnicodeData).

(** A lower-case ASCII letter of a pattern compiled with [re.IGNORECASE]
    matches the character itself and its upper-case form. *)
Lemma caseless_lower (c x : char) :
  (97 <= c <= 122)%N -> ascii_lower x = c -> caseless ucd c x = true.
Proof.
  intros Hc Hx. unfold caseless, is_ascii.
  assert (Hlow : ascii_lower c = c).
  { destruct (ascii_lower_spec c) as [[? _]|[_ E]]; [lia|exact E]. }
  destruct (ascii_lower_spec x) as [[? E]|[_ E]]; rewrite E in Hx.
  - destruct (N.ltb_spec x 128); [|lia].
    rewrite E, Hlow. apply N.eqb_eq. exact Hx.
  - subst x. destruct (N.ltb_spec c 128); [|lia].
    now rewrite N.eqb_refl.
Qed.

Lemma matches_LitI_lower (c x : char) :
  (97 <= c <= 122)%N -> ascii_lower x = c -> matches (LitI ucd c) [x].
Proof.
  intros Hc Hx. unfold LitI.
  assert (Hl : is_ascii_letter c = true)
    by (apply is_ascii_letter_spec; now right).
  rewrite Hl. constructor. now apply caseless_lower.
Qed.

(** A word of lower-case ASCII letters in a pattern compiled with
    [re.IGNORECASE] matches every way to mix the cases of the word. *)
Lemma matches_StrI_lower (s w : str) :
  s <> [] -> Forall (fun c => (97 <= c <= 122)%N) s ->
  List.map ascii_lower w = s -> matches (StrI ucd s) w.
Proof.
  revert w. induction s as [|c s IH]; intros w Hne Hall Hw; [easy|].
  destruct w as [|x w]; [discriminate|]. injection Hw as Hx Hw.
  apply Forall_cons in Hall as [Hc Hall].
  destruct s as [|c2 s].
  - destruct w; [|discriminate]. simpl. now apply matches_LitI_lower.
  - change (StrI ucd (c :: c2 :: s))
      with (Cat (LitI ucd c) (StrI ucd (c2 :: s))).
    change (x :: w) with ([x] ++ w). constructor.
    + now apply matches_LitI_lower.
    + now apply IH.
Qed.

(** What the check lets through. *)
Lemma register_pattern_markup (s : str) (c : char) :
  search (App1Users.register_pattern ucd) s = false ->
  In c s -> markup_char c = false.
Proof.
  intros Hs Hin. destruct (markup_char c) eqn:E; [|reflexivity].
  apply in_split in Hin as (pre & post & ->).
  assert (H : search (App1Users.register_pattern ucd) (pre ++ c :: post)
              = true); [|congruence].
  apply search_matches. exists pre, [c], post. split; [reflexivity|].
  apply MAltL. now constructor.
Qed.

Lemma register_pattern_script (s w : str) :
  search (App1Users.register_pattern ucd) s = false ->
  spells_script w -> ~ occurs_in w s.
Proof.
  intros Hs Hw (pre & post & ->).
  assert (H : search (App1Users.register_pattern ucd) (pre ++ w ++ post)
              = true); [|congruence].
  apply search_matches. exists pre, w, post. split; [reflexivity|].
  apply MAltR. apply matches_StrI_lower; [discriminate| |exact Hw].
  set (word := of_ascii "script"). vm_compute in word. subst word.
  repeat (constructor; [lia|]). constructor.
Qed.

End RegisterFacts.

(** X16: the route [/register] of [app1.py] leaves the table [users] as it
    is or adds one row to it, whether or not its decorator raises
    afterwards. A row it adds holds the trimmed username and email of the
    form; neither is empty, no row of the table had either, and the two
    together hold none of the characters [<], [>], double quote and single
    quote and nowhere the word [script], in whatever mix of upper and lower
    case. So usernames and emails stay unique in the table. *)
Theorem X16_app1_register_guard (ucd : UnicodeData)
    (generate_password_hash : str -> str -> str)
    (method : App1.http_method)
    (form_username form_email form_password form_confirm_password
       : option str)
    (db_ok metrics_ok : bool) (new_id : Z) (salt : str)
    (users : list user) :
  let users' :=
    snd (App1Users.register ucd generate_password_hash method form_username
           form_email form_password form_confirm_password db_ok metrics_ok
           new_id salt users) in
  (users' = users \/
   exists u,
     users' = users ++ [u] /\ new_account users u /\
     username u = strip (default [] form_username) /\
     email u = strip (default [] form_email) /\
     (forall c, In c (username u ++ email u) -> markup_char c = false) /\
     (forall w, spells_script w -> ~ occurs_in w (username u ++ email u))) /\
  (unique_accounts users -> unique_accounts users').
Proof.
  unfold App1Users.register, App1Users.register_view.
  destruct method; [now split; auto|].
  set (name := strip (default [] form_username)).
  set (mail := strip (default [] form_email)).
  set (password := strip (default [] form_password)).
  destruct (is_empty name) eqn:E1; [now split; auto|].
  destruct (is_empty mail) eqn:E2; [now split; auto|].
  destruct (is_empty password) eqn:E3; [now split; auto|].
  simpl orb. cbv iota.
  destruct (search (App1Users.register_pattern ucd) (name ++ mail)) eqn:Ex;
    [now split; auto|].
  destruct (negb _); [now split; auto|].
  destruct (length password <? 6)%nat; [now split; auto|].
  destruct db_ok; simpl negb; cbv iota; [|now split; auto].
  destruct (select_by_username_or_email name mail users) as [v|] eqn:Es;
    [now split; auto|].
  set (u := {| user_id := new_id; username := name; email := mail;
               password_hash := generate_password_hash salt password |}).
  assert (Hnew : new_account users u).
  { split; [now apply is_empty_false|]. split; [now apply is_empty_false|].
    exact (select_none name mail users Es). }
  simpl snd. split.
  - right. exists u. split; [reflexivity|]. split; [exact Hnew|].
    repeat (split; [reflexivity|]). split.
    + intros c. exact (register_pattern_markup ucd _ c Ex).
    + intros w. exact (register_pattern_script ucd _ w Ex).
  - now apply unique_accounts_add.
Qed.

(** X20: an account that the route [/register] of [app1.py] wrote to the
    table [users] can be used at once, also when the decorator of
    [register] raised after the view had returned and the user saw an
    error: provided [check_password_hash] accepts every hash that
    [generate_password_hash] makes of the same password, the route
    [/login], when its query and the write of its own decorator go
    through, answers the username and the password of the registration,
    whitespace around them aside, with the redirection to the calculator,
    and the session then holds the id and the username of the new row.
    When the write of the decorator of [login] fails, the route raises. *)
Theorem X20_app1_account_usable (ucd : UnicodeData)
    (generate_password_hash : str -> str -> str)
    (check_password_hash : str -> str -> bool)
    (method : App1.http_method)
    (form_username form_email form_password form_confirm_password
       : option str)
    (db_ok metrics_ok : bool) (new_id : Z) (salt : str)
    (users users' : list user)
    (answer : result (App1Users.page * list App1Users.flash))
    (login_username login_password : str) (s : session) :
  (forall salt' p,
     check_password_hash (generate_password_hash salt' p) p = true) ->
  App1Users.register ucd generate_password_hash method form_username
    form_email form_password form_confirm_password db_ok metrics_ok new_id
    salt users
  = (answer, users') ->
  users' <> users ->
  strip login_username = strip (default [] form_username) ->
  strip login_password = strip (default [] form_password) ->
  App1Users.login check_password_hash App1.POST (Some login_username)
    (Some login_password) true true users' s
  = inr (App1Users.Redirect "calculator",
         [(Welcome_back (strip login_username), "success"%string)],
         Some (new_id, strip login_username)) /\
  exists e,
    App1Users.login check_password_hash App1.POST (Some login_username)
      (Some login_password) true false users' s = inl e.
Proof.
  intros Hcheck Hreg Hnew Hu Hp.
  unfold App1Users.login, App1.monitor_performance.
  split; [|eauto]. f_equal.
  unfold App1Users.register, App1Users.register_view in Hreg.
  destruct method; [now injection Hreg as _ <-|].
  set (name := strip (default [] form_username)) in *.
  set (mail := strip (default [] form_email)) in *.
  set (password := strip (default [] form_password)) in *.
  destruct (is_empty name) eqn:E1; [now injection Hreg as _ <-|].
  destruct (is_empty mail) eqn:E2; [now injection Hreg as _ <-|].
  destruct (is_empty password) eqn:E3; [now injection Hreg as _ <-|].
  simpl orb in Hreg. cbv iota in Hreg.
  destruct (search _ _); [now injection Hreg as _ <-|].
  destruct (negb _); [now injection Hreg as _ <-|].
  destruct (length password <? 6)%nat; [now injection Hreg as _ <-|].
  destruct db_ok; simpl negb in Hreg; cbv iota in Hreg;
    [|now injection Hreg as _ <-].
  destruct (select_by_username_or_email name mail users) as [v|] eqn:Es;
    [now injection Hreg as _ <-|].
  injection Hreg as _ <-.
  unfold App1Users.login_view. simpl default. rewrite Hu, Hp.
  fold name password. rewrite E1, E3. simpl.
  rewrite (select_by_username_app name users _); [|
    intros w Hw; exact (proj1 (select_none name mail users Es w Hw))|
    reflexivity].
  simpl. now rewrite Hcheck.
Qed.

(** X20 with a hash that is the password itself, on the empty table, when
    the write of the decorator of [register] fails. *)
Lemma X20_witness :
  App1Users.login str_eqb App1.POST (Some (of_ascii "ada"))
    (Some (of_ascii "secret1")) true true
    [ {| user_id := 1; username := of_ascii "ada";
         email := of_ascii "ada@example.org";
         password_hash := of_ascii "secret1" |} ] None
  = inr (App1Users.Redirect "calculator",
         [(Welcome_back (strip (of_ascii "ada")), "success"%string)],
         Some (1, strip (of_ascii "ada"))).
Proof.
  refine (proj1 (X20_app1_account_usable ascii_only (fun _ p => p) str_eqb
            App1.POST (Some (of_ascii "ada"))
            (Some (of_ascii "ada@example.org"))
            (Some (of_ascii "secret1")) (Some (of_ascii "secret1"))
            true false 1 [] [] _ (inl (OtherError "sqlite3.Error"))
            (of_ascii "ada") (of_ascii "secret1") None _ _ _ _ _)).
  - intros _ p. apply str_eqb_refl.
  - vm_compute. reflexivity.
  - discriminate.
  - reflexivity.
  - reflexivity.
Defined.

(** ** The float of an integer

    Integers of at most 53 binary digits are floats; longer ones round to
    a float with a positive exponent or to an infinity. So the bounds of
    the validators cut the unsigned integers exactly between 99999 and
    100000, however many digits the input has. *)

Section IntegerFacts.

(** The number of binary digits of a positive number. *)
Lemma digits2_bounds (p : positive) :
  2 ^ (Z.pos (digits2_pos p) - 1) <= Z.pos p < 2 ^ Z.pos (digits2_pos p).
Proof.
  induction p as [p IH|p IH|]; simpl digits2_pos.
  - rewrite Pos2Z.inj_succ.
    replace (Z.succ (Z.pos (digits2_pos p)) - 1)
      with (Z.succ (Z.pos (digits2_pos p) - 1)) by lia.
    rewrite !Z.pow_succ_r by lia. lia.
  - rewrite Pos2Z.inj_succ.
    replace (Z.succ (Z.pos (digits2_pos p)) - 1)
      with (Z.succ (Z.pos (digits2_pos p) - 1)) by lia.
    rewrite !Z.pow_succ_r by lia. lia.
  - simpl. lia.
Qed.

Lemma Zdigits2_bounds (m : Z) :
  0 < m -> 2 ^ (Zdigits2 m - 1) <= m < 2 ^ Zdigits2 m.
Proof. destruct m as [|p|p]; try lia. intros _. apply digits2_bounds. Qed.

Lemma Zdigits2_pos (m : Z) : 0 < m -> 0 < Zdigits2 m.
Proof. destruct m; simpl; lia. Qed.

Lemma Zdigits2_unique (m d : Z) :
  2 ^ (d - 1) <= m < 2 ^ d -> 0 < d -> Zdigits2 m = d.
Proof.
  intros [H1 H2] Hd.
  assert (Hm : 0 < m) by (pose proof (Z.pow_pos_nonneg 2 (d - 1)); lia).
  pose proof (Zdigits2_bounds m Hm) as [H3 H4].
  pose proof (Zdigits2_pos m Hm) as H5.
  destruct (Z.lt_trichotomy (Zdigits2 m) d) as [H|[H|H]]; [|exact H|].
  - pose proof (Z.pow_le_mono_r 2 (Zdigits2 m) (d - 1)). lia.
  - pose proof (Z.pow_le_mono_r 2 d (Zdigits2 m - 1)). lia.
Qed.

Lemma pow2_xI (k : positive) :
  2 ^ Z.pos k~1 = 2 * (2 ^ Z.pos k * 2 ^ Z.pos k).
Proof.
  rewrite Pos2Z.inj_xI, Z.add_1_r. rewrite Z.pow_succ_r by lia.
  now rewrite Z.pow_twice_r.
Qed.

Lemma pow2_xO (k : positive) : 2 ^ Z.pos k~0 = 2 ^ Z.pos k * 2 ^ Z.pos k.
Proof. change (Z.pos k~0) with (2 * Z.pos k). apply Z.pow_twice_r. Qed.

(** Shifting to the right divides the mantissa. *)
Lemma shr_1_div (mrs : shr_record) :
  0 <= shr_m mrs -> shr_m (shr_1 mrs) = shr_m mrs / 2.
Proof.
  destruct mrs as [m r s]; simpl.
  destruct m as [|p|p]; [reflexivity| |lia]. intros _.
  destruct p as [p|p|]; simpl shr_m.
  - rewrite Pos2Z.inj_xI. apply (Z.div_unique _ _ _ 1); lia.
  - rewrite Pos2Z.inj_xO. apply (Z.div_unique _ _ _ 0); lia.
  - reflexivity.
Qed.

Lemma iter_pos_shr_1_div (k : positive) (mrs : shr_record) :
  0 <= shr_m mrs ->
  shr_m (SpecFloat.iter_pos shr_1 k mrs) = shr_m mrs / 2 ^ Z.pos k.
Proof.
  revert mrs. induction k as [k IH|k IH|]; intros mrs H; simpl SpecFloat.iter_pos.
  - rewrite IH, IH, shr_1_div by
      (try apply iter_pos_shr_1_nonneg; try apply shr_1_nonneg; exact H).
    rewrite !Z.div_div by (try apply Z.pow_pos_nonneg; lia).
    f_equal. now rewrite pow2_xI.
  - rewrite IH, IH by (try apply iter_pos_shr_1_nonneg; exact H).
    rewrite !Z.div_div by (try apply Z.pow_pos_nonneg; lia).
    f_equal. now rewrite pow2_xO.
  - rewrite shr_1_div by exact H. reflexivity.
Qed.


Lemma fexp_53 (x : Z) : fexp prec emax x = Z.max (x - 53) (-1074).
Proof. reflexivity. Qed.

(** The first step of rounding: the exponent it reaches and the mantissa
    it leaves. *)
Lemma shr_fexp_spec (m e : Z) (l : location) :
  0 < m -> -1074 <= e ->
  snd (shr_fexp prec emax m e l) = Z.max e (Zdigits2 m + e - 53) /\
  0 < shr_m (fst (shr_fexp prec emax m e l)).
Proof.
  intros Hm He. unfold shr_fexp, shr. rewrite fexp_53.
  pose proof (Zdigits2_bounds m Hm) as [Hlo _].
  pose proof (Zdigits2_pos m Hm) as Hd.
  destruct (Z.max (Zdigits2 m + e - 53) (-1074) - e) as [|k|k] eqn:Ek;
    simpl fst; simpl snd; rewrite ?shr_record_of_loc_m;
    try (split; lia).
  split; [lia|].
  rewrite iter_pos_shr_1_div by (rewrite shr_record_of_loc_m; lia).
  rewrite shr_record_of_loc_m.
  apply Z.div_str_pos. split; [apply Z.pow_pos_nonneg; lia|].
  apply Z.le_trans with (2 ^ (Zdigits2 m - 1)); [|exact Hlo].
  apply Z.pow_le_mono_r; lia.
Qed.

Lemma round_nearest_even_ge (m : Z) (l : location) :
  m <= round_nearest_even m l.
Proof.
  destruct l as [|[ | | ]]; simpl; try lia. destruct (Z.even m); lia.
Qed.

(** Rounding a positive number whose exponent is not below the least one
    never gives a zero, and the exponent of the result is not below the
    one the number of digits asks for. *)
Lemma binary_round_aux_pos (m e : Z) (l : location) :
  0 < m -> -1074 <= e ->
  binary_round_aux prec emax false m e l = S754_infinity false \/
  exists M e'',
    binary_round_aux prec emax false m e l = S754_finite false M e'' /\
    Z.max e (Zdigits2 m + e - 53) <= e''.
Proof.
  intros Hm He. unfold binary_round_aux.
  destruct (shr_fexp_spec m e l Hm He) as [E1 P1].
  destruct (shr_fexp prec emax m e l) as [mrs' e'].
  simpl in E1, P1.
  set (m2 := round_nearest_even (shr_m mrs') (loc_of_shr_record mrs')).
  assert (Hm2 : 0 < m2).
  { pose proof (round_nearest_even_ge (shr_m mrs') (loc_of_shr_record mrs')).
    subst m2. lia. }
  destruct (shr_fexp_spec m2 e' loc_Exact Hm2 ltac:(lia)) as [E2 P2].
  destruct (shr_fexp prec emax m2 e' loc_Exact) as [mrs'' e''].
  simpl in E2, P2.
  destruct (shr_m mrs'') as [|M|M]; try lia.
  destruct (e'' <=? emax - prec); [right|now left].
  exists M, e''. split; [reflexivity|lia].
Qed.

(** Rounding is exact on an even mantissa of 54 digits. *)
Lemma binary_round_aux_exact (m e : Z) :
  0 < m -> Zdigits2 m = 54 -> Z.even m = true -> -1074 <= e <= 971 ->
  binary_round_aux prec emax false m (e - 1) loc_Exact
  = S754_finite false (Z.to_pos (m / 2)) e.
Proof.
  intros Hm Hd Hev He.
  destruct m as [|q|q]; try discriminate.
  destruct q as [q|q|]; try discriminate.
  simpl in Hd. rewrite Pos2Z.inj_succ in Hd.
  assert (Hq : Z.pos (digits2_pos q) = 53) by lia.
  assert (Hhalf : Z.pos q~0 / 2 = Z.pos q).
  { change (Z.pos q~0) with (2 * Z.pos q).
    rewrite Z.mul_comm. apply Z.div_mul. lia. }
  rewrite Hhalf. simpl Z.to_pos.
  unfold binary_round_aux, shr_fexp. rewrite !fexp_53.
  simpl Zdigits2. rewrite Pos2Z.inj_succ, Hq.
  replace (Z.max (Z.succ 53 + (e - 1) - 53) (-1074) - (e - 1)) with 1
    by lia.
  simpl shr. lazy beta iota zeta.
  simpl shr_m. simpl loc_of_shr_record. simpl round_nearest_even.
  simpl Zdigits2. rewrite fexp_53, Hq.
  replace (Z.max (53 + (e - 1 + 1) - 53) (-1074) - (e - 1 + 1)) with 0
    by lia.
  simpl. replace (e - 1 + 1) with e by lia.
  destruct (Z.leb_spec e (emax - prec)) as [_|H]; [reflexivity|].
  unfold emax, prec in H. lia.
Qed.


Lemma div_eucl_1 (m : Z) : Z.div_eucl m 1 = (m, 0).
Proof.
  pose proof (Z.div_1_r m) as Hq. pose proof (Z.mod_1_r m) as Hr.
  unfold Z.div, Z.modulo in Hq, Hr.
  destruct (Z.div_eucl m 1) as [q r]. simpl in Hq, Hr. congruence.
Qed.

(** The float of an integer: one rounding of the integer itself, shifted
    to 54 digits when it has fewer. *)
Lemma of_decimal_int (p : positive) :
  of_decimal false (Npos p) 0
  = binary_round_aux prec emax false
      (Z.pos p * 2 ^ Z.max 0 (54 - Z.pos (digits2_pos p)))
      (Z.min (Z.pos (digits2_pos p) - 54) 0) loc_Exact.
Proof.
  unfold of_decimal.
  change (Z.to_N (- 0)) with 0%N. change (Z.to_N 0) with 0%N.
  change (10 ^ 0)%N with 1%N. rewrite N.mul_1_r.
  unfold SFdiv, SFdiv_core_binary. rewrite fexp_53.
  simpl Zdigits2. set (d := Z.pos (digits2_pos p)).
  assert (Hd : 0 < d) by (subst d; lia).
  replace (Z.min (Z.max (d + 0 - (1 + 0) - 53) (-1074)) (0 - 0))
    with (Z.min (d - 54) 0) by lia.
  assert (Hm : match 0 - 0 - Z.min (d - 54) 0 with
               | 0 => Z.pos p
               | Z.pos _ => Z.shiftl (Z.pos p) (0 - 0 - Z.min (d - 54) 0)
               | Z.neg _ => 0
               end = Z.pos p * 2 ^ Z.max 0 (54 - d)).
  { replace (0 - 0 - Z.min (d - 54) 0) with (Z.max 0 (54 - d)) by lia.
    destruct (Z.max 0 (54 - d)) as [|k|k] eqn:Ek; [lia| |lia].
    rewrite Z.shiftl_mul_pow2 by lia. reflexivity. }
  rewrite Hm, div_eucl_1. reflexivity.
Qed.

Lemma Zdigits2_shift (p : positive) (k : Z) :
  0 <= k -> Zdigits2 (Z.pos p * 2 ^ k) = Z.pos (digits2_pos p) + k.
Proof.
  intros Hk. pose proof (digits2_bounds p) as [H1 H2].
  apply Zdigits2_unique; [|lia].
  replace (Z.pos (digits2_pos p) + k - 1)
    with (Z.pos (digits2_pos p) - 1 + k) by lia.
  rewrite !Z.pow_add_r by lia.
  pose proof (Z.pow_pos_nonneg 2 k ltac:(lia) Hk). nia.
Qed.

(** An integer of at most 53 binary digits is a float. *)
Lemma of_decimal_small (p : positive) :
  Z.pos (digits2_pos p) <= 53 ->
  of_decimal false (Npos p) 0
  = S754_finite false
      (Z.to_pos (Z.pos p * 2 ^ (53 - Z.pos (digits2_pos p))))
      (Z.pos (digits2_pos p) - 53).
Proof.
  intros Hd. rewrite of_decimal_int. set (d := Z.pos (digits2_pos p)) in *.
  assert (Hpos : 0 < d) by (subst d; lia).
  replace (Z.max 0 (54 - d)) with (54 - d) by lia.
  replace (Z.min (d - 54) 0) with (d - 53 - 1) by lia.
  assert (Hp : 0 < 2 ^ (53 - d)) by (apply Z.pow_pos_nonneg; lia).
  assert (E : Z.pos p * 2 ^ (54 - d) = 2 * (Z.pos p * 2 ^ (53 - d))).
  { replace (54 - d) with (Z.succ (53 - d)) by lia.
    rewrite Z.pow_succ_r by lia. ring. }
  rewrite binary_round_aux_exact.
  - do 2 f_equal. rewrite E, Z.mul_comm. apply Z.div_mul. lia.
  - rewrite E. lia.
  - rewrite Zdigits2_shift by lia. subst d. lia.
  - rewrite E. apply Z.even_mul.
  - lia.
Qed.

(** A longer one rounds to a float with a positive exponent, or to an
    infinity. *)
Lemma of_decimal_large (p : positive) :
  of_decimal false (Npos p) 0 = S754_infinity false \/
  exists M e,
    of_decimal false (Npos p) 0 = S754_finite false M e /\
    Z.pos (digits2_pos p) - 53 <= e.
Proof.
  rewrite of_decimal_int. set (d := Z.pos (digits2_pos p)).
  assert (Hpos : 0 < d) by (subst d; lia).
  assert (Hp : 0 < 2 ^ Z.max 0 (54 - d)) by (apply Z.pow_pos_nonneg; lia).
  destruct (binary_round_aux_pos (Z.pos p * 2 ^ Z.max 0 (54 - d))
              (Z.min (d - 54) 0) loc_Exact ltac:(lia) ltac:(lia))
    as [H|(M & e & H & He)]; [now left|right].
  exists M, e. split; [exact H|].
  rewrite Zdigits2_shift in He by lia. fold d in He. lia.
Qed.


Lemma of_lit_99999 :
  of_lit 99999 = S754_finite false (Z.to_pos (99999 * 2 ^ 36)) (-36).
Proof. vm_compute. reflexivity. Qed.

(** Steps 4 to 6 on the float of an integer: the bounds are those of the
    integer. *)
Lemma range_outcome_int (n : N) :
  range_outcome (of_decimal false n 0)
  = if (n =? 0)%N then reject "Value must be greater than 0."
    else if (n <=? 99999)%N then accept (of_decimal false n 0)
    else reject "Value cannot exceed 99,999.".
Proof.
  destruct n as [|p]; [reflexivity|].
  change (N.pos p =? 0)%N with false. cbv iota.
  unfold range_outcome. rewrite of_lit_99999.
  pose proof (digits2_bounds p) as [Hlo Hhi].
  set (d := Z.pos (digits2_pos p)) in *.
  assert (Hd : 0 < d) by (subst d; lia).
  assert (H17 : 2 ^ 17 = 131072) by reflexivity.
  assert (H16 : 2 ^ 16 = 65536) by reflexivity.
  destruct (Z.le_gt_cases d 17) as [Hsmall|Hbig].
  - rewrite (of_decimal_small p) by (fold d; lia). fold d.
    change (leb (S754_finite false ?m ?e) zero) with false. cbv iota.
    unfold ltb, SFltb, SFcompare.
    destruct (Z.compare_spec (-36) (d - 53)) as [E|E|E].
    + assert (Ed : d = 17) by lia. rewrite Ed.
      change (53 - 17) with 36.
      change (Pos.compare_cont Eq ?a ?b) with (Pos.compare a b).
      rewrite Pos2Z.inj_compare, !Z2Pos.id by lia.
      change (2 ^ 36) with 68719476736.
      destruct (Z.compare_spec (99999 * 68719476736)
                  (Z.pos p * 68719476736)) as [C|C|C];
        destruct (N.leb_spec (N.pos p) 99999); try reflexivity; lia.
    + lia.
    + assert (Hp : Z.pos p < 2 ^ 16).
      { apply Z.lt_le_trans with (2 ^ d); [exact Hhi|].
        apply Z.pow_le_mono_r; lia. }
      destruct (N.leb_spec (N.pos p) 99999); [reflexivity|lia].
  - assert (Hp : 2 ^ 17 <= Z.pos p).
    { apply Z.le_trans with (2 ^ (d - 1)); [|exact Hlo].
      apply Z.pow_le_mono_r; lia. }
    assert (Hn : (N.pos p <=? 99999)%N = false).
    { destruct (N.leb_spec (N.pos p) 99999); [lia|reflexivity]. }
    rewrite Hn.
    destruct (of_decimal_large p) as [->|(M & e & -> & He)];
      [reflexivity|]. fold d in He.
    change (leb (S754_finite false ?m ?e) zero) with false. cbv iota.
    unfold ltb, SFltb, SFcompare.
    destruct (Z.compare_spec (-36) e); try lia. reflexivity.
Qed.

End IntegerFacts.

(** X17: on an input that, once trimmed, is a run of decimal digits (no
    sign, no point), the validator of [app.py] decides by the integer [n]
    the digits write, however long the run is: zero is rejected with [Value
    must be greater than 0.], an integer from 1 to 99999 is accepted with
    the float of [n] as value, and an integer from 100000 on is rejected
    with [Value cannot exceed 99,999.]; no rounding of a long run of digits
    moves the bounds. The validator of [app1.py] answers the same unless
    one of its two guards answers first. *)
Theorem X17_integer_bounds (ucd : UnicodeData) (raw : str) (ip : list N) :
  plain_decimal ucd (strip raw) false ip [] ->
  let n := number ip in
  let outcome :=
    if (n =? 0)%N then reject "Value must be greater than 0."
    else if (n <=? 99999)%N then accept (of_decimal false n 0)
    else reject "Value cannot exceed 99,999." in
  App.validate_kwh_input ucd raw = outcome /\
  (suspicious ucd (strip raw) = false ->
   App1.validate_kwh_input ucd raw = outcome).
Proof.
  intros Hp n outcome.
  assert (H : App.validate_kwh_input ucd raw = outcome).
  { destruct (app_validate_contract ucd raw) as (_ & _ & _ & H4).
    destruct (H4 false ip [] Hp) as [_ ->].
    unfold decimal_value. rewrite app_nil_r. simpl length.
    change (- Z.of_nat 0) with 0. apply range_outcome_int. }
  split; [exact H|].
  intros Hs. now rewrite (validators_agree ucd raw Hs).
Qed.

(** X17 at the input [100000]. *)
Lemma X17_witness :
  App.validate_kwh_input ascii_only (of_ascii "100000")
  = reject "Value cannot exceed 99,999.".
Proof.
  refine (proj1 (X17_integer_bounds ascii_only (of_ascii "100000")
                   [1; 0; 0; 0; 0; 0]%N _)).
  exists (of_ascii "100000"), [].
  split; [repeat (constructor; [reflexivity|]); constructor|].
  split; [constructor|]. split; [discriminate|reflexivity].
Defined.

(** X18: a trimmed input that is a plain decimal whose digits write zero
    ([0], [000], [0.0], [0.000], with or without a minus sign) is rejected
    with [Value must be greater than 0.]: by the validator of [app.py], and
    by the validator of [app1.py] unless one of its two guards answers
    first. *)
Theorem X18_zero_rejected (ucd : UnicodeData) (raw : str) (neg : bool)
    (ip fp : list N) :
  plain_decimal ucd (strip raw) neg ip fp ->
  number (ip ++ fp) = 0%N ->
  App.validate_kwh_input ucd raw = reject "Value must be greater than 0." /\
  (suspicious ucd (strip raw) = false ->
   App1.validate_kwh_input ucd raw = reject "Value must be greater than 0.").
Proof.
  intros Hp Hz.
  assert (H : App.validate_kwh_input ucd raw
              = reject "Value must be greater than 0.").
  { destruct (app_validate_contract ucd raw) as (_ & _ & _ & H4).
    destruct (H4 neg ip fp Hp) as [_ ->].
    unfold decimal_value, of_decimal. rewrite Hz. now destruct neg. }
  split; [exact H|].
  intros Hs. now rewrite (validators_agree ucd raw Hs).
Qed.

(** X18 at the input [0.00]. *)
Lemma X18_witness :
  App.validate_kwh_input ascii_only (of_ascii "0.00")
  = reject "Value must be greater than 0.".
Proof.
  refine (proj1 (X18_zero_rejected ascii_only (of_ascii "0.00") false
                   [0%N] [0%N; 0%N] _ _)).
  - exists [48%N], [48%N; 48%N].
    split; [repeat (constructor; [reflexivity|]); constructor|].
    split; [repeat (constructor; [reflexivity|]); constructor|].
    split; [discriminate|reflexivity].
  - reflexivity.
Defined.

(** ** From the form to the table *)

Section EndToEndFacts.

Context (ucd : UnicodeData).

(** The stripped field of a run of digits between 1 and 99999 is accepted
    with the float of the integer. *)
Lemma app_validate_integer_field (raw : str) (ip : list N) :
  plain_decimal ucd (strip raw) false ip [] ->
  (1 <= number ip <= 99999)%N ->
  App.validate_kwh_input ucd (strip raw)
  = accept (of_decimal false (number ip) 0).
Proof.
  intros Hp Hn.
  rewrite (app_validate_strip ucd (strip raw) raw (strip_idempotent raw)).
  destruct (app_validate_contract ucd raw) as (_ & _ & _ & H4).
  destruct (H4 false ip [] Hp) as [_ ->].
  unfold decimal_value. rewrite app_nil_r. simpl length.
  change (- Z.of_nat 0) with 0. rewrite range_outcome_int.
  destruct (N.eqb_spec (number ip) 0) as [E|_]; [lia|].
  destruct (N.leb_spec (number ip) 99999) as [_|E]; [reflexivity|lia].
Qed.

End EndToEndFacts.

(** X19: a logged-in user who posts an integer from 1 to 99999, written
    as a run of digits with or without whitespace around it, gets the
    result and a new row: when the database write goes through, the view
    [calculator] of [app.py] appends the row of the user with the float of
    the integer and its product with 0.37, shows that product and the
    trimmed input, and flashes [Calculation saved to your history!]. The
    view of [app1.py] does the same with the category [electricity] and
    the message [Calculation saved successfully!], provided neither of the
    validator's guards finds its pattern and both writes go through. *)
Theorem X19_views_store_integers (ucd : UnicodeData) (user_id : Z)
    (raw : str) (ip : list N) (now : datetime)
    (store : list App.row) (store1 : list App1.row) :
  plain_decimal ucd (strip raw) false ip [] ->
  (1 <= number ip <= 99999)%N ->
  let kwh := of_decimal false (number ip) 0 in
  let co2 := mul kwh (spec_factor Cat_electricity) in
  App.calculator ucd (Some user_id) App.POST (Some raw) true store
  = (App.Calculator_html None (Some co2) (strip raw),
     [("Calculation saved to your history!", "success")]%string,
     store ++ [ {| App.row_user_id := user_id; App.row_kwh_input := kwh;
                   App.row_co2_result := co2 |} ]) /\
  (suspicious ucd (strip raw) = false ->
   App1.calculator ucd (Some user_id) App1.POST (Some raw) true true now
     store1
   = inr (App1.Calculator_html None (Some co2) (strip raw),
          [("Calculation saved successfully!", "success")]%string,
          store1 ++ [ {| App1.row_user_id := user_id;
                         App1.row_category := "electricity";
                         App1.row_kwh_input := kwh;
                         App1.row_co2_result := co2 |} ])).
Proof.
  intros Hp Hn kwh co2.
  pose proof (app_validate_integer_field ucd raw ip Hp Hn) as Hv.
  fold kwh in Hv. split.
  - unfold App.calculator. simpl default. rewrite Hv. reflexivity.
  - intros Hs. unfold App1.calculator, App1.calculator_view. simpl default.
    rewrite (validators_agree ucd (strip raw)), Hv
      by (now rewrite strip_idempotent).
    pose proof (proj1 (validators_well_formed ucd (strip raw))) as Hwf.
    rewrite Hv in Hwf. apply accepted_outcome in Hwf.
    destruct Hwf as (_ & v & [= <-] & H1 & H2).
    pose proof (electricity_attempt_accepted kwh now H1 H2) as Ha.
    unfold attempt in Ha. unfold accept. simpl negb. cbv iota.
    rewrite Ha. reflexivity.
Qed.

(** X19 at the input 250 of user 7 on empty tables. *)
Lemma X19_witness :
  let kwh := of_decimal false 250 0 in
  let co2 := mul kwh (spec_factor Cat_electricity) in
  App.calculator ascii_only (Some 7) App.POST (Some (of_ascii " 250 ")) true
    []
  = (App.Calculator_html None (Some co2) (strip (of_ascii " 250 ")),
     [("Calculation saved to your history!", "success")]%string,
     [] ++ [ {| App.row_user_id := 7; App.row_kwh_input := kwh;
                App.row_co2_result := co2 |} ]).
Proof.
  intros kwh co2.
  refine (proj1 (X19_views_store_integers ascii_only 7 (of_ascii " 250 ")
                   [2; 5; 0]%N 0 [] [] _ _)).
  - exists (of_ascii "250"), [].
    split; [repeat (constructor; [reflexivity|]); constructor|].
    split; [constructor|]. split; [discriminate|reflexivity].
  - vm_compute. split; discriminate.
Defined.

(** * The claims of the specification *)

(** ** The validator *)

(** The examples of the specification, on the validator of [app.py]: each
    branch of the contract is taken by some input. *)
Lemma validator_examples (ucd : UnicodeData) :
  let validate := fun s => App.validate_kwh_input ucd (of_ascii s) in
  validate EmptyString = reject "Please enter a value." /\
  validate "   "%string = reject "Please enter a value." /\
  validate "1,000"%string = reject "Please enter a valid number." /\
  validate "1e3"%string = reject "Please enter a valid number." /\
  validate "+100"%string = reject "Please enter a valid number." /\
  validate "abc"%string = reject "Please enter a valid number." /\
  validate "1 000"%string = reject "Please enter a valid number." /\
  validate "0"%string = reject "Value must be greater than 0." /\
  validate "-100"%string = reject "Value must be greater than 0." /\
  validate "100000"%string = reject "Value cannot exceed 99,999." /\
  validate "99999"%string = accept (of_lit 99999) /\
  validate " 500 "%string = accept (of_lit 500).
Proof. vm_compute. repeat split; reflexivity. Qed.

(** The two guards of [app1.py] answer before the number pattern is
    tried, whatever the Unicode tables. The third input is the one of the
    test of the repository. *)
Lemma guard_examples (ucd : UnicodeData) :
  let validate := fun s => App1.validate_kwh_input ucd (of_ascii s) in
  validate "1;2"%string = reject "Invalid input detected." /\
  validate "<b>"%string = reject "Invalid input detected." /\
  validate "1'; DROP TABLE users; --"%string
  = reject "Invalid input detected." /\
  validate "Script"%string = reject "Invalid input detected." /\
  validate "12--3"%string = reject "Invalid input detected." /\
  validate "abc"%string = reject "Please enter a valid number." /\
  validate "-100"%string = reject "Value must be greater than 0." /\
  validate "500"%string = accept (of_lit 500).
Proof. vm_compute. repeat split; reflexivity. Qed.

(** A digit sequence too long for binary64 parses to an infinity and is
    rejected by the upper bound. *)
Lemma long_digit_sequence (ucd : UnicodeData) :
  py_float ucd (49%N :: repeat 48%N 400) = Some (S754_infinity false) /\
  App.validate_kwh_input ucd (49%N :: repeat 48%N 400)
  = reject "Value cannot exceed 99,999.".
Proof. vm_compute. split; reflexivity. Qed.

(** C1, as the specification states it, fails on the validator of
    [app1.py]: the input [1;2] is not empty after trimming and is not a
    plain decimal, yet the message is not the one of step 2. *)
Lemma C1_app1_counterexample :
  let raw := of_ascii "1;2" in
  strip raw <> [] /\
  ~ is_plain_decimal ascii_only (strip raw) /\
  App1.validate_kwh_input ascii_only raw = reject "Invalid input detected." /\
  ~ validator_contract ascii_only (App1.validate_kwh_input ascii_only).
Proof.
  assert (Hnp : ~ is_plain_decimal ascii_only (strip (of_ascii "1;2"))).
  { intros H%number_pattern_plain_decimal. vm_compute in H. discriminate. }
  cbv zeta. split; [vm_compute; discriminate|].
  split; [exact Hnp|]. split; [vm_compute; reflexivity|].
  intros H. destruct (H (of_ascii "1;2")) as (_ & H2 & _).
  assert (Hne : strip (of_ascii "1;2") <> []) by (vm_compute; discriminate).
  specialize (H2 Hne Hnp). vm_compute in H2. discriminate.
Qed.

(** C1 (amended): the validator of [app.py] applies the steps of the
    specification in their order, with short-circuiting: an input that is
    empty after trimming is rejected with the first message; otherwise one
    that is not a plain decimal (in particular one that holds a character
    other than a digit, a minus sign and a point) with the second; otherwise
    [float] returns the binary64 value [v] of the decimal, and the outcome
    is the third message when [v <= 0], the fourth when [v > 99999], and
    the acceptance of exactly [v] otherwise. The validator of [app1.py] does
    the same with one more step after the first: a trimmed input in which
    one of its two patterns is found is rejected with [Invalid input
    detected.] *)
Theorem C1_validator_order (ucd : UnicodeData) :
  validator_contract ucd (App.validate_kwh_input ucd) /\
  guarded_validator_contract ucd (App1.validate_kwh_input ucd).
Proof.
  split; [apply app_validate_contract|apply app1_validate_contract].
Qed.

(** C3, as the specification states it, fails on the validator of
    [app1.py]: the rejection of [<b>] carries a fifth message. *)
Lemma C3_app1_counterexample :
  App1.validate_kwh_input ascii_only (of_ascii "<b>")
  = reject "Invalid input detected." /\
  ~ rejects_within contractual_messages
      (App1.validate_kwh_input ascii_only (of_ascii "<b>")).
Proof.
  split; [vm_compute; reflexivity|].
  vm_compute. intros H.
  repeat (destruct H as [H|H]; [discriminate|]). exact H.
Qed.

(** C3 (amended): a rejection by the validator of [app.py] carries one of
    the four contractual messages; a rejection by the validator of
    [app1.py] carries one of these four or [Invalid input detected.] *)
Theorem C3_rejection_messages (ucd : UnicodeData) (raw : str) :
  rejects_within contractual_messages (App.validate_kwh_input ucd raw) /\
  rejects_within ("Invalid input detected."%string :: contractual_messages)
    (App1.validate_kwh_input ucd raw).
Proof.
  split.
  - destruct (app_validate_cases ucd raw)
      as [-> | [-> | (neg & ip & fp & _ & ->)]]; try (simpl; tauto).
    apply range_outcome_messages, decimal_value_not_nan.
  - destruct (app1_validate_cases ucd raw)
      as [-> | [-> | [-> | (neg & ip & fp & _ & ->)]]]; try (simpl; tauto).
    pose proof (range_outcome_messages (decimal_value neg ip fp)
                  (decimal_value_not_nan neg ip fp)) as H.
    destruct (range_outcome (decimal_value neg ip fp)) as [[[|] [m|]] val];
      simpl in *; tauto.
Qed.

(** C4: the outcome of either validator is an acceptance or a rejection
    and never both (the flag is true exactly when there is no message,
    exactly when a value is returned), and an accepted value [v] satisfies
    [0 < v <= 99999]. *)
Theorem C4_outcome_invariant (ucd : UnicodeData) (raw : str) :
  well_formed_outcome (App.validate_kwh_input ucd raw) /\
  well_formed_outcome (App1.validate_kwh_input ucd raw).
Proof. apply validators_well_formed. Qed.

(** C9: both validators return a triple for every string, and the handler
    of a conversion error is never entered: whenever the number pattern
    matches the trimmed input, [float] returns a value. *)
Theorem C9_validator_total (ucd : UnicodeData) (raw : str) :
  (exists flag msg val,
     App.validate_kwh_input ucd raw = (flag, msg, val)) /\
  (exists flag msg val,
     App1.validate_kwh_input ucd raw = (flag, msg, val)) /\
  (fullmatch (App.number_pattern ucd) (strip raw) = true ->
   exists kwh, py_float ucd (strip raw) = Some kwh) /\
  (fullmatch (App1.number_pattern ucd) (strip raw) = true ->
   exists kwh, py_float ucd (strip raw) = Some kwh).
Proof.
  assert (H : fullmatch (App.number_pattern ucd) (strip raw) = true ->
              exists kwh, py_float ucd (strip raw) = Some kwh).
  { intros (neg & ip & fp & Hp)%number_pattern_plain_decimal.
    eexists. exact (py_float_trimmed ucd raw neg ip fp Hp). }
  split; [|split; [|split; exact H]].
  - destruct (App.validate_kwh_input ucd raw) as [[flag msg] val]. eauto.
  - destruct (App1.validate_kwh_input ucd raw) as [[flag msg] val]. eauto.
Qed.

(** C9 at the input [500]: the pattern matches and the conversion
    succeeds. *)
Lemma C9_witness :
  fullmatch (App.number_pattern ascii_only) (strip (of_ascii "500")) = true /\
  exists kwh, py_float ascii_only (strip (of_ascii "500")) = Some kwh.
Proof.
  split; [vm_compute; reflexivity|].
  apply (proj1 (proj2 (proj2 (C9_validator_total ascii_only (of_ascii "500"))))).
  vm_compute; reflexivity.
Defined.


(** ** The calculators *)

(** C2, as the specification states it, fails on [api_calculate]: a
    vehicle type outside the enumeration is not refused; the request is
    answered with the emission computed from the default factor 0.21. *)
Lemma C2_counterexample :
  let data : gmap string pyval :=
    <["category"%string := PyStr (of_ascii "transport")]>
      (<["vehicle_type"%string := PyStr (of_ascii "spaceship")]>
         (<["value"%string := PyInt 100]> ∅)) in
  known_vehicle (PyStr (of_ascii "spaceship")) = false /\
  App1.api_calculate data true true 0 zero
  = inr (App1.SuccessBody (PyStr (of_ascii "transport")) (PyInt 100)
           (of_lit 21) "kg CO2e" zero, 200).
Proof. split; vm_compute; reflexivity. Qed.

(** C2 (amended): for a request that carries a value, when the write of
    the decorator [monitor_performance] goes through, a category other
    than [electricity], [transport] and [water] is answered with the body
    [{'error': 'Invalid category'}] and the status 400 of the user-input
    errors, and nothing is computed; there is no configuration error. A
    vehicle type outside the enumeration is not refused when it can be
    hashed: the transport calculator takes the factor 0.21 of a car for it,
    and a valid distance is answered, when the write to [api_logs] goes
    through as well, with the status 200 and the product of the distance
    and that factor, rounded to two decimals. A vehicle type that is a list
    or a dictionary makes the constructor raise a [TypeError], which is
    answered with the status 400 and the message of the exception. When
    the write of the decorator fails, the route raises, whatever the
    request. *)
Theorem C2_category_dispatch (data : gmap string pyval) (api_log_ok : bool)
    (now : datetime) (elapsed : float64) :
  let category :=
    default (PyStr (of_ascii "electricity")) (data !! "category"%string) in
  let value := default PyNone (data !! "value"%string) in
  let vt := default (PyStr (of_ascii "car")) (data !! "vehicle_type"%string) in
  (is_none value = false -> known_category category = false ->
   App1.api_calculate data api_log_ok true now elapsed
   = inr (App1.ErrorBody "Invalid category", 400)) /\
  (eq_str category "transport" = true -> known_vehicle vt = false ->
   hashable vt = true ->
   App1.Transport_validate_input value = inr true ->
   App1.vehicle_factor vt = inr (spec_factor (Cat_transport Car)) /\
   exists f,
     to_float value = inr f /\
     App1.api_calculate data true true now elapsed
     = inr (App1.SuccessBody category value
              (round (mul f (spec_factor (Cat_transport Car))) 2)
              "kg CO2e" (round elapsed 4), 200)) /\
  (eq_str category "transport" = true -> is_none value = false ->
   hashable vt = false ->
   known_vehicle vt = false /\
   exists m,
     App1.vehicle_factor vt = inl (TypeError m) /\
     App1.api_calculate data api_log_ok true now elapsed
     = inr (App1.FailureBody m, 400)) /\
  (exists e,
     App1.api_calculate data api_log_ok false now elapsed = inl e).
Proof.
  intros category value vt.
  unfold App1.api_calculate, App1.monitor_performance.
  split; [|split; [|split]].
  - intros Hv Hk. unfold App1.api_calculate_view. fold category value.
    rewrite Hv. unfold App1.select_calculator.
    unfold known_category in Hk.
    apply orb_false_iff in Hk as [Hk H3].
    apply orb_false_iff in Hk as [H1 H2].
    now rewrite H1, H2, H3.
  - intros Hc Hk Hh Hval.
    pose proof (vehicle_factor_default vt Hh Hk) as Hf.
    split; [exact Hf|].
    destruct (validated_to_float (Cat_transport Car) value Hval) as [f Hfl].
    exists f. split; [exact Hfl|].
    unfold App1.api_calculate_view. fold category value.
    assert (Hnone : is_none value = false)
      by (destruct value; try reflexivity; discriminate).
    rewrite Hnone. unfold App1.select_calculator. fold vt.
    rewrite (eq_str_true category _ Hc).
    change (eq_str (PyStr (of_ascii "transport")) "electricity") with false.
    change (eq_str (PyStr (of_ascii "transport")) "transport") with true.
    cbv iota.
    destruct (transport_calculator_spec vt _ ∅ Hf)
      as (self & i & h' & E & W & Hfi & Ho).
    pose proof (attempt_spec (App1.TransportEmissionCalculator vt) ∅ h' self
                  i value now E W) as Ha.
    unfold attempt in Ha. rewrite Ha.
    unfold App1.validate_input_of. rewrite Ho, Hval, Hfi.
    unfold times. rewrite Hfl. reflexivity.
  - intros Hc Hnone Hh.
    assert (Hm : exists m, App1.vehicle_factor vt = inl (TypeError m)).
    { destruct vt; try discriminate; simpl; eauto. }
    split; [now destruct vt|].
    destruct Hm as [m Hm]. exists m. split; [exact Hm|].
    unfold App1.api_calculate_view. fold category value.
    rewrite Hnone. unfold App1.select_calculator. fold vt.
    rewrite (eq_str_true category _ Hc).
    change (eq_str (PyStr (of_ascii "transport")) "electricity") with false.
    change (eq_str (PyStr (of_ascii "transport")) "transport") with true.
    cbv iota.
    unfold App1.TransportEmissionCalculator, App1.bind. now rewrite Hm.
  - eauto.
Qed.

(** C2 at two requests: the category [gas], and the vehicle type
    [spaceship] with the distance 100. *)
Lemma C2_witness :
  App1.api_calculate
    (<["category"%string := PyStr (of_ascii "gas")]>
       (<["value"%string := PyInt 5]> ∅)) true true 0 zero
  = inr (App1.ErrorBody "Invalid category", 400) /\
  App1.vehicle_factor (PyStr (of_ascii "spaceship"))
  = inr (spec_factor (Cat_transport Car)).
Proof.
  split.
  - apply (proj1 (C2_category_dispatch
                    (<["category"%string := PyStr (of_ascii "gas")]>
                       (<["value"%string := PyInt 5]> ∅)) true 0 zero));
      vm_compute; reflexivity.
  - refine (proj1 (proj1 (proj2 (C2_category_dispatch
                    (<["category"%string := PyStr (of_ascii "transport")]>
                       (<["vehicle_type"%string :=
                            PyStr (of_ascii "spaceship")]>
                          (<["value"%string := PyInt 100]> ∅)))
                    true 0 zero)) _ _ _ _));
      vm_compute; reflexivity.
Defined.

(** C5: [calculate_co2_emission] of [app.py] returns the binary64 product
    of the value and 0.37; for every category of the enumeration the
    constructor of [app1.py] succeeds, and on every value that
    [validate_input] accepts, [calculate] returns the binary64 product of
    the value (converted to a float when it is an [int]) and the factor of
    the table, with no other rounding. *)
Theorem C5_emission_is_product :
  (forall kwh : float64,
     App.calculate_co2_emission kwh = mul kwh (spec_factor Cat_electricity)) /\
  (forall (c : category) (h : gmap loc App1.obj),
     exists self h1, new_calculator c h = (inr self, h1)) /\
  (forall (c : category) (h h1 : gmap loc App1.obj) (self : loc)
          (value : pyval) (now : datetime),
     new_calculator c h = (inr self, h1) ->
     App1.validate_input self value h1 = (inr true, h1) ->
     exists f,
       to_float value = inr f /\
       fst (App1.calculate self value now h1)
       = inr (mul f (spec_factor c))).
Proof.
  split; [reflexivity|]. split.
  - intros c h. destruct (new_calculator_spec c h) as (self & i & h' & E & _).
    eauto.
  - intros c h h1 self value now E Hval.
    destruct (new_calculator_spec c h) as (self' & i & h' & E' & W & Hf & Ho).
    rewrite E in E'. injection E' as <- <-.
    rewrite (validate_input_spec h1 self i [] value W) in Hval.
    injection Hval as Hval.
    assert (Hfor : validate_for c value = inr true).
    { rewrite <- Hval. unfold App1.validate_input_of. rewrite Ho.
      now destruct c. }
    destruct (validated_to_float c value Hfor) as [f Hfl].
    exists f. split; [exact Hfl|].
    rewrite (calculate_spec h1 self i [] value now W), Hval, Hf.
    unfold times. now rewrite Hfl.
Qed.

(** C5 at the water calculator built in an empty store, on 1000 litres. *)
Lemma C5_witness :
  exists f,
    to_float (PyInt 1000) = inr f /\
    fst (App1.calculate 2%positive (PyInt 1000) 0
           (snd (new_calculator Cat_water ∅)))
    = inr (mul f (spec_factor Cat_water)).
Proof.
  apply (proj2 (proj2 C5_emission_is_product) Cat_water ∅
           (snd (new_calculator Cat_water ∅)) 2%positive (PyInt 1000) 0);
    vm_compute; reflexivity.
Defined.

(** C6: for every numeric value that is not a NaN the two calculators keep
    the bounds of the specification (see [transport_bounds] and
    [water_bounds]); on the float NaN the code departs from them: both
    comparisons of [validate_input] are false on a NaN, so that the value
    is accepted by the transport and by the water calculator although it
    lies in neither range. *)
Theorem C6_nan_passes_validation :
  let nan := PyFloat S754_nan in
  is_numeric nan = true /\
  App1.Transport_validate_input nan = inr true /\
  within true 0 10000 nan = false /\
  App1.Water_validate_input nan = inr true /\
  within false 0 100000 nan = false.
Proof. repeat split; vm_compute; reflexivity. Qed.

(** C7: the view of [app.py] keeps the partial-failure policy (see
    [app_calculator_store_failure]); the view of [app1.py] does not tell
    the caller. With the input 500 and a history write that fails, both
    views show the result 185.0 and leave the store as it is; [app.py]
    flashes the warning, [app1.py] flashes nothing. *)
Theorem C7_app1_failed_save_is_silent :
  let form := Some (of_ascii "500") in
  App.calculator ascii_only (Some 1) App.POST form false []
  = (App.Calculator_html None (Some (of_lit 185)) (of_ascii "500"),
     [("Calculation completed but could not be saved to history."%string,
       "warning"%string)],
     []) /\
  App1.calculator ascii_only (Some 1) App1.POST form false true 0 []
  = inr (App1.Calculator_html None (Some (of_lit 185)) (of_ascii "500"),
         [], []).
Proof. split; vm_compute; reflexivity. Qed.

(** C8: in binary64 arithmetic, electricity with the input 100 yields
    exactly 37.0, electricity with the input 123.45 yields exactly 45.6765
    (the double nearest to that decimal), and water with the input 1000
    yields exactly 1.5; in [app.py] and through the calculators of
    [app1.py], whatever the store and the clock. *)
Theorem C8_exact_results (h : gmap loc App1.obj) (now : datetime) :
  App.calculate_co2_emission (of_lit 100) = of_decimal false 370 (-1) /\
  App.calculate_co2_emission (of_decimal false 12345 (-2))
  = of_decimal false 456765 (-4) /\
  fst (calculate_category Cat_electricity (PyInt 100) now h)
  = inr (of_decimal false 370 (-1)) /\
  fst (calculate_category Cat_electricity
         (PyFloat (of_decimal false 12345 (-2))) now h)
  = inr (of_decimal false 456765 (-4)) /\
  fst (calculate_category Cat_water (PyInt 1000) now h)
  = inr (of_decimal false 15 (-1)).
Proof.
  rewrite !calculate_category_spec.
  repeat split; vm_compute; reflexivity.
Qed.

(** C10: a successful [calculate] on a calculator appends exactly one new
    record to the history list of the instance, holding the input, the
    output, the time and the name of the class, and leaves the instance and
    every other object as they were; [get_history] returns a new list with
    the same items, and whatever a caller does to that list, the history of
    the instance and the result of a later [get_history] do not change. *)
Theorem C10_history_frame (h h' : gmap loc App1.obj) (self : loc)
    (i : App1.instance) (items : list loc) (value : pyval)
    (now : datetime) (result : float64) :
  has_calculator h self i items ->
  App1.calculate self value now h = (inr result, h') ->
  exists r,
    h !! r = None /\
    h' !! r = Some (App1.ODict (record_of i value result now)) /\
    has_calculator h' self i (items ++ [r]) /\
    (forall l, l <> r -> l <> App1._calculation_history i ->
               h' !! l = h !! l) /\
    (forall f : list loc -> list loc,
       exists copy h1 h2 copy' h3,
         App1.get_history self h' = (inr copy, h1) /\
         h' !! copy = None /\
         h1 !! copy = Some (App1.OList (items ++ [r])) /\
         App1.list_mutate copy f h1 = (inr tt, h2) /\
         h2 !! copy = Some (App1.OList (f (items ++ [r]))) /\
         has_calculator h2 self i (items ++ [r]) /\
         (forall l, l <> copy -> h2 !! l = h' !! l) /\
         App1.get_history self h2 = (inr copy', h3) /\
         h3 !! copy' = Some (App1.OList (items ++ [r]))).
Proof.
  intros W H.
  destruct (calculate_appends h h' self i items value now result W H)
    as (r & H1 & H2 & W' & H3).
  exists r. repeat (split; [assumption|]).
  intros f. now apply get_history_is_copy.
Qed.

(** C10 at a new electricity calculator in an empty store, on the
    input 100 at time 0. *)
Lemma C10_witness :
  let h := snd (App1.ElectricityEmissionCalculator ∅) in
  let i := {| App1._emission_factor := of_decimal false 37 (-2);
              App1._calculation_history := 1%positive;
              App1.own := App1.Electricity 99999 0 |} in
  exists r,
    h !! r = None /\
    snd (App1.calculate 2%positive (PyInt 100) 0 h) !! r
    = Some (App1.ODict (record_of i (PyInt 100) (of_lit 37) 0)) /\
    has_calculator (snd (App1.calculate 2%positive (PyInt 100) 0 h))
      2%positive i ([] ++ [r]).
Proof.
  intros h i.
  destruct (C10_history_frame h
              (snd (App1.calculate 2%positive (PyInt 100) 0 h))
              2%positive i [] (PyInt 100) 0 (of_lit 37))
    as (r & H1 & H2 & H3 & _).
  - split; vm_compute; reflexivity.
  - vm_compute; reflexivity.
  - exists r. auto.
Defined.
